(** * The transactional wrapper of sqlitecluster/SQLite.cpp

    A shallow embedding of the [SQLite] class: one connection object, the
    [SharedData] it shares with its peers, and the engine handle it drives.
    Member functions become computations in a state-and-exception monad;
    [SASSERT] failures abort, [throw] raises, and taking a held mutex blocks.

    The storage engine (sqlite3), the clock and the libstuff helpers are
    not part of the file under study.  The engine is modelled as far as the
    wrapper observes it: the journal tables seen through the handle, the
    transaction state, and a script of responses that stands for everything
    the wrapper cannot predict (result codes, rows of application queries,
    the callbacks the engine makes while it runs a statement).  Logging
    (SINFO, SWARN, syslog and the like) is left out. *)

From Stdlib Require Import ZArith Ascii DecimalString.
From stdpp Require Import gmap strings list sorting.

#[local] Open Scope Z_scope.
#[local] Set Primitive Projections.

(** ** Machine integers *)

(** [uint64_t] arithmetic: every result is reduced modulo 2^64. *)
Definition u64 (z : Z) : Z := z mod 2 ^ 64.

(** [int64_t] wrap-around (two's complement), used by the atomic counters. *)
Definition i64 (z : Z) : Z := (z + 2 ^ 63) mod 2 ^ 64 - 2 ^ 63.

(** ** Constants of sqlite3.h *)

Definition SQLITE_OK : Z := 0.
Definition SQLITE_ERROR : Z := 1.
Definition SQLITE_INTERRUPT : Z := 9.
Definition SQLITE_CONSTRAINT : Z := 19.
Definition SQLITE_AUTH : Z := 23.
Definition SQLITE_BUSY_SNAPSHOT : Z := 517. (* SQLITE_BUSY | (2<<8) *)

Definition SQLITE_DENY : Z := 1.
Definition SQLITE_IGNORE : Z := 2.

Definition SQLITE_COPY : Z := 0.
Definition SQLITE_CREATE_INDEX : Z := 1.
Definition SQLITE_CREATE_TABLE : Z := 2.
Definition SQLITE_CREATE_TEMP_INDEX : Z := 3.
Definition SQLITE_CREATE_TEMP_TABLE : Z := 4.
Definition SQLITE_CREATE_TEMP_TRIGGER : Z := 5.
Definition SQLITE_CREATE_TEMP_VIEW : Z := 6.
Definition SQLITE_CREATE_TRIGGER : Z := 7.
Definition SQLITE_CREATE_VIEW : Z := 8.
Definition SQLITE_DELETE : Z := 9.
Definition SQLITE_DROP_INDEX : Z := 10.
Definition SQLITE_DROP_TABLE : Z := 11.
Definition SQLITE_DROP_TEMP_INDEX : Z := 12.
Definition SQLITE_DROP_TEMP_TABLE : Z := 13.
Definition SQLITE_DROP_TEMP_TRIGGER : Z := 14.
Definition SQLITE_DROP_TEMP_VIEW : Z := 15.
Definition SQLITE_DROP_TRIGGER : Z := 16.
Definition SQLITE_DROP_VIEW : Z := 17.
Definition SQLITE_INSERT : Z := 18.
Definition SQLITE_PRAGMA : Z := 19.
Definition SQLITE_READ : Z := 20.
Definition SQLITE_SELECT : Z := 21.
Definition SQLITE_TRANSACTION : Z := 22.
Definition SQLITE_UPDATE : Z := 23.
Definition SQLITE_ATTACH : Z := 24.
Definition SQLITE_DETACH : Z := 25.
Definition SQLITE_ALTER_TABLE : Z := 26.
Definition SQLITE_REINDEX : Z := 27.
Definition SQLITE_ANALYZE : Z := 28.
Definition SQLITE_CREATE_VTABLE : Z := 29.
Definition SQLITE_DROP_VTABLE : Z := 30.
Definition SQLITE_FUNCTION : Z := 31.
Definition SQLITE_SAVEPOINT : Z := 32.
Definition SQLITE_RECURSIVE : Z := 33.

(** ** libstuff string helpers

    libstuff is not among the sources; the helpers the wrapper calls are
    written out after their names and the C library routines they wrap. *)

(** [::isupper] and [::tolower] on one character (ASCII). *)
Definition isupper (a : ascii) : bool :=
  let n := N_of_ascii a in ((65 <=? n) && (n <=? 90))%N.

Definition tolower (a : ascii) : ascii :=
  if isupper a then ascii_of_N (N_of_ascii a + 32) else a.

(** Modelled from the spec: [SToLower] of libstuff, which is not among the
    sources.  The authorizer is to accept the pragma name schema_version
    whatever its case: the string with every character lowered. *)
Fixpoint SToLower (s : string) : string :=
  match s with
  | EmptyString => EmptyString
  | String a r => String (tolower a) (SToLower r)
  end.

(** Modelled from the spec: [SEndsWith (haystack, needle)] of libstuff, by
    which a write requires its trailing semicolon. *)
Definition SEndsWith (haystack needle : string) : bool :=
  let h := String.length haystack in
  let n := String.length needle in
  (n <=? h)%nat && String.eqb (String.substring (h - n) n haystack) needle.

Definition digit_value (a : ascii) : option Z :=
  let n := N_of_ascii a in
  if ((48 <=? n) && (n <=? 57))%N then Some (Z.of_N n - 48) else None.

Fixpoint parse_digits (acc : Z) (s : string) : Z :=
  match s with
  | EmptyString => acc
  | String a r =>
      match digit_value a with
      | Some d => parse_digits (Z.min (acc * 10 + d) (2 ^ 64 - 1)) r
      | None => acc
      end
  end.

(** Modelled from the spec: [SToUInt64] of libstuff, which reads the counts
    and ids the engine returns.  It is [strtoull (s, NULL, 10)] on such
    cells: the leading decimal digits, saturating at [ULLONG_MAX]; no digit
    (a NULL cell arrives as the empty string) reads as 0. *)
Definition SToUInt64 (s : string) : Z := parse_digits 0 s.

(** How the engine prints an integer column, and [SQ] an integer. *)
Definition render_int (z : Z) : string := NilZero.string_of_int (Z.to_int z).

(** ** Data *)

(** [SQResult]: rows of text cells. *)
Definition SQResult : Type := list (list string).

(** [result[i][j]]; [None] where the C++ indexing is out of range. *)
Definition cell (r : SQResult) (i j : nat) : option string :=
  row ← r !! i; row !! j.

(** One row of a journal table [(id INTEGER PRIMARY KEY, query TEXT, hash TEXT)]. *)
Record JournalRow := { row_id : Z; row_query : string; row_hash : string }.

#[global] Instance JournalRow_eq_dec : EqDecision JournalRow.
Proof. solve_decision. Defined.

(** One authorizer invocation: the action code and its four detail strings
    ([None] is a null pointer). *)
Record AuthAction := {
  actionCode : Z;
  detail1 : option string;
  detail2 : option string;
  detail3 : option string;
  detail4 : option string
}.

(** The statements the wrapper hands to [SQuery].  The SQL text it builds
    with [SQ] and string concatenation is kept structured:
    - [SqlInsertJournal t i q h] is
      "INSERT INTO t VALUES (i, q, h )" of [prepare];
    - [SqlTrimJournal t m] is
      "DELETE FROM t WHERE id < (SELECT MAX(id) FROM t) - m LIMIT 10";
    - [SqlMinId t], [SqlMaxId t] are "SELECT MIN(id) AS id FROM t" and its
      MAX twin;
    - [SqlGetCommit ts i] is the UNION over [ts] of
      "SELECT query, hash FROM t WHERE id = i" built by [_getJournalQuery];
    - [SqlGetCommits ts i j] is "SELECT hash, query FROM (u) ORDER BY id",
      where u is the UNION over [ts] of "SELECT id, hash, query FROM t
      WHERE id >= i AND id <= j", without the upper bound when j is 0;
    - [SqlApp text] is SQL supplied by the caller of [read] or [write]
      (and the noop_update pragma), opaque to the wrapper. *)
Inductive Stmt :=
| SqlBeginConcurrent
| SqlCommit
| SqlRollback
| SqlSchemaVersion
| SqlInsertJournal (table : string) (id : Z) (query hash : string)
| SqlTrimJournal (table : string) (maxJournalSize : Z)
| SqlMinId (table : string)
| SqlMaxId (table : string)
| SqlGetCommit (tables : list string) (id : Z)
| SqlGetCommits (tables : list string) (fromIndex toIndex : Z)
| SqlApp (sql : string).

#[global] Instance Stmt_eq_dec : EqDecision Stmt.
Proof. solve_decision. Defined.

(** What the engine calls back while it runs one statement. *)
Inductive Callback :=
| CbAuthorize (a : AuthAction)
| CbProgress.

(** The engine's answer to one statement, as far as the wrapper cannot
    compute it: the callbacks made on the way, the result code when no
    callback stops the statement, the rows of an application query, what
    it adds to [sqlite3_total_changes] and to the schema version, and
    whether a failure inside a transaction rolls the transaction back. *)
Record Response := {
  r_callbacks : list Callback;
  r_code : Z;
  r_rows : SQResult;
  r_changes : Z;
  r_schema : Z;
  r_autorollback : bool
}.

(** The engine handle [sqlite3*]: the journal tables as this handle sees
    them, the snapshot to restore on ROLLBACK ([None] in autocommit mode),
    the two counters [_writeIdempotent] compares, and the responses to
    come (an exhausted script answers [default_response]). *)
Record sqlite3 := {
  journals : gmap string (list JournalRow);
  txn : option (gmap string (list JournalRow));
  schema_version : Z;
  total_changes : Z;
  script : list Response
}.

Definition default_response : Response :=
  {| r_callbacks := []; r_code := SQLITE_OK; r_rows := [];
     r_changes := 0; r_schema := 0; r_autorollback := false |}.

(** Externally visible effects, oldest first. *)
Inductive Event :=
| EvQuery (sql : Stmt)
| EvCommitLock
| EvCommitUnlock
| EvTimerStart (tag : string)
| EvTimerStop
| EvNotify
| EvPassiveCheckpoint.

#[global] Instance Event_eq_dec : EqDecision Event.
Proof. solve_decision. Defined.

(** The rewrite handler, a function pointer taking the action code, the
    first detail string and a string by reference: it returns its verdict
    and the new contents of that string. *)
Definition RewriteHandler : Type := Z → option string → string → bool * string.

(** A prepared or committed transaction: (query, hash, dbCountAtStart). *)
Definition TransactionInfo : Type := string * string * Z.

(** The members of [SQLite] (SQLite.h is not among the sources; types are
    those the member functions show). *)
Record SQLite := {
  _filename : string;
  _maxJournalSize : Z;
  _journalNames : list string;
  _journalName : string;
  _journalSize : Z;
  _pageLoggingEnabled : bool;
  _cacheSize : Z;
  _synchronous : string;
  _mmapSizeGB : Z;
  _insideTransaction : bool;
  _uncommittedQuery : string;
  _uncommittedHash : string;
  _mutexLocked : bool;
  _autoRolledBack : bool;
  _abandonForCheckpoint : bool;
  _enableCheckpointInterrupt : bool;
  _noopUpdateMode : bool;
  _enableRewrite : bool;
  _currentlyRunningRewritten : bool;
  _rewrittenQuery : string;
  _rewriteHandler : option RewriteHandler;
  _isDeterministicQuery : bool;
  _queryCache : gmap string SQResult;
  _queryCount : Z;
  _cacheHits : Z;
  _dbCountAtStart : Z;
  _currentTransactionAttemptCount : Z;
  _beginElapsed : Z;
  _readElapsed : Z;
  _writeElapsed : Z;
  _prepareElapsed : Z;
  _commitElapsed : Z;
  _rollbackElapsed : Z;
  _timeoutLimit : Z;
  _timeoutStart : Z;
  _timeoutError : Z;
  whitelist : option (gmap string (gset string))
}.

(** [SQLite::SharedData], one per database file.  [commitLock] is [true]
    while the mutex is held. *)
Record SharedData := {
  commitCount : Z;
  lastCommittedHash : string;
  nextJournalCount : Z;
  currentTransactionCount : Z;
  _currentPageCount : Z;
  _checkpointThreadBusy : Z;
  commitLock : bool;
  _preparedTransactions : gmap Z TransactionInfo;
  _committedTransactions : gmap Z TransactionInfo
}.

(** What a member function runs on: its object, the shared data, the
    engine handle, the readings [STimeNow] will return (0 once exhausted),
    the static [_transactionAttemptCount], and the effects so far. *)
Record St := {
  conn : SQLite;
  shared : SharedData;
  db : sqlite3;
  clock : list Z;
  _transactionAttemptCount : Z;
  trace : list Event
}.

(** ** Field updates

    [set_x v c] is the object [c] after the assignment [_x = v]. *)

Definition set_journalSize v (c : SQLite) : SQLite :=
  Build_SQLite (_filename c) (_maxJournalSize c) (_journalNames c) (_journalName c) v
    (_pageLoggingEnabled c) (_cacheSize c) (_synchronous c) (_mmapSizeGB c)
    (_insideTransaction c) (_uncommittedQuery c) (_uncommittedHash c) (_mutexLocked c)
    (_autoRolledBack c) (_abandonForCheckpoint c) (_enableCheckpointInterrupt c)
    (_noopUpdateMode c) (_enableRewrite c) (_currentlyRunningRewritten c) (_rewrittenQuery c)
    (_rewriteHandler c) (_isDeterministicQuery c) (_queryCache c) (_queryCount c) (_cacheHits c)
    (_dbCountAtStart c) (_currentTransactionAttemptCount c) (_beginElapsed c) (_readElapsed c)
    (_writeElapsed c) (_prepareElapsed c) (_commitElapsed c) (_rollbackElapsed c)
    (_timeoutLimit c) (_timeoutStart c) (_timeoutError c) (whitelist c).

Definition set_insideTransaction v (c : SQLite) : SQLite :=
  Build_SQLite (_filename c) (_maxJournalSize c) (_journalNames c) (_journalName c)
    (_journalSize c) (_pageLoggingEnabled c) (_cacheSize c) (_synchronous c) (_mmapSizeGB c) v
    (_uncommittedQuery c) (_uncommittedHash c) (_mutexLocked c) (_autoRolledBack c)
    (_abandonForCheckpoint c) (_enableCheckpointInterrupt c) (_noopUpdateMode c)
    (_enableRewrite c) (_currentlyRunningRewritten c) (_rewrittenQuery c) (_rewriteHandler c)
    (_isDeterministicQuery c) (_queryCache c) (_queryCount c) (_cacheHits c) (_dbCountAtStart c)
    (_currentTransactionAttemptCount c) (_beginElapsed c) (_readElapsed c) (_writeElapsed c)
    (_prepareElapsed c) (_commitElapsed c) (_rollbackElapsed c) (_timeoutLimit c)
    (_timeoutStart c) (_timeoutError c) (whitelist c).

Definition set_uncommittedQuery v (c : SQLite) : SQLite :=
  Build_SQLite (_filename c) (_maxJournalSize c) (_journalNames c) (_journalName c)
    (_journalSize c) (_pageLoggingEnabled c) (_cacheSize c) (_synchronous c) (_mmapSizeGB c)
    (_insideTransaction c) v (_uncommittedHash c) (_mutexLocked c) (_autoRolledBack c)
    (_abandonForCheckpoint c) (_enableCheckpointInterrupt c) (_noopUpdateMode c)
    (_enableRewrite c) (_currentlyRunningRewritten c) (_rewrittenQuery c) (_rewriteHandler c)
    (_isDeterministicQuery c) (_queryCache c) (_queryCount c) (_cacheHits c) (_dbCountAtStart c)
    (_currentTransactionAttemptCount c) (_beginElapsed c) (_readElapsed c) (_writeElapsed c)
    (_prepareElapsed c) (_commitElapsed c) (_rollbackElapsed c) (_timeoutLimit c)
    (_timeoutStart c) (_timeoutError c) (whitelist c).

Definition set_uncommittedHash v (c : SQLite) : SQLite :=
  Build_SQLite (_filename c) (_maxJournalSize c) (_journalNames c) (_journalName c)
    (_journalSize c) (_pageLoggingEnabled c) (_cacheSize c) (_synchronous c) (_mmapSizeGB c)
    (_insideTransaction c) (_uncommittedQuery c) v (_mutexLocked c) (_autoRolledBack c)
    (_abandonForCheckpoint c) (_enableCheckpointInterrupt c) (_noopUpdateMode c)
    (_enableRewrite c) (_currentlyRunningRewritten c) (_rewrittenQuery c) (_rewriteHandler c)
    (_isDeterministicQuery c) (_queryCache c) (_queryCount c) (_cacheHits c) (_dbCountAtStart c)
    (_currentTransactionAttemptCount c) (_beginElapsed c) (_readElapsed c) (_writeElapsed c)
    (_prepareElapsed c) (_commitElapsed c) (_rollbackElapsed c) (_timeoutLimit c)
    (_timeoutStart c) (_timeoutError c) (whitelist c).

Definition set_mutexLocked v (c : SQLite) : SQLite :=
  Build_SQLite (_filename c) (_maxJournalSize c) (_journalNames c) (_journalName c)
    (_journalSize c) (_pageLoggingEnabled c) (_cacheSize c) (_synchronous c) (_mmapSizeGB c)
    (_insideTransaction c) (_uncommittedQuery c) (_uncommittedHash c) v (_autoRolledBack c)
    (_abandonForCheckpoint c) (_enableCheckpointInterrupt c) (_noopUpdateMode c)
    (_enableRewrite c) (_currentlyRunningRewritten c) (_rewrittenQuery c) (_rewriteHandler c)
    (_isDeterministicQuery c) (_queryCache c) (_queryCount c) (_cacheHits c) (_dbCountAtStart c)
    (_currentTransactionAttemptCount c) (_beginElapsed c) (_readElapsed c) (_writeElapsed c)
    (_prepareElapsed c) (_commitElapsed c) (_rollbackElapsed c) (_timeoutLimit c)
    (_timeoutStart c) (_timeoutError c) (whitelist c).

Definition set_autoRolledBack v (c : SQLite) : SQLite :=
  Build_SQLite (_filename c) (_maxJournalSize c) (_journalNames c) (_journalName c)
    (_journalSize c) (_pageLoggingEnabled c) (_cacheSize c) (_synchronous c) (_mmapSizeGB c)
    (_insideTransaction c) (_uncommittedQuery c) (_uncommittedHash c) (_mutexLocked c) v
    (_abandonForCheckpoint c) (_enableCheckpointInterrupt c) (_noopUpdateMode c)
    (_enableRewrite c) (_currentlyRunningRewritten c) (_rewrittenQuery c) (_rewriteHandler c)
    (_isDeterministicQuery c) (_queryCache c) (_queryCount c) (_cacheHits c) (_dbCountAtStart c)
    (_currentTransactionAttemptCount c) (_beginElapsed c) (_readElapsed c) (_writeElapsed c)
    (_prepareElapsed c) (_commitElapsed c) (_rollbackElapsed c) (_timeoutLimit c)
    (_timeoutStart c) (_timeoutError c) (whitelist c).

Definition set_abandonForCheckpoint v (c : SQLite) : SQLite :=
  Build_SQLite (_filename c) (_maxJournalSize c) (_journalNames c) (_journalName c)
    (_journalSize c) (_pageLoggingEnabled c) (_cacheSize c) (_synchronous c) (_mmapSizeGB c)
    (_insideTransaction c) (_uncommittedQuery c) (_uncommittedHash c) (_mutexLocked c)
    (_autoRolledBack c) v (_enableCheckpointInterrupt c) (_noopUpdateMode c) (_enableRewrite c)
    (_currentlyRunningRewritten c) (_rewrittenQuery c) (_rewriteHandler c)
    (_isDeterministicQuery c) (_queryCache c) (_queryCount c) (_cacheHits c) (_dbCountAtStart c)
    (_currentTransactionAttemptCount c) (_beginElapsed c) (_readElapsed c) (_writeElapsed c)
    (_prepareElapsed c) (_commitElapsed c) (_rollbackElapsed c) (_timeoutLimit c)
    (_timeoutStart c) (_timeoutError c) (whitelist c).

Definition set_enableCheckpointInterrupt v (c : SQLite) : SQLite :=
  Build_SQLite (_filename c) (_maxJournalSize c) (_journalNames c) (_journalName c)
    (_journalSize c) (_pageLoggingEnabled c) (_cacheSize c) (_synchronous c) (_mmapSizeGB c)
    (_insideTransaction c) (_uncommittedQuery c) (_uncommittedHash c) (_mutexLocked c)
    (_autoRolledBack c) (_abandonForCheckpoint c) v (_noopUpdateMode c) (_enableRewrite c)
    (_currentlyRunningRewritten c) (_rewrittenQuery c) (_rewriteHandler c)
    (_isDeterministicQuery c) (_queryCache c) (_queryCount c) (_cacheHits c) (_dbCountAtStart c)
    (_currentTransactionAttemptCount c) (_beginElapsed c) (_readElapsed c) (_writeElapsed c)
    (_prepareElapsed c) (_commitElapsed c) (_rollbackElapsed c) (_timeoutLimit c)
    (_timeoutStart c) (_timeoutError c) (whitelist c).

Definition set_noopUpdateMode v (c : SQLite) : SQLite :=
  Build_SQLite (_filename c) (_maxJournalSize c) (_journalNames c) (_journalName c)
    (_journalSize c) (_pageLoggingEnabled c) (_cacheSize c) (_synchronous c) (_mmapSizeGB c)
    (_insideTransaction c) (_uncommittedQuery c) (_uncommittedHash c) (_mutexLocked c)
    (_autoRolledBack c) (_abandonForCheckpoint c) (_enableCheckpointInterrupt c) v
    (_enableRewrite c) (_currentlyRunningRewritten c) (_rewrittenQuery c) (_rewriteHandler c)
    (_isDeterministicQuery c) (_queryCache c) (_queryCount c) (_cacheHits c) (_dbCountAtStart c)
    (_currentTransactionAttemptCount c) (_beginElapsed c) (_readElapsed c) (_writeElapsed c)
    (_prepareElapsed c) (_commitElapsed c) (_rollbackElapsed c) (_timeoutLimit c)
    (_timeoutStart c) (_timeoutError c) (whitelist c).

Definition set_currentlyRunningRewritten v (c : SQLite) : SQLite :=
  Build_SQLite (_filename c) (_maxJournalSize c) (_journalNames c) (_journalName c)
    (_journalSize c) (_pageLoggingEnabled c) (_cacheSize c) (_synchronous c) (_mmapSizeGB c)
    (_insideTransaction c) (_uncommittedQuery c) (_uncommittedHash c) (_mutexLocked c)
    (_autoRolledBack c) (_abandonForCheckpoint c) (_enableCheckpointInterrupt c)
    (_noopUpdateMode c) (_enableRewrite c) v (_rewrittenQuery c) (_rewriteHandler c)
    (_isDeterministicQuery c) (_queryCache c) (_queryCount c) (_cacheHits c) (_dbCountAtStart c)
    (_currentTransactionAttemptCount c) (_beginElapsed c) (_readElapsed c) (_writeElapsed c)
    (_prepareElapsed c) (_commitElapsed c) (_rollbackElapsed c) (_timeoutLimit c)
    (_timeoutStart c) (_timeoutError c) (whitelist c).

Definition set_rewrittenQuery v (c : SQLite) : SQLite :=
  Build_SQLite (_filename c) (_maxJournalSize c) (_journalNames c) (_journalName c)
    (_journalSize c) (_pageLoggingEnabled c) (_cacheSize c) (_synchronous c) (_mmapSizeGB c)
    (_insideTransaction c) (_uncommittedQuery c) (_uncommittedHash c) (_mutexLocked c)
    (_autoRolledBack c) (_abandonForCheckpoint c) (_enableCheckpointInterrupt c)
    (_noopUpdateMode c) (_enableRewrite c) (_currentlyRunningRewritten c) v (_rewriteHandler c)
    (_isDeterministicQuery c) (_queryCache c) (_queryCount c) (_cacheHits c) (_dbCountAtStart c)
    (_currentTransactionAttemptCount c) (_beginElapsed c) (_readElapsed c) (_writeElapsed c)
    (_prepareElapsed c) (_commitElapsed c) (_rollbackElapsed c) (_timeoutLimit c)
    (_timeoutStart c) (_timeoutError c) (whitelist c).

Definition set_isDeterministicQuery v (c : SQLite) : SQLite :=
  Build_SQLite (_filename c) (_maxJournalSize c) (_journalNames c) (_journalName c)
    (_journalSize c) (_pageLoggingEnabled c) (_cacheSize c) (_synchronous c) (_mmapSizeGB c)
    (_insideTransaction c) (_uncommittedQuery c) (_uncommittedHash c) (_mutexLocked c)
    (_autoRolledBack c) (_abandonForCheckpoint c) (_enableCheckpointInterrupt c)
    (_noopUpdateMode c) (_enableRewrite c) (_currentlyRunningRewritten c) (_rewrittenQuery c)
    (_rewriteHandler c) v (_queryCache c) (_queryCount c) (_cacheHits c) (_dbCountAtStart c)
    (_currentTransactionAttemptCount c) (_beginElapsed c) (_readElapsed c) (_writeElapsed c)
    (_prepareElapsed c) (_commitElapsed c) (_rollbackElapsed c) (_timeoutLimit c)
    (_timeoutStart c) (_timeoutError c) (whitelist c).

Definition set_queryCache v (c : SQLite) : SQLite :=
  Build_SQLite (_filename c) (_maxJournalSize c) (_journalNames c) (_journalName c)
    (_journalSize c) (_pageLoggingEnabled c) (_cacheSize c) (_synchronous c) (_mmapSizeGB c)
    (_insideTransaction c) (_uncommittedQuery c) (_uncommittedHash c) (_mutexLocked c)
    (_autoRolledBack c) (_abandonForCheckpoint c) (_enableCheckpointInterrupt c)
    (_noopUpdateMode c) (_enableRewrite c) (_currentlyRunningRewritten c) (_rewrittenQuery c)
    (_rewriteHandler c) (_isDeterministicQuery c) v (_queryCount c) (_cacheHits c)
    (_dbCountAtStart c) (_currentTransactionAttemptCount c) (_beginElapsed c) (_readElapsed c)
    (_writeElapsed c) (_prepareElapsed c) (_commitElapsed c) (_rollbackElapsed c)
    (_timeoutLimit c) (_timeoutStart c) (_timeoutError c) (whitelist c).

Definition set_queryCount v (c : SQLite) : SQLite :=
  Build_SQLite (_filename c) (_maxJournalSize c) (_journalNames c) (_journalName c)
    (_journalSize c) (_pageLoggingEnabled c) (_cacheSize c) (_synchronous c) (_mmapSizeGB c)
    (_insideTransaction c) (_uncommittedQuery c) (_uncommittedHash c) (_mutexLocked c)
    (_autoRolledBack c) (_abandonForCheckpoint c) (_enableCheckpointInterrupt c)
    (_noopUpdateMode c) (_enableRewrite c) (_currentlyRunningRewritten c) (_rewrittenQuery c)
    (_rewriteHandler c) (_isDeterministicQuery c) (_queryCache c) v (_cacheHits c)
    (_dbCountAtStart c) (_currentTransactionAttemptCount c) (_beginElapsed c) (_readElapsed c)
    (_writeElapsed c) (_prepareElapsed c) (_commitElapsed c) (_rollbackElapsed c)
    (_timeoutLimit c) (_timeoutStart c) (_timeoutError c) (whitelist c).

Definition set_cacheHits v (c : SQLite) : SQLite :=
  Build_SQLite (_filename c) (_maxJournalSize c) (_journalNames c) (_journalName c)
    (_journalSize c) (_pageLoggingEnabled c) (_cacheSize c) (_synchronous c) (_mmapSizeGB c)
    (_insideTransaction c) (_uncommittedQuery c) (_uncommittedHash c) (_mutexLocked c)
    (_autoRolledBack c) (_abandonForCheckpoint c) (_enableCheckpointInterrupt c)
    (_noopUpdateMode c) (_enableRewrite c) (_currentlyRunningRewritten c) (_rewrittenQuery c)
    (_rewriteHandler c) (_isDeterministicQuery c) (_queryCache c) (_queryCount c) v
    (_dbCountAtStart c) (_currentTransactionAttemptCount c) (_beginElapsed c) (_readElapsed c)
    (_writeElapsed c) (_prepareElapsed c) (_commitElapsed c) (_rollbackElapsed c)
    (_timeoutLimit c) (_timeoutStart c) (_timeoutError c) (whitelist c).

Definition set_dbCountAtStart v (c : SQLite) : SQLite :=
  Build_SQLite (_filename c) (_maxJournalSize c) (_journalNames c) (_journalName c)
    (_journalSize c) (_pageLoggingEnabled c) (_cacheSize c) (_synchronous c) (_mmapSizeGB c)
    (_insideTransaction c) (_uncommittedQuery c) (_uncommittedHash c) (_mutexLocked c)
    (_autoRolledBack c) (_abandonForCheckpoint c) (_enableCheckpointInterrupt c)
    (_noopUpdateMode c) (_enableRewrite c) (_currentlyRunningRewritten c) (_rewrittenQuery c)
    (_rewriteHandler c) (_isDeterministicQuery c) (_queryCache c) (_queryCount c) (_cacheHits c)
    v (_currentTransactionAttemptCount c) (_beginElapsed c) (_readElapsed c) (_writeElapsed c)
    (_prepareElapsed c) (_commitElapsed c) (_rollbackElapsed c) (_timeoutLimit c)
    (_timeoutStart c) (_timeoutError c) (whitelist c).

Definition set_currentTransactionAttemptCount v (c : SQLite) : SQLite :=
  Build_SQLite (_filename c) (_maxJournalSize c) (_journalNames c) (_journalName c)
    (_journalSize c) (_pageLoggingEnabled c) (_cacheSize c) (_synchronous c) (_mmapSizeGB c)
    (_insideTransaction c) (_uncommittedQuery c) (_uncommittedHash c) (_mutexLocked c)
    (_autoRolledBack c) (_abandonForCheckpoint c) (_enableCheckpointInterrupt c)
    (_noopUpdateMode c) (_enableRewrite c) (_currentlyRunningRewritten c) (_rewrittenQuery c)
    (_rewriteHandler c) (_isDeterministicQuery c) (_queryCache c) (_queryCount c) (_cacheHits c)
    (_dbCountAtStart c) v (_beginElapsed c) (_readElapsed c) (_writeElapsed c)
    (_prepareElapsed c) (_commitElapsed c) (_rollbackElapsed c) (_timeoutLimit c)
    (_timeoutStart c) (_timeoutError c) (whitelist c).

Definition set_beginElapsed v (c : SQLite) : SQLite :=
  Build_SQLite (_filename c) (_maxJournalSize c) (_journalNames c) (_journalName c)
    (_journalSize c) (_pageLoggingEnabled c) (_cacheSize c) (_synchronous c) (_mmapSizeGB c)
    (_insideTransaction c) (_uncommittedQuery c) (_uncommittedHash c) (_mutexLocked c)
    (_autoRolledBack c) (_abandonForCheckpoint c) (_enableCheckpointInterrupt c)
    (_noopUpdateMode c) (_enableRewrite c) (_currentlyRunningRewritten c) (_rewrittenQuery c)
    (_rewriteHandler c) (_isDeterministicQuery c) (_queryCache c) (_queryCount c) (_cacheHits c)
    (_dbCountAtStart c) (_currentTransactionAttemptCount c) v (_readElapsed c) (_writeElapsed c)
    (_prepareElapsed c) (_commitElapsed c) (_rollbackElapsed c) (_timeoutLimit c)
    (_timeoutStart c) (_timeoutError c) (whitelist c).

Definition set_readElapsed v (c : SQLite) : SQLite :=
  Build_SQLite (_filename c) (_maxJournalSize c) (_journalNames c) (_journalName c)
    (_journalSize c) (_pageLoggingEnabled c) (_cacheSize c) (_synchronous c) (_mmapSizeGB c)
    (_insideTransaction c) (_uncommittedQuery c) (_uncommittedHash c) (_mutexLocked c)
    (_autoRolledBack c) (_abandonForCheckpoint c) (_enableCheckpointInterrupt c)
    (_noopUpdateMode c) (_enableRewrite c) (_currentlyRunningRewritten c) (_rewrittenQuery c)
    (_rewriteHandler c) (_isDeterministicQuery c) (_queryCache c) (_queryCount c) (_cacheHits c)
    (_dbCountAtStart c) (_currentTransactionAttemptCount c) (_beginElapsed c) v
    (_writeElapsed c) (_prepareElapsed c) (_commitElapsed c) (_rollbackElapsed c)
    (_timeoutLimit c) (_timeoutStart c) (_timeoutError c) (whitelist c).

Definition set_writeElapsed v (c : SQLite) : SQLite :=
  Build_SQLite (_filename c) (_maxJournalSize c) (_journalNames c) (_journalName c)
    (_journalSize c) (_pageLoggingEnabled c) (_cacheSize c) (_synchronous c) (_mmapSizeGB c)
    (_insideTransaction c) (_uncommittedQuery c) (_uncommittedHash c) (_mutexLocked c)
    (_autoRolledBack c) (_abandonForCheckpoint c) (_enableCheckpointInterrupt c)
    (_noopUpdateMode c) (_enableRewrite c) (_currentlyRunningRewritten c) (_rewrittenQuery c)
    (_rewriteHandler c) (_isDeterministicQuery c) (_queryCache c) (_queryCount c) (_cacheHits c)
    (_dbCountAtStart c) (_currentTransactionAttemptCount c) (_beginElapsed c) (_readElapsed c) v
    (_prepareElapsed c) (_commitElapsed c) (_rollbackElapsed c) (_timeoutLimit c)
    (_timeoutStart c) (_timeoutError c) (whitelist c).

Definition set_prepareElapsed v (c : SQLite) : SQLite :=
  Build_SQLite (_filename c) (_maxJournalSize c) (_journalNames c) (_journalName c)
    (_journalSize c) (_pageLoggingEnabled c) (_cacheSize c) (_synchronous c) (_mmapSizeGB c)
    (_insideTransaction c) (_uncommittedQuery c) (_uncommittedHash c) (_mutexLocked c)
    (_autoRolledBack c) (_abandonForCheckpoint c) (_enableCheckpointInterrupt c)
    (_noopUpdateMode c) (_enableRewrite c) (_currentlyRunningRewritten c) (_rewrittenQuery c)
    (_rewriteHandler c) (_isDeterministicQuery c) (_queryCache c) (_queryCount c) (_cacheHits c)
    (_dbCountAtStart c) (_currentTransactionAttemptCount c) (_beginElapsed c) (_readElapsed c)
    (_writeElapsed c) v (_commitElapsed c) (_rollbackElapsed c) (_timeoutLimit c)
    (_timeoutStart c) (_timeoutError c) (whitelist c).

Definition set_commitElapsed v (c : SQLite) : SQLite :=
  Build_SQLite (_filename c) (_maxJournalSize c) (_journalNames c) (_journalName c)
    (_journalSize c) (_pageLoggingEnabled c) (_cacheSize c) (_synchronous c) (_mmapSizeGB c)
    (_insideTransaction c) (_uncommittedQuery c) (_uncommittedHash c) (_mutexLocked c)
    (_autoRolledBack c) (_abandonForCheckpoint c) (_enableCheckpointInterrupt c)
    (_noopUpdateMode c) (_enableRewrite c) (_currentlyRunningRewritten c) (_rewrittenQuery c)
    (_rewriteHandler c) (_isDeterministicQuery c) (_queryCache c) (_queryCount c) (_cacheHits c)
    (_dbCountAtStart c) (_currentTransactionAttemptCount c) (_beginElapsed c) (_readElapsed c)
    (_writeElapsed c) (_prepareElapsed c) v (_rollbackElapsed c) (_timeoutLimit c)
    (_timeoutStart c) (_timeoutError c) (whitelist c).

Definition set_rollbackElapsed v (c : SQLite) : SQLite :=
  Build_SQLite (_filename c) (_maxJournalSize c) (_journalNames c) (_journalName c)
    (_journalSize c) (_pageLoggingEnabled c) (_cacheSize c) (_synchronous c) (_mmapSizeGB c)
    (_insideTransaction c) (_uncommittedQuery c) (_uncommittedHash c) (_mutexLocked c)
    (_autoRolledBack c) (_abandonForCheckpoint c) (_enableCheckpointInterrupt c)
    (_noopUpdateMode c) (_enableRewrite c) (_currentlyRunningRewritten c) (_rewrittenQuery c)
    (_rewriteHandler c) (_isDeterministicQuery c) (_queryCache c) (_queryCount c) (_cacheHits c)
    (_dbCountAtStart c) (_currentTransactionAttemptCount c) (_beginElapsed c) (_readElapsed c)
    (_writeElapsed c) (_prepareElapsed c) (_commitElapsed c) v (_timeoutLimit c)
    (_timeoutStart c) (_timeoutError c) (whitelist c).

Definition set_timeoutLimit v (c : SQLite) : SQLite :=
  Build_SQLite (_filename c) (_maxJournalSize c) (_journalNames c) (_journalName c)
    (_journalSize c) (_pageLoggingEnabled c) (_cacheSize c) (_synchronous c) (_mmapSizeGB c)
    (_insideTransaction c) (_uncommittedQuery c) (_uncommittedHash c) (_mutexLocked c)
    (_autoRolledBack c) (_abandonForCheckpoint c) (_enableCheckpointInterrupt c)
    (_noopUpdateMode c) (_enableRewrite c) (_currentlyRunningRewritten c) (_rewrittenQuery c)
    (_rewriteHandler c) (_isDeterministicQuery c) (_queryCache c) (_queryCount c) (_cacheHits c)
    (_dbCountAtStart c) (_currentTransactionAttemptCount c) (_beginElapsed c) (_readElapsed c)
    (_writeElapsed c) (_prepareElapsed c) (_commitElapsed c) (_rollbackElapsed c) v
    (_timeoutStart c) (_timeoutError c) (whitelist c).

Definition set_timeoutStart v (c : SQLite) : SQLite :=
  Build_SQLite (_filename c) (_maxJournalSize c) (_journalNames c) (_journalName c)
    (_journalSize c) (_pageLoggingEnabled c) (_cacheSize c) (_synchronous c) (_mmapSizeGB c)
    (_insideTransaction c) (_uncommittedQuery c) (_uncommittedHash c) (_mutexLocked c)
    (_autoRolledBack c) (_abandonForCheckpoint c) (_enableCheckpointInterrupt c)
    (_noopUpdateMode c) (_enableRewrite c) (_currentlyRunningRewritten c) (_rewrittenQuery c)
    (_rewriteHandler c) (_isDeterministicQuery c) (_queryCache c) (_queryCount c) (_cacheHits c)
    (_dbCountAtStart c) (_currentTransactionAttemptCount c) (_beginElapsed c) (_readElapsed c)
    (_writeElapsed c) (_prepareElapsed c) (_commitElapsed c) (_rollbackElapsed c)
    (_timeoutLimit c) v (_timeoutError c) (whitelist c).

Definition set_timeoutError v (c : SQLite) : SQLite :=
  Build_SQLite (_filename c) (_maxJournalSize c) (_journalNames c) (_journalName c)
    (_journalSize c) (_pageLoggingEnabled c) (_cacheSize c) (_synchronous c) (_mmapSizeGB c)
    (_insideTransaction c) (_uncommittedQuery c) (_uncommittedHash c) (_mutexLocked c)
    (_autoRolledBack c) (_abandonForCheckpoint c) (_enableCheckpointInterrupt c)
    (_noopUpdateMode c) (_enableRewrite c) (_currentlyRunningRewritten c) (_rewrittenQuery c)
    (_rewriteHandler c) (_isDeterministicQuery c) (_queryCache c) (_queryCount c) (_cacheHits c)
    (_dbCountAtStart c) (_currentTransactionAttemptCount c) (_beginElapsed c) (_readElapsed c)
    (_writeElapsed c) (_prepareElapsed c) (_commitElapsed c) (_rollbackElapsed c)
    (_timeoutLimit c) (_timeoutStart c) v (whitelist c).

Definition set_enableRewrite v (c : SQLite) : SQLite :=
  Build_SQLite (_filename c) (_maxJournalSize c) (_journalNames c) (_journalName c)
    (_journalSize c) (_pageLoggingEnabled c) (_cacheSize c) (_synchronous c) (_mmapSizeGB c)
    (_insideTransaction c) (_uncommittedQuery c) (_uncommittedHash c) (_mutexLocked c)
    (_autoRolledBack c) (_abandonForCheckpoint c) (_enableCheckpointInterrupt c)
    (_noopUpdateMode c) v (_currentlyRunningRewritten c) (_rewrittenQuery c) (_rewriteHandler c)
    (_isDeterministicQuery c) (_queryCache c) (_queryCount c) (_cacheHits c) (_dbCountAtStart c)
    (_currentTransactionAttemptCount c) (_beginElapsed c) (_readElapsed c) (_writeElapsed c)
    (_prepareElapsed c) (_commitElapsed c) (_rollbackElapsed c) (_timeoutLimit c)
    (_timeoutStart c) (_timeoutError c) (whitelist c).

Definition set_rewriteHandler v (c : SQLite) : SQLite :=
  Build_SQLite (_filename c) (_maxJournalSize c) (_journalNames c) (_journalName c)
    (_journalSize c) (_pageLoggingEnabled c) (_cacheSize c) (_synchronous c) (_mmapSizeGB c)
    (_insideTransaction c) (_uncommittedQuery c) (_uncommittedHash c) (_mutexLocked c)
    (_autoRolledBack c) (_abandonForCheckpoint c) (_enableCheckpointInterrupt c)
    (_noopUpdateMode c) (_enableRewrite c) (_currentlyRunningRewritten c) (_rewrittenQuery c) v
    (_isDeterministicQuery c) (_queryCache c) (_queryCount c) (_cacheHits c) (_dbCountAtStart c)
    (_currentTransactionAttemptCount c) (_beginElapsed c) (_readElapsed c) (_writeElapsed c)
    (_prepareElapsed c) (_commitElapsed c) (_rollbackElapsed c) (_timeoutLimit c)
    (_timeoutStart c) (_timeoutError c) (whitelist c).

Definition set_whitelist v (c : SQLite) : SQLite :=
  Build_SQLite (_filename c) (_maxJournalSize c) (_journalNames c) (_journalName c)
    (_journalSize c) (_pageLoggingEnabled c) (_cacheSize c) (_synchronous c) (_mmapSizeGB c)
    (_insideTransaction c) (_uncommittedQuery c) (_uncommittedHash c) (_mutexLocked c)
    (_autoRolledBack c) (_abandonForCheckpoint c) (_enableCheckpointInterrupt c)
    (_noopUpdateMode c) (_enableRewrite c) (_currentlyRunningRewritten c) (_rewrittenQuery c)
    (_rewriteHandler c) (_isDeterministicQuery c) (_queryCache c) (_queryCount c) (_cacheHits c)
    (_dbCountAtStart c) (_currentTransactionAttemptCount c) (_beginElapsed c) (_readElapsed c)
    (_writeElapsed c) (_prepareElapsed c) (_commitElapsed c) (_rollbackElapsed c)
    (_timeoutLimit c) (_timeoutStart c) (_timeoutError c) v.

Definition set_commitCount v (d : SharedData) : SharedData :=
  Build_SharedData v (lastCommittedHash d) (nextJournalCount d) (currentTransactionCount d)
    (_currentPageCount d) (_checkpointThreadBusy d) (commitLock d) (_preparedTransactions d)
    (_committedTransactions d).

Definition set_lastCommittedHash v (d : SharedData) : SharedData :=
  Build_SharedData (commitCount d) v (nextJournalCount d) (currentTransactionCount d)
    (_currentPageCount d) (_checkpointThreadBusy d) (commitLock d) (_preparedTransactions d)
    (_committedTransactions d).

Definition set_nextJournalCount v (d : SharedData) : SharedData :=
  Build_SharedData (commitCount d) (lastCommittedHash d) v (currentTransactionCount d)
    (_currentPageCount d) (_checkpointThreadBusy d) (commitLock d) (_preparedTransactions d)
    (_committedTransactions d).

Definition set_currentTransactionCount v (d : SharedData) : SharedData :=
  Build_SharedData (commitCount d) (lastCommittedHash d) (nextJournalCount d) v
    (_currentPageCount d) (_checkpointThreadBusy d) (commitLock d) (_preparedTransactions d)
    (_committedTransactions d).

Definition set_currentPageCount v (d : SharedData) : SharedData :=
  Build_SharedData (commitCount d) (lastCommittedHash d) (nextJournalCount d)
    (currentTransactionCount d) v (_checkpointThreadBusy d) (commitLock d)
    (_preparedTransactions d) (_committedTransactions d).

Definition set_checkpointThreadBusy v (d : SharedData) : SharedData :=
  Build_SharedData (commitCount d) (lastCommittedHash d) (nextJournalCount d)
    (currentTransactionCount d) (_currentPageCount d) v (commitLock d) (_preparedTransactions d)
    (_committedTransactions d).

Definition set_commitLock v (d : SharedData) : SharedData :=
  Build_SharedData (commitCount d) (lastCommittedHash d) (nextJournalCount d)
    (currentTransactionCount d) (_currentPageCount d) (_checkpointThreadBusy d) v
    (_preparedTransactions d) (_committedTransactions d).

Definition set_preparedTransactions v (d : SharedData) : SharedData :=
  Build_SharedData (commitCount d) (lastCommittedHash d) (nextJournalCount d)
    (currentTransactionCount d) (_currentPageCount d) (_checkpointThreadBusy d) (commitLock d) v
    (_committedTransactions d).

Definition set_committedTransactions v (d : SharedData) : SharedData :=
  Build_SharedData (commitCount d) (lastCommittedHash d) (nextJournalCount d)
    (currentTransactionCount d) (_currentPageCount d) (_checkpointThreadBusy d) (commitLock d)
    (_preparedTransactions d) v.

Definition set_journals v (e : sqlite3) : sqlite3 :=
  Build_sqlite3 v (txn e) (schema_version e) (total_changes e) (script e).

Definition set_txn v (e : sqlite3) : sqlite3 :=
  Build_sqlite3 (journals e) v (schema_version e) (total_changes e) (script e).

Definition set_schema_version v (e : sqlite3) : sqlite3 :=
  Build_sqlite3 (journals e) (txn e) v (total_changes e) (script e).

Definition set_total_changes v (e : sqlite3) : sqlite3 :=
  Build_sqlite3 (journals e) (txn e) (schema_version e) v (script e).

Definition set_script v (e : sqlite3) : sqlite3 :=
  Build_sqlite3 (journals e) (txn e) (schema_version e) (total_changes e) v.

Definition set_conn v (s : St) : St :=
  Build_St v (shared s) (db s) (clock s) (_transactionAttemptCount s) (trace s).

Definition set_shared v (s : St) : St :=
  Build_St (conn s) v (db s) (clock s) (_transactionAttemptCount s) (trace s).

Definition set_db v (s : St) : St :=
  Build_St (conn s) (shared s) v (clock s) (_transactionAttemptCount s) (trace s).

Definition set_clock v (s : St) : St :=
  Build_St (conn s) (shared s) (db s) v (_transactionAttemptCount s) (trace s).

Definition set_transactionAttemptCount v (s : St) : St :=
  Build_St (conn s) (shared s) (db s) (clock s) v (trace s).

Definition set_trace v (s : St) : St :=
  Build_St (conn s) (shared s) (db s) (clock s) (_transactionAttemptCount s) v.

(** ** The monad of member functions *)

Inductive Exception :=
| timeout_error (what : string) (time : Z)
| checkpoint_required_error.

(** How a call ends: it returns, it throws, the process aborts ([SASSERT],
    [SERROR], undefined behaviour), or the thread waits on a held mutex. *)
Inductive Outcome (A : Type) : Type :=
| Ok (a : A) (s : St)
| Throw (e : Exception) (s : St)
| Abort
| Blocked.

Arguments Ok {A} a s.
Arguments Throw {A} e s.
Arguments Abort {A}.
Arguments Blocked {A}.

Definition M (A : Type) : Type := St → Outcome A.

#[global] Instance M_ret : MRet M := λ A a s, Ok a s.

#[global] Instance M_bind : MBind M := λ A B f m s,
  match m s with
  | Ok a s' => f a s'
  | Throw e s' => Throw e s'
  | Abort => Abort
  | Blocked => Blocked
  end.

Definition getConn : M SQLite := λ s, Ok (conn s) s.
Definition setConn (f : SQLite → SQLite) : M unit := λ s, Ok () (set_conn (f (conn s)) s).
Definition getShared : M SharedData := λ s, Ok (shared s) s.
Definition setShared (f : SharedData → SharedData) : M unit :=
  λ s, Ok () (set_shared (f (shared s)) s).
Definition getDb : M sqlite3 := λ s, Ok (db s) s.
Definition setDb (f : sqlite3 → sqlite3) : M unit := λ s, Ok () (set_db (f (db s)) s).
Definition emit (e : Event) : M unit := λ s, Ok () (set_trace (trace s ++ [e]) s).
Definition throw {A} (e : Exception) : M A := λ s, Throw e s.
Definition SASSERT (b : bool) : M unit := λ s, if b then Ok () s else Abort.
Definition when (b : bool) (m : M unit) : M unit := if b then m else mret ().

(** [STimeNow ()]: the next reading of the clock. *)
Definition STimeNow : M Z := λ s,
  Ok (default 0 (head (clock s))) (set_clock (tail (clock s)) s).

(** [_transactionAttemptCount.fetch_add (1)] on the static counter. *)
Definition transactionAttemptCount_fetch_add : M Z := λ s,
  Ok (_transactionAttemptCount s)
     (set_transactionAttemptCount (i64 (_transactionAttemptCount s + 1)) s).

(** [_sharedData.commitLock.lock ()] and [unlock ()]. *)
Definition commitLock_lock : M unit := λ s,
  if commitLock (shared s) then Blocked
  else Ok () (set_trace (trace s ++ [EvCommitLock])
                (set_shared (set_commitLock true (shared s)) s)).

Definition commitLock_unlock : M unit :=
  setShared (set_commitLock false);; emit EvCommitUnlock.

(** ** The engine, as the wrapper observes it *)

Definition min_id (rows : list JournalRow) : option Z :=
  match rows with
  | [] => None
  | r :: rest => Some (foldr Z.min (row_id r) (row_id <$> rest))
  end.

Definition max_id (rows : list JournalRow) : option Z :=
  match rows with
  | [] => None
  | r :: rest => Some (foldr Z.max (row_id r) (row_id <$> rest))
  end.

(** An aggregate over an empty table is NULL, which [SQuery] hands over as
    the empty string. *)
Definition render_aggregate (o : option Z) : string := from_option render_int "" o.

(** DELETE ... WHERE id < bound LIMIT limit: the first [limit] rows under
    the bound go. *)
Fixpoint trim_rows (limit : nat) (bound : Z) (rows : list JournalRow) : list JournalRow :=
  match rows with
  | [] => []
  | r :: rest =>
      match limit with
      | O => r :: rest
      | S n => if row_id r <? bound then trim_rows n bound rest
               else r :: trim_rows limit bound rest
      end
  end.

(** The UNION of "SELECT query, hash FROM t WHERE id = i" over the tables
    [names]: the distinct (query, hash) rows, listed by table ([None] when
    a table is missing).  SQLite promises no order for a UNION. *)
Definition select_commit (tabs : gmap string (list JournalRow)) (names : list string)
    (id : Z) : option SQResult :=
  tables ← mapM (λ n, tabs !! n) names;
  Some (remove_dups ((λ r, [row_query r; row_hash r]) <$>
                       filter (λ r, row_id r = id) (concat tables))).

(** ORDER BY id. *)
Definition id_le (a b : JournalRow) : Prop := row_id a ≤ row_id b.

#[global] Instance id_le_dec : RelDecision id_le.
Proof. intros a b. unfold id_le. apply _. Defined.

(** The rows [SqlGetCommits] selects: the distinct (id, hash, query) rows
    of the tables [names] in the range, in the order of their ids, reduced
    to (hash, query). *)
Definition select_commits (tabs : gmap string (list JournalRow)) (names : list string)
    (fromIndex toIndex : Z) : option SQResult :=
  tables ← mapM (λ n, tabs !! n) names;
  Some ((λ r, [row_hash r; row_query r]) <$>
          merge_sort id_le
            (remove_dups
               (filter (λ r, fromIndex ≤ row_id r ∧ (toIndex = 0 ∨ row_id r ≤ toIndex))
                  (concat tables)))).

(** ROLLBACK, also when the engine rolls back by itself. *)
Definition engine_rollback (e : sqlite3) : sqlite3 :=
  match txn e with
  | Some snapshot => set_txn None (set_journals snapshot e)
  | None => e
  end.

(** A statement that no callback stopped and that the response lets
    succeed.  When the authorizer answered IGNORE the engine reads NULL
    for the ignored columns, so the rows of a SELECT are the response's. *)
Definition engine_exec (q : Stmt) (r : Response) (ignored : bool) (e : sqlite3)
    : Z * SQResult * sqlite3 :=
  let selected (rows : SQResult) := if ignored then r_rows r else rows in
  match q with
  | SqlBeginConcurrent =>
      match txn e with
      | Some _ => (SQLITE_ERROR, [], e)
      | None => (SQLITE_OK, [], set_txn (Some (journals e)) e)
      end
  | SqlCommit =>
      match txn e with
      | Some _ => (SQLITE_OK, [], set_txn None e)
      | None => (SQLITE_ERROR, [], e)
      end
  | SqlRollback =>
      match txn e with
      | Some _ => (SQLITE_OK, [], engine_rollback e)
      | None => (SQLITE_ERROR, [], e)
      end
  | SqlSchemaVersion => (SQLITE_OK, selected [[render_int (schema_version e)]], e)
  | SqlInsertJournal t i query hash =>
      match journals e !! t with
      | None => (SQLITE_ERROR, [], e)
      | Some rows =>
          if bool_decide (i ∈ row_id <$> rows) then (SQLITE_CONSTRAINT, [], e)
          else
            let row := {| row_id := i; row_query := query; row_hash := hash |} in
            (SQLITE_OK, [],
             set_total_changes (total_changes e + 1)
               (set_journals (<[t := rows ++ [row]]> (journals e)) e))
      end
  | SqlTrimJournal t m =>
      match journals e !! t with
      | None => (SQLITE_ERROR, [], e)
      | Some rows =>
          let kept := match max_id rows with
                      | Some top => trim_rows 10 (top - m) rows
                      | None => rows
                      end in
          (SQLITE_OK, [],
           set_total_changes (total_changes e + Z.of_nat (length rows - length kept))
             (set_journals (<[t := kept]> (journals e)) e))
      end
  | SqlMinId t =>
      match journals e !! t with
      | None => (SQLITE_ERROR, [], e)
      | Some rows => (SQLITE_OK, selected [[render_aggregate (min_id rows)]], e)
      end
  | SqlMaxId t =>
      match journals e !! t with
      | None => (SQLITE_ERROR, [], e)
      | Some rows => (SQLITE_OK, selected [[render_aggregate (max_id rows)]], e)
      end
  | SqlGetCommit names i =>
      match select_commit (journals e) names i with
      | None => (SQLITE_ERROR, [], e)
      | Some rows => (SQLITE_OK, selected rows, e)
      end
  | SqlGetCommits names fromIndex toIndex =>
      match select_commits (journals e) names fromIndex toIndex with
      | None => (SQLITE_ERROR, [], e)
      | Some rows => (SQLITE_OK, selected rows, e)
      end
  | SqlApp _ =>
      (SQLITE_OK, r_rows r,
       set_total_changes (total_changes e + r_changes r)
         (set_schema_version (schema_version e + r_schema r) e))
  end.

(** [sqlite3_get_autocommit]. *)
Definition sqlite3_get_autocommit (e : sqlite3) : bool :=
  match txn e with None => true | Some _ => false end.

(** ** Callbacks *)

(** The action codes of the first case group of the switch in [_authorize]. *)
Definition disallowed_actions : list Z :=
  [SQLITE_CREATE_INDEX; SQLITE_CREATE_TABLE; SQLITE_CREATE_TEMP_INDEX;
   SQLITE_CREATE_TEMP_TABLE; SQLITE_CREATE_TEMP_TRIGGER; SQLITE_CREATE_TEMP_VIEW;
   SQLITE_CREATE_TRIGGER; SQLITE_CREATE_VIEW; SQLITE_DELETE; SQLITE_DROP_INDEX;
   SQLITE_DROP_TABLE; SQLITE_DROP_TEMP_INDEX; SQLITE_DROP_TEMP_TABLE;
   SQLITE_DROP_TEMP_TRIGGER; SQLITE_DROP_TEMP_VIEW; SQLITE_DROP_TRIGGER;
   SQLITE_DROP_VIEW; SQLITE_INSERT; SQLITE_TRANSACTION; SQLITE_UPDATE; SQLITE_ATTACH;
   SQLITE_DETACH; SQLITE_ALTER_TABLE; SQLITE_REINDEX; SQLITE_CREATE_VTABLE;
   SQLITE_DROP_VTABLE; SQLITE_SAVEPOINT; SQLITE_COPY; SQLITE_RECURSIVE].

(** The second case group. *)
Definition allowed_actions : list Z := [SQLITE_SELECT; SQLITE_ANALYZE; SQLITE_FUNCTION].

(** [SQLite::_authorize].  [None] is undefined behaviour: a null rewrite
    handler is called, or a null detail becomes a [std::string]. *)
Definition _authorize (a : AuthAction) (c : SQLite) : option (Z * SQLite) :=
  '(rewrite, c) ←
    (if _enableRewrite c && negb (_currentlyRunningRewritten c) then
       handler ← _rewriteHandler c;
       let '(verdict, rewritten) := handler (actionCode a) (detail1 a) (_rewrittenQuery c) in
       Some (verdict, set_rewrittenQuery rewritten c)
     else Some (false, c));
  if (rewrite : bool) then Some (SQLITE_DENY, c)
  else
    let c :=
      match detail2 a with
      | Some name =>
          if (actionCode a =? SQLITE_FUNCTION) &&
             (String.eqb name "random" ||
              String.eqb name "date" ||
              String.eqb name "time" ||
              String.eqb name "datetime" ||
              String.eqb name "julianday" ||
              String.eqb name "strftime" ||
              String.eqb name "changes" ||
              String.eqb name "last_insert_rowid" ||
              String.eqb name "sqlite3_version")
          then set_isDeterministicQuery false c
          else c
      | None => c
      end in
    match whitelist c with
    | None => Some (SQLITE_OK, c)
    | Some allowed =>
        if bool_decide (actionCode a ∈ disallowed_actions) then Some (SQLITE_DENY, c)
        else if bool_decide (actionCode a ∈ allowed_actions) then Some (SQLITE_OK, c)
        else if actionCode a =? SQLITE_PRAGMA then
          normalizedTable ← SToLower <$> detail1 a;
          if String.eqb normalizedTable "schema_version" &&
             bool_decide (detail2 a = None)
          then Some (SQLITE_OK, c)
          else Some (SQLITE_DENY, c)
        else if actionCode a =? SQLITE_READ then
          table ← detail1 a;
          match allowed !! table with
          | Some columns =>
              column ← detail2 a;
              if bool_decide (column ∈ columns) then Some (SQLITE_OK, c)
              else Some (SQLITE_IGNORE, c)
          | None => Some (SQLITE_IGNORE, c)
          end
        else Some (SQLITE_DENY, c)
    end.

(** [SQLite::_sqliteAuthorizerCallback]. *)
Definition _sqliteAuthorizerCallback (a : AuthAction) : M Z := λ s,
  match _authorize a (conn s) with
  | Some (rc, c) => Ok rc (set_conn c s)
  | None => Abort
  end.

(** [SQLite::_progressHandlerCallback]. *)
Definition _progressHandlerCallback : M Z :=
  now ← STimeNow;
  sqlite ← getConn;
  if negb (_timeoutLimit sqlite =? 0) && (_timeoutLimit sqlite <? now) then
    setConn (set_timeoutError (u64 (now - _timeoutStart sqlite)));;
    mret 1
  else
    sharedData ← getShared;
    if negb (_checkpointThreadBusy sharedData =? 0) then
      if _enableCheckpointInterrupt sqlite then
        setConn (set_abandonForCheckpoint true);;
        mret 2
      else mret 0
    else mret 0.

(** How the callbacks of one statement end. *)
Inductive Verdict :=
| Completed (ignored : bool)
| Denied
| Interrupted.

(** The engine makes its callbacks in order; a DENY from the authorizer or
    a non-zero return of the progress handler stops the statement. *)
Fixpoint run_callbacks (cbs : list Callback) (ignored : bool) : M Verdict :=
  match cbs with
  | [] => mret (Completed ignored)
  | CbAuthorize a :: rest =>
      rc ← _sqliteAuthorizerCallback a;
      if rc =? SQLITE_OK then run_callbacks rest ignored
      else if rc =? SQLITE_IGNORE then run_callbacks rest true
      else mret Denied
  | CbProgress :: rest =>
      rc ← _progressHandlerCallback;
      if rc =? 0 then run_callbacks rest ignored else mret Interrupted
  end.

Definition next_response : M Response := λ s,
  Ok (default default_response (head (script (db s))))
     (set_db (set_script (tail (script (db s))) (db s)) s).

(** [SQuery (_db, description, sql, result)]: one round trip to the engine,
    returning the result code and the rows. *)
Definition SQuery (sql : Stmt) : M (Z * SQResult) :=
  r ← next_response;
  emit (EvQuery sql);;
  verdict ← run_callbacks (r_callbacks r) false;
  match verdict with
  | Denied => mret (SQLITE_AUTH, [])
  | Interrupted =>
      when (r_autorollback r) (setDb engine_rollback);;
      mret (SQLITE_INTERRUPT, [])
  | Completed ignored =>
      if r_code r =? SQLITE_OK then
        e ← getDb;
        let '(code, rows, e) := engine_exec sql r ignored e in
        setDb (λ _, e);;
        mret (code, rows)
      else
        when (r_autorollback r) (setDb engine_rollback);;
        mret (r_code r, [])
  end.

(** ** SharedData *)

(** [int] arithmetic of the atomic transaction counter. *)
Definition i32 (z : Z) : Z := (z + 2 ^ 31) mod 2 ^ 32 - 2 ^ 31.

(** [SharedData::prepareTransactionInfo]: [insert_or_assign]. *)
Definition prepareTransactionInfo (commitID : Z) (query hash : string)
    (dbCountAtTransactionStart : Z) (d : SharedData) : SharedData :=
  set_preparedTransactions
    (<[commitID := (query, hash, dbCountAtTransactionStart)]> (_preparedTransactions d)) d.

(** [SharedData::commitTransactionInfo]: the node extracted from the
    prepared map is inserted into the committed map; [std::map::insert]
    keeps an entry that is already there, and an empty node inserts
    nothing. *)
Definition commitTransactionInfo (commitID : Z) (d : SharedData) : SharedData :=
  match _preparedTransactions d !! commitID with
  | None => d
  | Some info =>
      let committed :=
        match _committedTransactions d !! commitID with
        | Some _ => _committedTransactions d
        | None => <[commitID := info]> (_committedTransactions d)
        end in
      set_committedTransactions committed
        (set_preparedTransactions (delete commitID (_preparedTransactions d)) d)
  end.

(** [SharedData::incrementCommit]. *)
Definition incrementCommit (commitHash : string) (d : SharedData) : SharedData :=
  let d := set_commitCount (u64 (commitCount d + 1)) d in
  let d := commitTransactionInfo (commitCount d) d in
  set_lastCommittedHash commitHash d.

(** [SharedData::popCommittedTransactions]. *)
Definition SharedData_popCommittedTransactions (d : SharedData)
    : gmap Z TransactionInfo * SharedData :=
  (_committedTransactions d, set_committedTransactions ∅ d).

(** ** Member functions of SQLite *)

Definition fetch (result : SQResult) (i j : nat) : M string := λ s,
  match cell result i j with
  | Some v => Ok v s
  | None => Abort
  end.

Definition isEmpty (s : string) : bool := bool_decide (s = "").

(** [std::map::emplace]: an existing entry stays. *)
Definition emplace (key : string) (value : SQResult) (m : gmap string SQResult)
    : gmap string SQResult :=
  match m !! key with
  | Some _ => m
  | None => <[key := value]> m
  end.

(** [SQLite::resetTiming]. *)
Definition resetTiming : M unit :=
  setConn (set_timeoutLimit 0);;
  setConn (set_timeoutStart 0);;
  setConn (set_timeoutError 0).

(** [SQLite::startTiming]. *)
Definition startTiming (timeLimitUS : Z) : M unit :=
  now ← STimeNow;
  setConn (set_timeoutStart now);;
  setConn (set_timeoutLimit (u64 (now + timeLimitUS)));;
  setConn (set_timeoutError 0).

(** [SQLite::_checkInterruptErrors]. *)
Definition _checkInterruptErrors (error : string) : M unit :=
  c ← getConn;
  '(errorCode, time) ←
    (if negb (_timeoutLimit c =? 0) then
       now ← STimeNow;
       when (_timeoutLimit c <? now)
         (setConn (set_timeoutError (u64 (now - _timeoutStart c))));;
       c ← getConn;
       if negb (_timeoutError c =? 0) then
         resetTiming;;
         mret (1, _timeoutError c)
       else mret (0, 0)
     else mret (0, 0));
  c ← getConn;
  let errorCode := if _abandonForCheckpoint c then 2 else errorCode in
  e ← getDb;
  when (negb (errorCode =? 0) && _insideTransaction c && sqlite3_get_autocommit e)
    (setConn (set_autoRolledBack true));;
  setConn (set_abandonForCheckpoint false);;
  if errorCode =? 1 then throw (timeout_error ("timeout in " +:+ error) time)
  else if errorCode =? 2 then throw checkpoint_required_error
  else mret ().

(** [bool SQLite::read (const string& query, SQResult& result)]: the
    return value and the rows left in [result]. *)
Definition read (query : string) : M (bool * SQResult) :=
  before ← STimeNow;
  setConn (λ c, set_queryCount (u64 (_queryCount c + 1)) c);;
  c ← getConn;
  match _queryCache c !! query with
  | Some cached =>
      setConn (λ c, set_cacheHits (u64 (_cacheHits c + 1)) c);;
      mret (true, cached)
  | None =>
      setConn (set_isDeterministicQuery true);;
      '(rc, result) ← SQuery (SqlApp query);
      let queryResult := rc =? SQLITE_OK in
      c ← getConn;
      when (_isDeterministicQuery c && queryResult)
        (setConn (set_queryCache (emplace query result (_queryCache c))));;
      _checkInterruptErrors "SQLite::read";;
      now ← STimeNow;
      setConn (λ c, set_readElapsed (u64 (_readElapsed c + (now - before))) c);;
      mret (queryResult, result)
  end.

(** [string SQLite::read (const string& query)]. *)
Definition read_value (query : string) : M string :=
  '(ok, result) ← read query;
  if negb ok then mret ""
  else mret (default "" (cell result 0 0)).

(** [SQLite::_writeIdempotent]. *)
Definition _writeIdempotent (query : string) (alwaysKeepQueries : bool) : M bool :=
  c ← getConn;
  SASSERT (_insideTransaction c);;
  setConn (set_queryCache ∅);;
  setConn (λ c, set_queryCount (u64 (_queryCount c + 1)) c);;
  SASSERT (isEmpty query || SEndsWith query ";");;
  '(rc, results) ← SQuery SqlSchemaVersion;
  SASSERT (rc =? SQLITE_OK);;
  version ← fetch results 0 0;
  let schemaBefore := SToUInt64 version in
  e ← getDb;
  let changesBefore := u64 (total_changes e) in
  before ← STimeNow;
  c ← getConn;
  '(result, usedRewrittenQuery) ←
    (if _enableRewrite c then
       '(resultCode, _) ← SQuery (SqlApp query);
       if resultCode =? SQLITE_AUTH then
         setConn (set_currentlyRunningRewritten true);;
         c ← getConn;
         SASSERT (SEndsWith (_rewrittenQuery c) ";");;
         '(rc, _) ← SQuery (SqlApp (_rewrittenQuery c));
         setConn (set_currentlyRunningRewritten false);;
         mret (rc =? SQLITE_OK, true)
       else mret (resultCode =? SQLITE_OK, false)
     else
       '(rc, _) ← SQuery (SqlApp query);
       mret (rc =? SQLITE_OK, false));
  _checkInterruptErrors "SQLite::write";;
  now ← STimeNow;
  setConn (λ c, set_writeElapsed (u64 (_writeElapsed c + (now - before))) c);;
  if negb result then mret false
  else
    '(rc, results) ← SQuery SqlSchemaVersion;
    SASSERT (rc =? SQLITE_OK);;
    version ← fetch results 0 0;
    let schemaAfter := SToUInt64 version in
    e ← getDb;
    let changesAfter := u64 (total_changes e) in
    when (alwaysKeepQueries || (schemaBefore <? schemaAfter) || (changesBefore <? changesAfter))
      (setConn (λ c, set_uncommittedQuery
                       (_uncommittedQuery c +:+
                          (if (usedRewrittenQuery : bool) then _rewrittenQuery c else query)) c));;
    mret true.

(** [SQLite::write]. *)
Definition write (query : string) : M bool :=
  c ← getConn;
  if _noopUpdateMode c then mret true
  else _writeIdempotent query false.

(** [SQLite::writeIdempotent] and [SQLite::writeUnmodified]. *)
Definition writeIdempotent (query : string) : M bool := _writeIdempotent query false.
Definition writeUnmodified (query : string) : M bool := _writeIdempotent query true.

(** [SQLite::rollback]. *)
Definition rollback : M unit :=
  c ← getConn;
  (if _insideTransaction c then
     (if _autoRolledBack c then setConn (set_autoRolledBack false)
      else
        before ← STimeNow;
        '(rc, _) ← SQuery SqlRollback;
        SASSERT (rc =? SQLITE_OK);;
        now ← STimeNow;
        setConn (λ c, set_rollbackElapsed (u64 (_rollbackElapsed c + (now - before))) c));;
     setConn (set_insideTransaction false);;
     setConn (set_uncommittedHash "");;
     setConn (set_uncommittedQuery "");;
     c ← getConn;
     when (_mutexLocked c)
       (setConn (set_mutexLocked false);;
        emit EvTimerStop;;
        commitLock_unlock);;
     setShared (λ d, set_currentTransactionCount (i32 (currentTransactionCount d - 1)) d);;
     emit EvNotify
   else mret ());;
  setConn (set_queryCache ∅);;
  setConn (set_queryCount 0);;
  setConn (set_cacheHits 0);;
  setConn (set_dbCountAtStart 0);;
  setConn (set_enableCheckpointInterrupt true).

(** [SQLite::getCommittedHash] and [SQLite::getCommitCount]. *)
Definition getCommittedHash : M string := d ← getShared; mret (lastCommittedHash d).
Definition getCommitCount : M Z := d ← getShared; mret (commitCount d).

Inductive TRANSACTION_TYPE := SHARED | EXCLUSIVE.

(** [SQLite::beginTransaction]. *)
Definition beginTransaction (type : TRANSACTION_TYPE) : M bool :=
  match type with
  | EXCLUSIVE =>
      commitLock_lock;;
      emit (EvTimerStart "EXCLUSIVE");;
      setConn (set_mutexLocked true)
  | SHARED => mret ()
  end;;
  c ← getConn;
  SASSERT (negb (_insideTransaction c));;
  SASSERT (isEmpty (_uncommittedHash c));;
  SASSERT (isEmpty (_uncommittedQuery c));;
  setShared (λ d, set_currentTransactionCount (i32 (currentTransactionCount d + 1)) d);;
  emit EvNotify;;
  setConn (set_abandonForCheckpoint false);;
  setConn (set_autoRolledBack false);;
  before ← STimeNow;
  setConn (set_currentTransactionAttemptCount (-1));;
  '(rc, _) ← SQuery SqlBeginConcurrent;
  setConn (set_insideTransaction (rc =? SQLITE_OK));;
  count ← getCommitCount;
  setConn (set_dbCountAtStart count);;
  setConn (set_queryCache ∅);;
  setConn (set_queryCount 0);;
  setConn (set_cacheHits 0);;
  now ← STimeNow;
  setConn (set_beginElapsed (u64 (now - before)));;
  setConn (set_readElapsed 0);;
  setConn (set_writeElapsed 0);;
  setConn (set_prepareElapsed 0);;
  setConn (set_commitElapsed 0);;
  setConn (set_rollbackElapsed 0);;
  c ← getConn;
  mret (_insideTransaction c).

(** [SQLite::commit]. *)
Definition commit : M Z :=
  c ← getConn;
  SASSERT (_insideTransaction c);;
  SASSERT (negb (isEmpty (_uncommittedHash c)));;
  newJournalSize ←
    (let newJournalSize := u64 (_journalSize c + 1) in
     if _maxJournalSize c <? newJournalSize then
       before ← STimeNow;
       '(rc, _) ← SQuery (SqlTrimJournal (_journalName c) (_maxJournalSize c));
       SASSERT (rc =? SQLITE_OK);;
       '(rc, result) ← SQuery (SqlMinId (_journalName c));
       SASSERT (rc =? SQLITE_OK);;
       first ← fetch result 0 0;
       let min := SToUInt64 first in
       '(rc, result) ← SQuery (SqlMaxId (_journalName c));
       SASSERT (rc =? SQLITE_OK);;
       last ← fetch result 0 0;
       let max := SToUInt64 last in
       now ← STimeNow;
       setConn (λ c, set_writeElapsed (u64 (_writeElapsed c + (now - before))) c);;
       mret (u64 (max - min))
     else mret newJournalSize);
  before ← STimeNow;
  beforeCommit ← STimeNow;
  '(result, _) ←
    (if _pageLoggingEnabled c then
       attempt ← transactionAttemptCount_fetch_add;
       setConn (set_currentTransactionAttemptCount attempt);;
       SQuery SqlCommit
     else SQuery SqlCommit);
  SASSERT ((result =? SQLITE_OK) || (result =? SQLITE_BUSY_SNAPSHOT));;
  (if result =? SQLITE_OK then
     STimeNow;;
     now ← STimeNow;
     setConn (λ c, set_commitElapsed (u64 (_commitElapsed c + (now - before))) c);;
     setConn (set_journalSize newJournalSize);;
     c ← getConn;
     setShared (incrementCommit (_uncommittedHash c));;
     setConn (set_insideTransaction false);;
     setConn (set_uncommittedHash "");;
     setConn (set_uncommittedQuery "");;
     emit EvTimerStop;;
     commitLock_unlock;;
     setConn (set_mutexLocked false);;
     setConn (set_queryCache ∅);;
     setShared (λ d, set_currentTransactionCount (i32 (currentTransactionCount d - 1)) d);;
     emit EvNotify;;
     d ← getShared;
     when (_checkpointThreadBusy d =? 0)
       (STimeNow;;
        emit EvPassiveCheckpoint);;
     setConn (set_queryCount 0);;
     setConn (set_cacheHits 0);;
     setConn (set_dbCountAtStart 0)
   else mret ());;
  setConn (set_enableCheckpointInterrupt true);;
  mret result.

(** [static bool SQLite::getCommit (db, journalNames, id, query, hash)]:
    the return value and the two strings left in [query] and [hash]. *)
Definition getCommit (journalNames : list string) (id : Z) : M (bool * string * string) :=
  '(rc, result) ← SQuery (SqlGetCommit journalNames id);
  SASSERT (rc =? SQLITE_OK);;
  '(query, hash) ←
    (match result with
     | _ :: _ =>
         query ← fetch result 0 0;
         hash ← fetch result 0 1;
         mret (query, hash)
     | [] => mret ("", "")
     end);
  mret (negb (isEmpty hash), query, hash).

(** [bool SQLite::getCommit (id, query, hash)]. *)
Definition getCommit_this (id : Z) : M (bool * string * string) :=
  c ← getConn;
  getCommit (_journalNames c) id.

(** [SQLite::getCommits]: the return value and the rows left in [result]. *)
Definition getCommits (fromIndex toIndex : Z) : M (bool * SQResult) :=
  c ← getConn;
  '(rc, result) ← SQuery (SqlGetCommits (_journalNames c) fromIndex toIndex);
  mret (rc =? SQLITE_OK, result).

(** [SQLite::enableRewrite] and [SQLite::setRewriteHandler] ([None] is a
    null function pointer). *)
Definition enableRewrite (enable : bool) : M unit := setConn (set_enableRewrite enable).

Definition setRewriteHandler (handler : option RewriteHandler) : M unit :=
  setConn (set_rewriteHandler handler).

(** [SQLite::~SQLite], up to the closing of the engine handle. *)
Definition SQLite_destructor : M unit :=
  c ← getConn;
  when (negb (isEmpty (_uncommittedQuery c))) rollback.

(** [SQLite::popCommittedTransactions]. *)
Definition popCommittedTransactions : M (gmap Z TransactionInfo) := λ s,
  let '(result, d) := SharedData_popCommittedTransactions (shared s) in
  Ok result (set_shared d s).

(** [SQLite::setUpdateNoopMode]. *)
Definition setUpdateNoopMode (enabled : bool) : M unit :=
  c ← getConn;
  if bool_decide (_noopUpdateMode c = enabled) then mret ()
  else
    let query := "PRAGMA noop_update=" +:+ (if enabled then "ON" else "OFF") +:+ ";" in
    SQuery (SqlApp query);;
    setConn (set_noopUpdateMode enabled);;
    c ← getConn;
    when (_insideTransaction c)
      (setConn (set_uncommittedQuery (_uncommittedQuery c +:+ query))).

Section Hashing.

(** [SHashSHA1] and [SToHex] of libstuff. *)
Context (SHashSHA1 SToHex : string → string).

(** [SQLite::prepare]. *)
Definition prepare : M bool :=
  c ← getConn;
  SASSERT (_insideTransaction c);;
  when (negb (_mutexLocked c))
    (commitLock_lock;;
     emit (EvTimerStart "SHARED");;
     setConn (set_mutexLocked true));;
  commitCount ← getCommitCount;
  lastCommittedHash ← getCommittedHash;
  setConn (λ c, set_uncommittedHash
                  (SToHex (SHashSHA1 (lastCommittedHash +:+ _uncommittedQuery c))) c);;
  before ← STimeNow;
  c ← getConn;
  let query := SqlInsertJournal (_journalName c) (u64 (commitCount + 1))
                 (_uncommittedQuery c) (_uncommittedHash c) in
  setShared (prepareTransactionInfo (u64 (commitCount + 1)) (_uncommittedQuery c)
               (_uncommittedHash c) (_dbCountAtStart c));;
  '(result, _) ← SQuery query;
  now ← STimeNow;
  setConn (λ c, set_prepareElapsed (u64 (_prepareElapsed c + (now - before))) c);;
  if negb (result =? SQLITE_OK) then
    rollback;;
    mret false
  else mret true.

End Hashing.

(** ** Schema helpers *)

Section Schema.

(** [SQ], [SCollapse], [SStrip], [SIEquals], [SReplace] and [SContains] of
    libstuff. *)
Context (SQ SCollapse : string → string) (SStrip : string → string → bool → string)
  (SIEquals : string → string → bool) (SReplace : string → string → string → string)
  (SContains : string → string → bool).




End Schema.

(** ** The WAL hook *)

(** [SQLite::_sqliteWALCallback], up to the start of the checkpoint
    thread: it returns SQLITE_OK in every case, the value here is whether
    it has started the thread.  [fullCheckpointPageMin] is the
    process-wide atomic of that name. *)
Definition _sqliteWALCallback (fullCheckpointPageMin pageCount : Z) : M bool :=
  setShared (set_currentPageCount pageCount);;
  if fullCheckpointPageMin <=? pageCount then
    d ← getShared;
    let alreadyCheckpointing := _checkpointThreadBusy d in
    setShared (set_checkpointThreadBusy (i32 (alreadyCheckpointing + 1)));;
    if negb (alreadyCheckpointing =? 0) then mret false
    else mret true
  else mret false.

(** The hook called after each of several commits, with the page counts
    [pages], while no checkpoint thread comes to its end. *)
Fixpoint wal_callbacks (fullCheckpointPageMin : Z) (pages : list Z) : M (list bool) :=
  match pages with
  | [] => mret []
  | pageCount :: rest =>
      started ← _sqliteWALCallback fullCheckpointPageMin pageCount;
      later ← wal_callbacks fullCheckpointPageMin rest;
      mret (started :: later)
  end.

(** What one pass of the checkpoint thread's loop decides, holding
    [notifyWaitMutex]: to leave the loop because the page count has fallen
    under half the threshold, to run the restart checkpoint, or to wait for
    the transaction count to change.  The notifications of the checkpoint
    listeners are left out. *)
Inductive CheckpointVerdict := GiveUp | Restart | Wait.

Definition checkpoint_pass (fullCheckpointPageMin : Z) (d : SharedData) : CheckpointVerdict :=
  let count := currentTransactionCount d in
  let pageCount := _currentPageCount d in
  if pageCount <? fullCheckpointPageMin ÷ 2 then GiveUp
  else if count =? 0 then Restart
  else Wait.

(** ** Construction *)

(** The index [(nextJournalCount++ % _journalNames.size () - 1) + 1] of the
    copy constructor, in [size_t] arithmetic: [%] binds tighter than [-]. *)
Definition journal_index (count size : Z) : Z :=
  u64 (u64 (u64 count `mod` size - 1) + 1).

(** An object whose members have the values the constructors give them:
    the configuration is passed in, everything else starts from its
    in-class initializer (SQLite.h). *)
Definition new_SQLite (filename : string) (maxJournalSize : Z) (journalNames : list string)
    (journalName : string) (journalSize : Z) (pageLoggingEnabled : bool) (cacheSize : Z)
    (synchronous : string) (mmapSizeGB : Z) : SQLite :=
  {| _filename := filename; _maxJournalSize := maxJournalSize;
     _journalNames := journalNames; _journalName := journalName;
     _journalSize := journalSize; _pageLoggingEnabled := pageLoggingEnabled;
     _cacheSize := cacheSize; _synchronous := synchronous; _mmapSizeGB := mmapSizeGB;
     _insideTransaction := false; _uncommittedQuery := ""; _uncommittedHash := "";
     _mutexLocked := false; _autoRolledBack := false; _abandonForCheckpoint := false;
     _enableCheckpointInterrupt := true; _noopUpdateMode := false;
     _enableRewrite := false; _currentlyRunningRewritten := false;
     _rewrittenQuery := ""; _rewriteHandler := None; _isDeterministicQuery := false;
     _queryCache := ∅; _queryCount := 0; _cacheHits := 0; _dbCountAtStart := 0;
     _currentTransactionAttemptCount := -1; _beginElapsed := 0; _readElapsed := 0;
     _writeElapsed := 0; _prepareElapsed := 0; _commitElapsed := 0;
     _rollbackElapsed := 0; _timeoutLimit := 0; _timeoutStart := 0; _timeoutError := 0;
     whitelist := None |}.

(** [SQLite::SQLite (const SQLite& from)]: the new object.  Its engine
    handle is a fresh one; opening it and the pragmas of
    [commonConstructorInitialization] concern that handle only, the three
    sanity checks of that function are kept. *)
Definition SQLite_copy (from : SQLite) : M SQLite :=
  d ← getShared;
  let count := nextJournalCount d in
  setShared (set_nextJournalCount (i64 (count + 1)));;
  let size := Z.of_nat (length (_journalNames from)) in
  match (if size =? 0 then None
         else _journalNames from !! Z.to_nat (journal_index count size)) with
  | None => λ _, Abort
  | Some journalName =>
      SASSERT (negb (isEmpty (_filename from)));;
      SASSERT (0 <? _cacheSize from);;
      SASSERT (0 <? _maxJournalSize from);;
      mret (new_SQLite (_filename from) (_maxJournalSize from) (_journalNames from)
              journalName (_journalSize from) (_pageLoggingEnabled from)
              (_cacheSize from) (_synchronous from) (_mmapSizeGB from))
  end.

(** [SharedData::SharedData ()] followed by what [initializeSharedData]
    stores for a database without commits. *)
Definition new_SharedData : SharedData :=
  {| commitCount := 0; lastCommittedHash := ""; nextJournalCount := 0;
     currentTransactionCount := 0; _currentPageCount := 0; _checkpointThreadBusy := 0;
     commitLock := false; _preparedTransactions := ∅; _committedTransactions := ∅ |}.

(** A handle on a database whose journal tables [names] are empty. *)
Definition new_sqlite3 (names : list string) (responses : list Response) : sqlite3 :=
  {| journals := list_to_map ((λ n, (n, [])) <$> names); txn := None;
     schema_version := 0; total_changes := 0; script := responses |}.

(** The journal tables [initializeJournal] finds when [minJournalTables]
    is 1: "journal", "journal0000", "journal0001". *)
Definition three_journals : list string := ["journal"; "journal0000"; "journal0001"].

(** A first connection on a new database, its engine scripted with
    [responses] and the clock with [readings]. *)
Definition new_state (responses : list Response) (readings : list Z) : St :=
  {| conn := new_SQLite "/db/test.db" 100 three_journals "journal" 0 false 1000 "" 0;
     shared := new_SharedData;
     db := new_sqlite3 three_journals responses;
     clock := readings;
     _transactionAttemptCount := 0;
     trace := [] |}.

(** ** Several connections on one database

    Each connection has its object and its handle; all of them share the
    [SharedData], the clock and the process.  A call is one step of the
    process, and the calls of the connections interleave between steps. *)
Record World := {
  w_conns : list (SQLite * sqlite3);
  w_shared : SharedData;
  w_clock : list Z;
  w_attempts : Z;
  w_trace : list Event
}.

(** What a user of a connection does with it: the member functions that
    change something, the assignment to the public member [whitelist], and
    the destructor.  [verifyTable], [verifyIndex] and [addColumn] are
    sequences of [read] and [write]; the remaining member functions return
    a member or ask the engine handle without changing the object or the
    shared data. *)
Inductive Call :=
| CallBeginTransaction (type : TRANSACTION_TYPE)
| CallRead (query : string)
| CallReadValue (query : string)
| CallWrite (query : string)
| CallWriteIdempotent (query : string)
| CallWriteUnmodified (query : string)
| CallPrepare
| CallCommit
| CallRollback
| CallGetCommit (id : Z)
| CallPopCommittedTransactions
| CallSetUpdateNoopMode (enabled : bool)
| CallGetCommits (fromIndex toIndex : Z)
| CallEnableRewrite (enable : bool)
| CallSetRewriteHandler (handler : option RewriteHandler)
| CallSetWhitelist (allowed : option (gmap string (gset string)))
| CallStartTiming (timeLimitUS : Z)
| CallResetTiming
| CallDestructor.

(** What happens in the process: a connection runs a call, a new
    connection is copy-constructed from an existing one (on a handle of its
    own), or the checkpoint thread moves its two atomics. *)
Inductive Action :=
| Act (i : nat) (c : Call)
| Connect (from : nat) (handle : sqlite3)
| Checkpoint (busy pageCount : Z).

Definition focus (w : World) (i : nat) : option St :=
  '(c, e) ← w_conns w !! i;
  Some {| conn := c; shared := w_shared w; db := e; clock := w_clock w;
          _transactionAttemptCount := w_attempts w; trace := w_trace w |}.

Definition unfocus (w : World) (i : nat) (s : St) : World :=
  {| w_conns := <[i := (conn s, db s)]> (w_conns w); w_shared := shared s;
     w_clock := clock s; w_attempts := _transactionAttemptCount s;
     w_trace := trace s |}.

(** The successive hashes of a journal that starts from hash [h] and
    receives the queries [qs]. *)
Fixpoint hash_chain (H : string → string) (h : string) (qs : list string) : list string :=
  match qs with
  | [] => []
  | q :: rest => let h' := H (h +:+ q) in h' :: hash_chain H h' rest
  end.

Section World.

Context (SHashSHA1 SToHex : string → string).

Definition call (c : Call) : M Z :=
  match c with
  | CallBeginTransaction type => beginTransaction type;; mret 0
  | CallRead query => read query;; mret 0
  | CallReadValue query => read_value query;; mret 0
  | CallWrite query => write query;; mret 0
  | CallWriteIdempotent query => writeIdempotent query;; mret 0
  | CallWriteUnmodified query => writeUnmodified query;; mret 0
  | CallPrepare => prepare SHashSHA1 SToHex;; mret 0
  | CallCommit => commit
  | CallRollback => rollback;; mret 0
  | CallGetCommit id => getCommit_this id;; mret 0
  | CallPopCommittedTransactions => popCommittedTransactions;; mret 0
  | CallSetUpdateNoopMode enabled => setUpdateNoopMode enabled;; mret 0
  | CallGetCommits fromIndex toIndex => getCommits fromIndex toIndex;; mret 0
  | CallEnableRewrite enable => enableRewrite enable;; mret 0
  | CallSetRewriteHandler handler => setRewriteHandler handler;; mret 0
  | CallSetWhitelist allowed => setConn (set_whitelist allowed);; mret 0
  | CallStartTiming timeLimitUS => startTiming timeLimitUS;; mret 0
  | CallResetTiming => resetTiming;; mret 0
  | CallDestructor => SQLite_destructor;; mret 0
  end.

(** The journal row a successful [commit] makes durable: its id is the new
    commit count, its query the one [prepare] registered under that id,
    its hash the new last committed hash. *)
Definition committed_row (before after : SharedData) : JournalRow :=
  {| row_id := commitCount after;
     row_query := default "" ((λ info : TransactionInfo, info.1.1) <$>
                     _preparedTransactions before !! commitCount after);
     row_hash := lastCommittedHash after |}.

(** One action; the second component is the row committed by it, if any.
    [None]: the action does not complete (the process aborts, the thread
    waits for the commit lock, or there is no such connection). *)
Definition step (w : World) (a : Action) : option (World * list JournalRow) :=
  match a with
  | Act i c =>
      s ← focus w i;
      match call c s with
      | Ok rc s' =>
          Some (unfocus w i s',
                match c with
                | CallCommit =>
                    if rc =? SQLITE_OK then [committed_row (shared s) (shared s')] else []
                | _ => []
                end)
      | Throw _ s' => Some (unfocus w i s', [])
      | Abort | Blocked => None
      end
  | Connect from handle =>
      s ← focus w from;
      match SQLite_copy (conn s) s with
      | Ok c s' =>
          Some ({| w_conns := w_conns w ++ [(c, handle)]; w_shared := shared s';
                   w_clock := clock s'; w_attempts := _transactionAttemptCount s';
                   w_trace := trace s' |}, [])
      | _ => None
      end
  | Checkpoint busy pageCount =>
      Some ({| w_conns := w_conns w;
               w_shared := set_checkpointThreadBusy busy
                             (set_currentPageCount pageCount (w_shared w));
               w_clock := w_clock w; w_attempts := w_attempts w;
               w_trace := w_trace w |}, [])
  end.

(** A run of actions and the rows committed along it, oldest first. *)
Fixpoint run (w : World) (actions : list Action) : option (World * list JournalRow) :=
  match actions with
  | [] => Some (w, [])
  | a :: rest =>
      '(w1, rows) ← step w a;
      '(w2, more) ← run w1 rest;
      Some (w2, rows ++ more)
  end.

End World.

(** A process that starts on a database without commits: no connection is
    in the middle of a commit and the commit lock is free. *)
Definition initial (w : World) : Prop :=
  commitCount (w_shared w) = 0 ∧
  lastCommittedHash (w_shared w) = "" ∧
  commitLock (w_shared w) = false ∧
  ∀ i c e, w_conns w !! i = Some (c, e) → _uncommittedHash c = "" ∧ _mutexLocked c = false.

(** How often the commit lock was released. *)
Definition unlocks (t : list Event) : nat :=
  length (filter (λ e, e = EvCommitUnlock) t).

(** ** The authorizer's policy, in the specification's words *)

(** The mutation and DDL actions: CREATE*, DROP*, INSERT, UPDATE, DELETE,
    ATTACH, DETACH, ALTER, REINDEX, TRANSACTION, SAVEPOINT, COPY, RECURSIVE
    and virtual-table create and drop. *)
Definition mutation_actions : list Z :=
  [SQLITE_CREATE_INDEX; SQLITE_CREATE_TABLE; SQLITE_CREATE_TEMP_INDEX;
   SQLITE_CREATE_TEMP_TABLE; SQLITE_CREATE_TEMP_TRIGGER; SQLITE_CREATE_TEMP_VIEW;
   SQLITE_CREATE_TRIGGER; SQLITE_CREATE_VIEW;
   SQLITE_DROP_INDEX; SQLITE_DROP_TABLE; SQLITE_DROP_TEMP_INDEX; SQLITE_DROP_TEMP_TABLE;
   SQLITE_DROP_TEMP_TRIGGER; SQLITE_DROP_TEMP_VIEW; SQLITE_DROP_TRIGGER; SQLITE_DROP_VIEW;
   SQLITE_INSERT; SQLITE_UPDATE; SQLITE_DELETE; SQLITE_ATTACH; SQLITE_DETACH;
   SQLITE_ALTER_TABLE; SQLITE_REINDEX; SQLITE_TRANSACTION; SQLITE_SAVEPOINT; SQLITE_COPY;
   SQLITE_RECURSIVE; SQLITE_CREATE_VTABLE; SQLITE_DROP_VTABLE].

(** The letters of the alphabet, each in upper case and in lower case. *)
Definition case_pairs : list (ascii * ascii) :=
  zip (String.list_ascii_of_string "ABCDEFGHIJKLMNOPQRSTUVWXYZ")
      (String.list_ascii_of_string "abcdefghijklmnopqrstuvwxyz").

(** Two characters that differ at most by their case. *)
Definition same_letter (a b : ascii) : Prop :=
  a = b ∨ (a, b) ∈ case_pairs ∨ (b, a) ∈ case_pairs.

(** Two strings that are equal when case is ignored. *)
Fixpoint same_ignoring_case (s t : string) : Prop :=
  match s, t with
  | EmptyString, EmptyString => True
  | String a s', String b t' => same_letter a b ∧ same_ignoring_case s' t'
  | _, _ => False
  end.

(** The rewrite step of the authorizer leaves the decision to the rest of
    the function: rewriting is off, or a rewritten query is running, or the
    handler declines. *)
Definition rewrite_silent (a : AuthAction) (c : SQLite) : Prop :=
  _enableRewrite c = false ∨ _currentlyRunningRewritten c = true ∨
  ∃ handler, _rewriteHandler c = Some handler ∧
             (handler (actionCode a) (detail1 a) (_rewrittenQuery c)).1 = false.

(** The rewrite step denies the action: rewriting is on, no rewritten query
    is running, and the handler accepts the action. *)
Definition rewrite_denies (a : AuthAction) (c : SQLite) : Prop :=
  _enableRewrite c = true ∧ _currentlyRunningRewritten c = false ∧
  ∃ handler, _rewriteHandler c = Some handler ∧
             (handler (actionCode a) (detail1 a) (_rewrittenQuery c)).1 = true.

(** The value [_authorize] returns. *)
Definition verdict (a : AuthAction) (c : SQLite) : option Z := fst <$> _authorize a c.

(** * Vocabulary of the proofs *)

(** The state a call leaves behind, when it returns or throws. *)
Definition post {A} (o : Outcome A) : option St :=
  match o with
  | Ok _ s | Throw _ s => Some s
  | Abort | Blocked => None
  end.

(** [keeps proj m]: the part [proj] of the state is the same after [m],
    however [m] ends. *)
Definition keeps {A T} (proj : St → T) (m : M A) : Prop :=
  ∀ s s', post (m s) = Some s' → proj s' = proj s.

(** A part of the state that the engine's callbacks cannot reach: it
    ignores the clock and the four members the callbacks assign. *)
Record callback_frame {T} (proj : St → T) : Prop := {
  cf_clock : ∀ s v, proj (set_clock v s) = proj s;
  cf_conn : ∀ s q d t a,
    proj (set_conn (set_abandonForCheckpoint a (set_timeoutError t
            (set_isDeterministicQuery d (set_rewrittenQuery q (conn s))))) s) = proj s
}.

(** A part of the state that a whole engine round trip cannot reach: it
    also ignores the handle and the logging of statements. *)
Record query_frame {T} (proj : St → T) : Prop := {
  qf_callbacks : callback_frame proj;
  qf_db : ∀ s v, proj (set_db v s) = proj s;
  qf_trace : ∀ s q, proj (set_trace (trace s ++ [EvQuery q]) s) = proj s
}.

(** The effect that releases the commit lock. *)
Definition is_unlock (e : Event) : bool :=
  match e with EvCommitUnlock => true | _ => false end.

(** A call that ends by throwing [checkpoint_required_error]. *)
Definition throws_checkpoint {A} (o : Outcome A) : Prop :=
  ∃ s', o = Throw checkpoint_required_error s'.

(** A string without upper-case letters. *)
Fixpoint no_upper (t : string) : bool :=
  match t with
  | EmptyString => true
  | String b t' => negb (isupper b) && no_upper t'
  end.

(** The four ways a call can end. *)
Inductive Kind := Returns | Throws | Aborts | Blocks.

Definition kind_of {A} (o : Outcome A) : Kind :=
  match o with
  | Ok _ _ => Returns
  | Throw _ _ => Throws
  | Abort => Aborts
  | Blocked => Blocks
  end.

(** [never k m]: no run of [m] ends in the way [k]. *)
Definition never {A} (k : Kind) (m : M A) : Prop := ∀ s, kind_of (m s) ≠ k.

(** A function that does not throw, and one that does not wait. *)
Abbreviation quiet := (never Throws).
Abbreviation unblocked := (never Blocks).

(** The members and shared data that say where a transaction stands. *)
Definition txn_view (s : St) :=
  (shared s, unlocks (trace s), _insideTransaction (conn s), _uncommittedHash (conn s),
   _uncommittedQuery (conn s), _mutexLocked (conn s), _queryCache (conn s)).

(** The state a call leaves, for calls that return or throw. *)
Definition after {A} (o : Outcome A) (fallback : St) : St :=
  match o with
  | Ok _ s | Throw _ s => s
  | Abort | Blocked => fallback
  end.

(** ** The chain of commit hashes *)

(** The shared data and members that decide what the next commit records. *)
Definition chain_view (s : St) :=
  (commitCount (shared s), lastCommittedHash (shared s), commitLock (shared s),
   _preparedTransactions (shared s), _uncommittedHash (conn s), _mutexLocked (conn s)).

(** The hash [prepare] computes: hex of SHA1. *)
Definition journal_hash (SHashSHA1 SToHex : string → string) (text : string) : string :=
  SToHex (SHashSHA1 text).

(** How one call of one connection can move the chain, with the journal
    rows it commits. *)
Inductive Effect (hash : string → string) (s s' : St) : list JournalRow → Prop :=
| Keeps_chain :
    chain_view s' = chain_view s → Effect hash s s' []
| Takes_lock :
    commitLock (shared s) = false →
    chain_view s' = (commitCount (shared s), lastCommittedHash (shared s), true,
                     _preparedTransactions (shared s), "", true) →
    Effect hash s s' []
| Prepares (q : string) (n : Z) :
    (_mutexLocked (conn s) = false → commitLock (shared s) = false) →
    chain_view s' =
      (commitCount (shared s), lastCommittedHash (shared s),
       (if _mutexLocked (conn s) then commitLock (shared s) else true),
       <[u64 (commitCount (shared s) + 1) :=
           (q, hash (lastCommittedHash (shared s) +:+ q), n)]>
         (_preparedTransactions (shared s)),
       hash (lastCommittedHash (shared s) +:+ q), true) →
    Effect hash s s' []
| Releases :
    (_mutexLocked (conn s) = false → commitLock (shared s) = false) →
    commitCount (shared s') = commitCount (shared s) →
    lastCommittedHash (shared s') = lastCommittedHash (shared s) →
    commitLock (shared s') = false →
    _uncommittedHash (conn s') = "" → _mutexLocked (conn s') = false →
    Effect hash s s' []
| Ends :
    _mutexLocked (conn s) = false →
    chain_view s' = (commitCount (shared s), lastCommittedHash (shared s),
                     commitLock (shared s), _preparedTransactions (shared s), "", false) →
    Effect hash s s' []
| Commits :
    _uncommittedHash (conn s) ≠ "" →
    commitCount (shared s') = u64 (commitCount (shared s) + 1) →
    lastCommittedHash (shared s') = _uncommittedHash (conn s) →
    commitLock (shared s') = false →
    _uncommittedHash (conn s') = "" → _mutexLocked (conn s') = false →
    Effect hash s s' [committed_row (shared s) (shared s')].

(** The rows [step] reports for a call that returned [rc]. *)
Definition rows_of (c : Call) (rc : Z) (s s' : St) : list JournalRow :=
  match c with
  | CallCommit => if rc =? SQLITE_OK then [committed_row (shared s) (shared s')] else []
  | _ => []
  end.

(** What holds between calls, in every process that started on a database
    without commits: a connection whose [_mutexLocked] is set holds the
    commit lock, and it alone; a connection with a prepared hash holds the
    lock, and its hash is that of the last committed hash followed by the
    query registered under the next commit id. *)
Definition chain_inv (hash : string → string) (w : World) : Prop :=
  ∀ i c e, w_conns w !! i = Some (c, e) →
    (_mutexLocked c = true →
       commitLock (w_shared w) = true ∧
       ∀ j c' e', w_conns w !! j = Some (c', e') → _mutexLocked c' = true → j = i) ∧
    (_uncommittedHash c ≠ "" →
       _mutexLocked c = true ∧
       ∃ q n, _preparedTransactions (w_shared w) !! u64 (commitCount (w_shared w) + 1)
                = Some (q, _uncommittedHash c, n) ∧
              _uncommittedHash c = hash (lastCommittedHash (w_shared w) +:+ q)).

(** How the rows an action commits move the shared data: no row and the
    same count and hash, or one row that continues the chain. *)
Definition advance (hash : string → string) (d d' : SharedData) (rows : list JournalRow)
    : Prop :=
  (rows = [] ∧ commitCount d' = commitCount d ∧ lastCommittedHash d' = lastCommittedHash d) ∨
  ∃ q, rows = [{| row_id := u64 (commitCount d + 1); row_query := q;
                  row_hash := hash (lastCommittedHash d +:+ q) |}] ∧
       commitCount d' = u64 (commitCount d + 1) ∧
       lastCommittedHash d' = hash (lastCommittedHash d +:+ q).

(** ** Functions the cache must not remember *)

(** The functions [_authorize] takes for non-deterministic, those of its
    names that SQL functions bear. *)
Definition nondeterministic_names : list string :=
  ["random"; "date"; "time"; "datetime"; "julianday"; "strftime"; "changes";
   "last_insert_rowid"].

(** A FUNCTION action that names one of them. *)
Definition listed_function (a : AuthAction) : Prop :=
  actionCode a = SQLITE_FUNCTION ∧
  ∃ name, detail2 a = Some name ∧ name ∈ nondeterministic_names.

(** ** Looking up a commit *)

(** [row] is a row with the id [id] in one of the journal tables [names]. *)
Definition holds_commit (e : sqlite3) (names : list string) (id : Z) (row : JournalRow)
    : Prop :=
  ∃ table rows, table ∈ names ∧ journals e !! table = Some rows ∧ row ∈ rows ∧
                row_id row = id.

(** ** Why a call is interrupted *)

(** What makes a statement end in [checkpoint_required_error]: the
    connection has already agreed to yield, or the checkpoint thread is
    busy and the connection lets it interrupt. *)
Definition checkpoint_cause (s : St) : Prop :=
  _abandonForCheckpoint (conn s) = true ∨
  (_checkpointThreadBusy (shared s) ≠ 0 ∧ _enableCheckpointInterrupt (conn s) = true).

(** The members that time a call and let the checkpoint thread in. *)
Definition limits_view (s : St) :=
  (shared s, _enableCheckpointInterrupt (conn s), _timeoutLimit (conn s),
   _timeoutStart (conn s), _insideTransaction (conn s)).

(** ** Between two calls *)

(** What holds of an object between calls: outside a transaction it has
    no uncommitted query and no prepared hash, and no rewritten query is
    running. *)
Definition settled (c : SQLite) : Prop :=
  (_insideTransaction c = false → _uncommittedQuery c = "" ∧ _uncommittedHash c = "") ∧
  _currentlyRunningRewritten c = false.

(** The members [settled] speaks of. *)
Definition settled_view (s : St) :=
  (_insideTransaction (conn s), _uncommittedQuery (conn s), _uncommittedHash (conn s),
   _currentlyRunningRewritten (conn s)).

(** ** What commit resets *)

(** The members [commit] resets or keeps, besides those of [txn_view]. *)
Definition commit_view (s : St) :=
  (_journalSize (conn s), _maxJournalSize (conn s), _queryCount (conn s),
   _cacheHits (conn s), _dbCountAtStart (conn s)).

(** ** Read-only calls *)


(** ** Counting the open transactions *)

(** The connections that are inside a transaction. *)
Definition open_transactions (w : World) : nat :=
  length (filter (λ ce : SQLite * sqlite3, _insideTransaction ce.1 = true) (w_conns w)).

(** How a call other than [beginTransaction] moves
    [currentTransactionCount] and [_insideTransaction] together: not at
    all, or the count goes down as the connection leaves its transaction. *)
Definition counted (s s' : St) : Prop :=
  (currentTransactionCount (shared s') = currentTransactionCount (shared s) ∧
   _insideTransaction (conn s') = _insideTransaction (conn s)) ∨
  (currentTransactionCount (shared s') = i32 (currentTransactionCount (shared s) - 1) ∧
   _insideTransaction (conn s) = true ∧ _insideTransaction (conn s') = false).

(** The action is a [beginTransaction] that returns false. *)
Definition begin_fails (w : World) (a : Action) : bool :=
  match a with
  | Act i (CallBeginTransaction type) =>
      match focus w i with
      | Some s => match beginTransaction type s with Ok false _ => true | _ => false end
      | None => false
      end
  | _ => false
  end.

(** How many [beginTransaction] calls of a run return false. *)
Fixpoint failed_begins (SHashSHA1 SToHex : string → string) (w : World)
    (actions : list Action) : nat :=
  match actions with
  | [] => 0
  | a :: rest =>
      match step SHashSHA1 SToHex w a with
      | Some (w1, _) =>
          (if begin_fails w a then 1 else 0) + failed_begins SHashSHA1 SToHex w1 rest
      | None => 0
      end
  end.

(** The count and the flag. *)
Definition count_view (s : St) :=
  (currentTransactionCount (shared s), _insideTransaction (conn s)).

(** * Sample states *)

(** A connection in noop-update mode, inside a transaction with one write
    pending. *)
Definition noop_state : St :=
  set_conn (set_noopUpdateMode true (set_insideTransaction true
              (set_uncommittedQuery "INSERT INTO t VALUES (1);" (conn (new_state [] [])))))
    (new_state [] []).

(** A connection that is not inside a transaction but has served a read:
    the query is cached and counted, [_dbCountAtStart] still holds the
    commit count of the last [beginTransaction], and the user switched
    checkpoint interrupts off. *)
Definition idle_state : St :=
  set_conn (set_queryCache {[ "SELECT 1;" := [["1"]] ]} (set_queryCount 1
              (set_dbCountAtStart 7 (set_enableCheckpointInterrupt false
                 (conn (new_state [] []))))))
    (new_state [] []).

(** A read in progress: the time budget started at 0 and ends at 10, the
    progress handler has already yielded to the checkpoint thread, and the
    clock now reads 20. *)
Definition late_and_abandoned : St :=
  set_clock [20]
    (set_conn (set_timeoutLimit 10 (set_abandonForCheckpoint true
                 (set_insideTransaction true (conn (new_state [] [])))))
       (new_state [] [])).

(** A connection in whitelist mode: the columns name and email of table
    accounts may be read. *)
Definition whitelisted : SQLite :=
  let c := new_SQLite "/db/test.db" 100 three_journals "journal" 0 false 1000 "" 0 in
  Build_SQLite (_filename c) (_maxJournalSize c) (_journalNames c) (_journalName c)
    (_journalSize c) (_pageLoggingEnabled c) (_cacheSize c) (_synchronous c)
    (_mmapSizeGB c) (_insideTransaction c) (_uncommittedQuery c) (_uncommittedHash c)
    (_mutexLocked c) (_autoRolledBack c) (_abandonForCheckpoint c)
    (_enableCheckpointInterrupt c) (_noopUpdateMode c) (_enableRewrite c)
    (_currentlyRunningRewritten c) (_rewrittenQuery c) (_rewriteHandler c)
    (_isDeterministicQuery c) (_queryCache c) (_queryCount c) (_cacheHits c)
    (_dbCountAtStart c) (_currentTransactionAttemptCount c) (_beginElapsed c)
    (_readElapsed c) (_writeElapsed c) (_prepareElapsed c) (_commitElapsed c)
    (_rollbackElapsed c) (_timeoutLimit c) (_timeoutStart c) (_timeoutError c)
    (Some {[ "accounts" := {[ "name"; "email" ]} ]}).

(** The READ action the engine reports for one column of a table. *)
Definition read_column (table column : string) : AuthAction :=
  {| actionCode := SQLITE_READ; detail1 := Some table; detail2 := Some column;
     detail3 := Some "main"; detail4 := None |}.

(** The same connection with rewriting enabled and a handler that rewrites
    whatever it is shown. *)
Definition rewriting_whitelisted : SQLite :=
  set_rewriteHandler (Some (λ _ _ _, (true, "SELECT 1;")))
    (set_enableRewrite true whitelisted).

(** The engine's answer to a COMMIT that conflicts with another commit. *)
Definition conflict_response : Response :=
  {| r_callbacks := []; r_code := SQLITE_BUSY_SNAPSHOT; r_rows := [];
     r_changes := 0; r_schema := 0; r_autorollback := false |}.

(** A connection that holds the commit lock after a successful [prepare]
    of one write, its engine scripted with [responses]. *)
Definition prepared_state (responses : list Response) : St :=
  let s := new_state responses [] in
  set_db (set_txn (Some (journals (db s))) (db s))
    (set_shared (set_commitLock true (set_currentTransactionCount 1 (shared s)))
       (set_conn (set_insideTransaction true (set_mutexLocked true
                    (set_uncommittedQuery "INSERT INTO t VALUES (1);"
                       (set_uncommittedHash "0a1b" (conn s))))) s)).

(** A connection inside a transaction, with one answer in its cache. *)
Definition caching_state (responses : list Response) : St :=
  let s := prepared_state responses in
  set_conn (set_queryCache {[ "SELECT 1;" := [["1"]] ]} (conn s)) s.

(** Stand-ins for SHA1 and hex encoding when an example is run. *)
Definition sample_SHashSHA1 (text : string) : string := "sha1(" +:+ text +:+ ")".
Definition sample_SToHex (text : string) : string := "hex(" +:+ text +:+ ")".

(** The engine's answer to a write that changes one row. *)
Definition one_change : Response :=
  {| r_callbacks := []; r_code := SQLITE_OK; r_rows := [];
     r_changes := 1; r_schema := 0; r_autorollback := false |}.

(** A process with one connection on a new database; the engine will see
    two transactions of one write each. *)
Definition one_connection : World :=
  let s := new_state [default_response; default_response; one_change; default_response;
                      default_response; default_response; default_response;
                      default_response; default_response; one_change] [] in
  {| w_conns := [(conn s, db s)]; w_shared := shared s; w_clock := [];
     w_attempts := 0; w_trace := [] |}.

(** A transaction with one write pending, then prepared, then committed. *)
Definition sample_written : St :=
  let s := new_state [default_response; default_response; one_change] [] in
  let s1 := after (beginTransaction SHARED s) s in
  after (write "INSERT INTO t VALUES (1);" s1) s1.

Definition sample_prepared : St :=
  after (prepare sample_SHashSHA1 sample_SToHex sample_written) sample_written.

Definition sample_committed : St := after (commit sample_prepared) sample_prepared.

Definition two_transactions : list Action :=
  [Act 0 (CallBeginTransaction SHARED); Act 0 (CallWrite "INSERT INTO t VALUES (1);");
   Act 0 CallPrepare; Act 0 CallCommit;
   Act 0 (CallBeginTransaction SHARED); Act 0 (CallRead "SELECT * FROM t;");
   Act 0 (CallWrite "INSERT INTO t VALUES (2);");
   Act 0 CallPrepare; Act 0 CallCommit].

(** What the engine reports to the authorizer while it compiles
    "SELECT sqlite_version();": the SELECT itself and the call of the SQL
    function, whose name arrives in the second detail string. *)
Definition select_statement : AuthAction :=
  {| actionCode := SQLITE_SELECT; detail1 := None; detail2 := None;
     detail3 := None; detail4 := None |}.

Definition function_call (name : string) : AuthAction :=
  {| actionCode := SQLITE_FUNCTION; detail1 := None; detail2 := Some name;
     detail3 := None; detail4 := None |}.

Definition version_response : Response :=
  {| r_callbacks := [CbAuthorize select_statement;
                     CbAuthorize (function_call "sqlite_version")];
     r_code := SQLITE_OK; r_rows := [["3.30.1"]];
     r_changes := 0; r_schema := 0; r_autorollback := false |}.

(** The engine's answer to "SELECT random();". *)
Definition random_response : Response :=
  {| r_callbacks := [CbAuthorize select_statement; CbAuthorize (function_call "random")];
     r_code := SQLITE_OK; r_rows := [["4611686018427387904"]];
     r_changes := 0; r_schema := 0; r_autorollback := false |}.

(** A transaction with one write pending whose journal INSERT the engine
    will refuse. *)
Definition refused_insert : St :=
  let refused := {| r_callbacks := []; r_code := SQLITE_CONSTRAINT; r_rows := [];
                    r_changes := 0; r_schema := 0; r_autorollback := false |} in
  let s := new_state [default_response; default_response; one_change; default_response;
                      refused] [] in
  let s1 := after (beginTransaction SHARED s) s in
  after (write "INSERT INTO t VALUES (1);" s1) s1.

(** A database whose journal holds commit 7 with a query and no hash. *)
Definition hashless_journal : St :=
  let s := new_state [] [] in
  set_db (set_journals
            (<["journal" := [{| row_id := 7; row_query := "INSERT INTO t VALUES (1);";
                                row_hash := "" |}]]> (journals (db s)))
            (db s)) s.

(** The engine's answer to a statement that runs long enough to call the
    progress handler. *)
Definition slow_response : Response :=
  {| r_callbacks := [CbProgress]; r_code := SQLITE_OK; r_rows := [["1"]];
     r_changes := 0; r_schema := 0; r_autorollback := false |}.

(** A read with a budget of 10 whose statement is still running at time
    20, when the progress handler is called. *)
Definition timed_out_read : St :=
  let s := new_state [slow_response] [0; 20] in
  set_conn (set_timeoutLimit 10 (conn s)) s.

(** The engine's answer to a BEGIN CONCURRENT that it refuses. *)
Definition busy_response : Response :=
  {| r_callbacks := []; r_code := 5 (* SQLITE_BUSY *); r_rows := [];
     r_changes := 0; r_schema := 0; r_autorollback := false |}.

(** One connection whose engine refuses the first BEGIN CONCURRENT, and
    the calls that begin twice and roll back. *)
Definition refused_connection : World :=
  let s := new_state [busy_response; default_response; default_response] [] in
  {| w_conns := [(conn s, db s)]; w_shared := shared s; w_clock := [];
     w_attempts := 0; w_trace := [] |}.

Definition begin_twice : list Action :=
  [Act 0 (CallBeginTransaction SHARED); Act 0 (CallBeginTransaction SHARED);
   Act 0 CallRollback].

(** A write inside a transaction, with a budget of 10, that the progress
    handler interrupts at time 20; the engine gives up the transaction. *)
Definition timed_out_write : St :=
  let late := {| r_callbacks := [CbProgress]; r_code := SQLITE_OK; r_rows := [];
                 r_changes := 0; r_schema := 0; r_autorollback := true |} in
  let s := new_state [default_response; default_response; late] [0; 0; 0; 20] in
  let s1 := after (beginTransaction SHARED s) s in
  set_conn (set_timeoutLimit 10 (conn s1)) s1.

(** A transaction that has begun and written nothing yet. *)
Definition sample_begun : St :=
  let s := new_state [default_response; default_response; one_change] [] in
  after (beginTransaction SHARED s) s.

(** The engine's answer to "SELECT v FROM t;", a statement without
    functions, on a table with one row. *)
Definition one_row : Response :=
  {| r_callbacks := [CbAuthorize select_statement]; r_code := SQLITE_OK;
     r_rows := [["7"]]; r_changes := 0; r_schema := 0; r_autorollback := false |}.



(** What the engine reports to the authorizer for BEGIN, COMMIT and
    ROLLBACK. *)
Definition transaction_statement (operation : string) : AuthAction :=
  {| actionCode := SQLITE_TRANSACTION; detail1 := Some operation; detail2 := None;
     detail3 := None; detail4 := None |}.

(** The engine's answer to a ROLLBACK, with its report to the authorizer. *)
Definition rollback_response : Response :=
  {| r_callbacks := [CbAuthorize (transaction_statement "ROLLBACK")]; r_code := SQLITE_OK;
     r_rows := []; r_changes := 0; r_schema := 0; r_autorollback := false |}.

(** A connection inside a transaction on which a whitelist is set. *)
Definition whitelisted_transaction : St :=
  let s := new_state [default_response; rollback_response] [] in
  let s1 := after (beginTransaction SHARED s) s in
  set_conn (set_whitelist (whitelist whitelisted) (conn s1)) s1.

(** * Reasoning about member functions *)

Section Keeps.
Context {T : Type} (proj : St → T).

Lemma keeps_ret {A} (a : A) : keeps proj (mret a).
Proof. intros s s' [= <-]. reflexivity. Qed.

Lemma keeps_bind {A B} (m : M A) (f : A → M B) :
  keeps proj m → (∀ a, keeps proj (f a)) → keeps proj (m ≫= f).
Proof.
  intros Hm Hf s s'. unfold mbind, M_bind.
  destruct (m s) as [a s1| e s1 | |] eqn:E; cbn; try discriminate.
  - intros H. rewrite (Hf a s1 s' H). apply Hm. rewrite E. reflexivity.
  - intros [= <-]. apply Hm. rewrite E. reflexivity.
Qed.

Lemma keeps_when (b : bool) (m : M unit) : keeps proj m → keeps proj (when b m).
Proof. destruct b; [trivial | intros _; apply keeps_ret]. Qed.

Lemma keeps_getConn : keeps proj getConn.
Proof. intros s s' [= <-]. reflexivity. Qed.

Lemma keeps_getShared : keeps proj getShared.
Proof. intros s s' [= <-]. reflexivity. Qed.

Lemma keeps_getDb : keeps proj getDb.
Proof. intros s s' [= <-]. reflexivity. Qed.

Lemma keeps_SASSERT (b : bool) : keeps proj (SASSERT b).
Proof. intros s s'. unfold SASSERT. destruct b; [intros [= <-]; reflexivity | discriminate]. Qed.

Lemma keeps_throw {A} (e : Exception) : keeps proj (throw (A := A) e).
Proof. intros s s' [= <-]. reflexivity. Qed.

Lemma keeps_abort {A} : keeps proj (λ _, Abort (A := A)).
Proof. intros s s'. discriminate. Qed.

Lemma keeps_fetch (r : SQResult) (i j : nat) : keeps proj (fetch r i j).
Proof.
  intros s s'. unfold fetch.
  destruct (cell r i j); [intros [= <-]; reflexivity | discriminate].
Qed.

Lemma keeps_setConn (f : SQLite → SQLite) :
  (∀ s, proj (set_conn (f (conn s)) s) = proj s) → keeps proj (setConn f).
Proof. intros H s s' [= <-]. apply H. Qed.

Lemma keeps_setShared (f : SharedData → SharedData) :
  (∀ s, proj (set_shared (f (shared s)) s) = proj s) → keeps proj (setShared f).
Proof. intros H s s' [= <-]. apply H. Qed.

Lemma keeps_setDb (f : sqlite3 → sqlite3) :
  (∀ s, proj (set_db (f (db s)) s) = proj s) → keeps proj (setDb f).
Proof. intros H s s' [= <-]. apply H. Qed.

Lemma keeps_emit (e : Event) :
  (∀ s, proj (set_trace (trace s ++ [e]) s) = proj s) → keeps proj (emit e).
Proof. intros H s s' [= <-]. apply H. Qed.

Lemma keeps_STimeNow :
  (∀ s v, proj (set_clock v s) = proj s) → keeps proj STimeNow.
Proof. intros H s s' [= <-]. apply H. Qed.

Lemma keeps_fetch_add :
  (∀ s v, proj (set_transactionAttemptCount v s) = proj s) →
  keeps proj transactionAttemptCount_fetch_add.
Proof. intros H s s' [= <-]. apply H. Qed.

Lemma keeps_next_response :
  (∀ s v, proj (set_db v s) = proj s) → keeps proj next_response.
Proof. intros H s s' [= <-]. apply H. Qed.

End Keeps.

(** What the authorizer can change in its object. *)
Lemma authorize_frame (a : AuthAction) (c c' : SQLite) (rc : Z) :
  _authorize a c = Some (rc, c') →
  ∃ q d, c' = set_isDeterministicQuery d (set_rewrittenQuery q c).
Proof.
  unfold _authorize. intros H.
  destruct (_enableRewrite c && negb (_currentlyRunningRewritten c)).
  - destruct (_rewriteHandler c) as [h|]; [|discriminate]. cbn in H.
    destruct (h (actionCode a) (detail1 a) (_rewrittenQuery c)) as [v q]. cbn in H.
    destruct v.
    + injection H as _ <-. exists q, (_isDeterministicQuery c). reflexivity.
    + match type of H with context [whitelist ?x] => set (c1 := x) in * end.
      assert (Hc1 : ∃ d, c1 = set_isDeterministicQuery d (set_rewrittenQuery q c)).
      { subst c1. destruct (detail2 a); [|eexists; reflexivity].
        match goal with |- context [if ?b then _ else _] => destruct b end;
          eexists; reflexivity. }
      destruct Hc1 as [d Hd]. exists q, d.
      enough (c' = c1) as -> by exact Hd.
      clear Hd. clearbody c1.
      destruct (detail1 a), (detail2 a); cbn in H;
      repeat match type of H with
             | context [match ?x with _ => _ end] => destruct x; cbn in H
             end; congruence.
  - cbn in H.
    match type of H with context [whitelist ?x] => set (c1 := x) in * end.
    assert (Hc1 : ∃ d, c1 = set_isDeterministicQuery d c).
    { subst c1. destruct (detail2 a); [|eexists; reflexivity].
      match goal with |- context [if ?b then _ else _] => destruct b end;
        eexists; reflexivity. }
    destruct Hc1 as [d Hd]. exists (_rewrittenQuery c), d.
    enough (c' = c1) as -> by exact Hd.
    clear Hd. clearbody c1.
    destruct (detail1 a), (detail2 a); cbn in H;
    repeat match type of H with
           | context [match ?x with _ => _ end] => destruct x; cbn in H
           end; congruence.
Qed.

Lemma unlocks_snoc (t : list Event) (e : Event) :
  unlocks (t ++ [e]) = (unlocks t + if is_unlock e then 1 else 0)%nat.
Proof.
  unfold unlocks. rewrite filter_app, length_app. f_equal.
  destruct e; reflexivity.
Qed.

#[local] Arguments unlocks : simpl never.

Ltac keeps_leaf :=
  intros;
  first [ reflexivity
        | cbn; rewrite unlocks_snoc; cbn; rewrite Nat.add_0_r; reflexivity ].

Ltac frame_auto :=
  lazymatch goal with
  | |- query_frame _ => split; [split | | ]; keeps_leaf
  | |- callback_frame _ => split; keeps_leaf
  end.

Section CallbackFrame.
Context {T : Type} (proj : St → T) (CF : callback_frame proj).

Lemma cf_timeoutError (s : St) (t : Z) :
  proj (set_conn (set_timeoutError t (conn s)) s) = proj s.
Proof.
  exact (cf_conn proj CF s (_rewrittenQuery (conn s)) (_isDeterministicQuery (conn s))
           t (_abandonForCheckpoint (conn s))).
Qed.

Lemma cf_abandonForCheckpoint (s : St) (a : bool) :
  proj (set_conn (set_abandonForCheckpoint a (conn s)) s) = proj s.
Proof.
  exact (cf_conn proj CF s (_rewrittenQuery (conn s)) (_isDeterministicQuery (conn s))
           (_timeoutError (conn s)) a).
Qed.

Lemma keeps_authorizer (a : AuthAction) : keeps proj (_sqliteAuthorizerCallback a).
Proof.
  intros s s'. unfold _sqliteAuthorizerCallback.
  destruct (_authorize a (conn s)) as [[rc c]|] eqn:E; [|discriminate].
  intros [= <-]. destruct (authorize_frame _ _ _ _ E) as (q & d & ->).
  exact (cf_conn proj CF s q d (_timeoutError (conn s)) (_abandonForCheckpoint (conn s))).
Qed.

Lemma keeps_progressHandler : keeps proj _progressHandlerCallback.
Proof.
  unfold _progressHandlerCallback.
  apply keeps_bind; [apply keeps_STimeNow, CF|]. intros now.
  apply keeps_bind; [apply keeps_getConn|]. intros c.
  destruct (_ && _).
  - apply keeps_bind; [|intros; apply keeps_ret].
    apply keeps_setConn. intros s. apply cf_timeoutError.
  - apply keeps_bind; [apply keeps_getShared|]. intros d.
    destruct (negb _); [|apply keeps_ret].
    destruct (_enableCheckpointInterrupt c); [|apply keeps_ret].
    apply keeps_bind; [|intros; apply keeps_ret].
    apply keeps_setConn. intros s. apply cf_abandonForCheckpoint.
Qed.

Lemma keeps_run_callbacks (cbs : list Callback) (ignored : bool) :
  keeps proj (run_callbacks cbs ignored).
Proof.
  revert ignored. induction cbs as [|[a|] cbs IH]; intros ignored; cbn [run_callbacks].
  - apply keeps_ret.
  - apply keeps_bind; [apply keeps_authorizer|]. intros rc.
    destruct (rc =? SQLITE_OK); [apply IH|].
    destruct (rc =? SQLITE_IGNORE); [apply IH | apply keeps_ret].
  - apply keeps_bind; [apply keeps_progressHandler|]. intros rc.
    destruct (rc =? 0); [apply IH | apply keeps_ret].
Qed.

End CallbackFrame.

Lemma keeps_SQuery {T} (proj : St → T) (q : Stmt) :
  query_frame proj → keeps proj (SQuery q).
Proof.
  intros QF. unfold SQuery.
  apply keeps_bind; [apply keeps_next_response, QF|]. intros r.
  apply keeps_bind; [apply keeps_emit; intros; apply QF|]. intros _.
  apply keeps_bind; [apply keeps_run_callbacks, QF|]. intros v.
  assert (Hdb : ∀ f, keeps proj (setDb f)) by (intros f; apply keeps_setDb; intros; apply QF).
  destruct v as [ignored| |].
  - destruct (r_code r =? SQLITE_OK).
    + apply keeps_bind; [apply keeps_getDb|]. intros e.
      destruct (engine_exec q r ignored e) as [[code rows] e'].
      apply keeps_bind; [apply Hdb | intros; apply keeps_ret].
    + apply keeps_bind; [apply keeps_when, Hdb | intros; apply keeps_ret].
  - apply keeps_ret.
  - apply keeps_bind; [apply keeps_when, Hdb | intros; apply keeps_ret].
Qed.

Lemma keeps_commitLock_lock {T} (proj : St → T) :
  (∀ s, proj (set_trace (trace s ++ [EvCommitLock])
                (set_shared (set_commitLock true (shared s)) s)) = proj s) →
  keeps proj commitLock_lock.
Proof.
  intros H s s'. unfold commitLock_lock.
  destruct (commitLock (shared s)); [discriminate|]. intros [= <-]. apply H.
Qed.

(** One step of the structural proof that a function keeps a part of the
    state: binds, branches and the primitive steps. *)
Ltac keeps_step :=
  cbv beta iota;
  lazymatch goal with
  | |- keeps _ (mret _) => apply keeps_ret
  | |- keeps _ (mbind _ _) => apply keeps_bind; [ | intros ? ]
  | |- keeps _ (when _ _) => apply keeps_when
  | |- keeps _ getConn => apply keeps_getConn
  | |- keeps _ getShared => apply keeps_getShared
  | |- keeps _ getDb => apply keeps_getDb
  | |- keeps _ (SASSERT _) => apply keeps_SASSERT
  | |- keeps _ (throw _) => apply keeps_throw
  | |- keeps _ (λ _, Abort) => apply keeps_abort
  | |- keeps _ (fetch _ _ _) => apply keeps_fetch
  | |- keeps _ (setConn _) => apply keeps_setConn; keeps_leaf
  | |- keeps _ (setShared _) => apply keeps_setShared; keeps_leaf
  | |- keeps _ (setDb _) => apply keeps_setDb; keeps_leaf
  | |- keeps _ (emit _) => apply keeps_emit; keeps_leaf
  | |- keeps _ STimeNow => apply keeps_STimeNow; keeps_leaf
  | |- keeps _ transactionAttemptCount_fetch_add => apply keeps_fetch_add; keeps_leaf
  | |- keeps _ (SQuery _) => apply keeps_SQuery; frame_auto
  | |- keeps _ commitLock_lock => apply keeps_commitLock_lock; keeps_leaf
  | |- keeps _ commitLock_unlock => unfold commitLock_unlock
  | |- keeps _ resetTiming => unfold resetTiming
  | |- keeps _ (startTiming _) => unfold startTiming
  | |- keeps _ getCommittedHash => unfold getCommittedHash
  | |- keeps _ getCommitCount => unfold getCommitCount
  | |- keeps _ (_checkInterruptErrors _) => unfold _checkInterruptErrors
  | |- keeps _ (if ?b then _ else _) => destruct b
  | |- keeps _ (match ?x with _ => _ end) => destruct x
  end.

Ltac keeps_auto := repeat keeps_step.

(** ** Running a function step by step *)

Lemma run_bind {A B} (m : M A) (f : A → M B) (s : St) :
  (m ≫= f) s =
    match m s with
    | Ok a s' => f a s'
    | Throw e s' => Throw e s'
    | Abort => Abort
    | Blocked => Blocked
    end.
Proof. reflexivity. Qed.

Lemma bind_assoc {A B C} (m : M A) (g : A → M B) (f : B → M C) (s : St) :
  ((m ≫= g) ≫= f) s = (m ≫= (λ a, g a ≫= f)) s.
Proof. rewrite !run_bind. destruct (m s); reflexivity. Qed.

Lemma bind_ret {A B} (a : A) (f : A → M B) (s : St) : (mret a ≫= f) s = f a s.
Proof. reflexivity. Qed.

Lemma bind_getConn {B} (f : SQLite → M B) (s : St) : (getConn ≫= f) s = f (conn s) s.
Proof. reflexivity. Qed.

Lemma bind_getShared {B} (f : SharedData → M B) (s : St) :
  (getShared ≫= f) s = f (shared s) s.
Proof. reflexivity. Qed.

Lemma bind_getDb {B} (f : sqlite3 → M B) (s : St) : (getDb ≫= f) s = f (db s) s.
Proof. reflexivity. Qed.

Lemma bind_setConn {B} (g : SQLite → SQLite) (f : unit → M B) (s : St) :
  (setConn g ≫= f) s = f () (set_conn (g (conn s)) s).
Proof. reflexivity. Qed.

Lemma bind_setShared {B} (g : SharedData → SharedData) (f : unit → M B) (s : St) :
  (setShared g ≫= f) s = f () (set_shared (g (shared s)) s).
Proof. reflexivity. Qed.

Lemma bind_setDb {B} (g : sqlite3 → sqlite3) (f : unit → M B) (s : St) :
  (setDb g ≫= f) s = f () (set_db (g (db s)) s).
Proof. reflexivity. Qed.

Lemma bind_emit {B} (e : Event) (f : unit → M B) (s : St) :
  (emit e ≫= f) s = f () (set_trace (trace s ++ [e]) s).
Proof. reflexivity. Qed.

Lemma bind_STimeNow {B} (f : Z → M B) (s : St) :
  (STimeNow ≫= f) s = f (default 0 (head (clock s))) (set_clock (tail (clock s)) s).
Proof. reflexivity. Qed.

Lemma bind_fetch_add {B} (f : Z → M B) (s : St) :
  (transactionAttemptCount_fetch_add ≫= f) s =
    f (_transactionAttemptCount s)
      (set_transactionAttemptCount (i64 (_transactionAttemptCount s + 1)) s).
Proof. reflexivity. Qed.

Lemma bind_SASSERT {B} (b : bool) (f : unit → M B) (s : St) :
  (SASSERT b ≫= f) s = if b then f () s else Abort.
Proof. destruct b; reflexivity. Qed.

Lemma bind_throw {A B} (e : Exception) (f : A → M B) (s : St) :
  (throw e ≫= f) s = Throw e s.
Proof. reflexivity. Qed.

Lemma run_ret {A} (a : A) (s : St) : (mret a : M A) s = Ok a s.
Proof. reflexivity. Qed.

Lemma run_setConn (g : SQLite → SQLite) (s : St) :
  setConn g s = Ok () (set_conn (g (conn s)) s).
Proof. reflexivity. Qed.

Lemma run_setShared (g : SharedData → SharedData) (s : St) :
  setShared g s = Ok () (set_shared (g (shared s)) s).
Proof. reflexivity. Qed.

Lemma run_setDb (g : sqlite3 → sqlite3) (s : St) :
  setDb g s = Ok () (set_db (g (db s)) s).
Proof. reflexivity. Qed.

Lemma run_emit (e : Event) (s : St) : emit e s = Ok () (set_trace (trace s ++ [e]) s).
Proof. reflexivity. Qed.

Lemma run_throw {A} (e : Exception) (s : St) : throw (A := A) e s = Throw e s.
Proof. reflexivity. Qed.

(** Projections of updated records. *)
Ltac ssimpl :=
  cbn [
       _filename _maxJournalSize _journalNames _journalName _journalSize _pageLoggingEnabled
       _cacheSize _synchronous _mmapSizeGB _insideTransaction _uncommittedQuery
       _uncommittedHash _mutexLocked _autoRolledBack _abandonForCheckpoint
       _enableCheckpointInterrupt _noopUpdateMode _enableRewrite _currentlyRunningRewritten
       _rewrittenQuery _rewriteHandler _isDeterministicQuery _queryCache _queryCount
       _cacheHits _dbCountAtStart _currentTransactionAttemptCount _beginElapsed _readElapsed
       _writeElapsed _prepareElapsed _commitElapsed _rollbackElapsed _timeoutLimit
       _timeoutStart _timeoutError whitelist set_journalSize set_insideTransaction
       set_uncommittedQuery set_uncommittedHash set_mutexLocked set_autoRolledBack
       set_abandonForCheckpoint set_enableCheckpointInterrupt set_noopUpdateMode
       set_currentlyRunningRewritten set_rewrittenQuery set_isDeterministicQuery
       set_queryCache set_queryCount set_cacheHits set_dbCountAtStart
       set_currentTransactionAttemptCount set_beginElapsed set_readElapsed set_writeElapsed
       set_prepareElapsed set_commitElapsed set_rollbackElapsed set_timeoutLimit
       set_timeoutStart set_timeoutError commitCount lastCommittedHash nextJournalCount
       currentTransactionCount _currentPageCount _checkpointThreadBusy commitLock
       _preparedTransactions _committedTransactions set_commitCount set_lastCommittedHash
       set_nextJournalCount set_currentTransactionCount set_currentPageCount
       set_checkpointThreadBusy set_commitLock set_preparedTransactions
       set_committedTransactions journals txn schema_version total_changes script
       set_journals set_txn set_schema_version set_total_changes set_script conn shared db
       clock _transactionAttemptCount trace set_conn set_shared set_db set_clock
       set_transactionAttemptCount set_trace ].

Ltac ssimpl_in H :=
  cbn [
       _filename _maxJournalSize _journalNames _journalName _journalSize _pageLoggingEnabled
       _cacheSize _synchronous _mmapSizeGB _insideTransaction _uncommittedQuery
       _uncommittedHash _mutexLocked _autoRolledBack _abandonForCheckpoint
       _enableCheckpointInterrupt _noopUpdateMode _enableRewrite _currentlyRunningRewritten
       _rewrittenQuery _rewriteHandler _isDeterministicQuery _queryCache _queryCount
       _cacheHits _dbCountAtStart _currentTransactionAttemptCount _beginElapsed _readElapsed
       _writeElapsed _prepareElapsed _commitElapsed _rollbackElapsed _timeoutLimit
       _timeoutStart _timeoutError whitelist set_journalSize set_insideTransaction
       set_uncommittedQuery set_uncommittedHash set_mutexLocked set_autoRolledBack
       set_abandonForCheckpoint set_enableCheckpointInterrupt set_noopUpdateMode
       set_currentlyRunningRewritten set_rewrittenQuery set_isDeterministicQuery
       set_queryCache set_queryCount set_cacheHits set_dbCountAtStart
       set_currentTransactionAttemptCount set_beginElapsed set_readElapsed set_writeElapsed
       set_prepareElapsed set_commitElapsed set_rollbackElapsed set_timeoutLimit
       set_timeoutStart set_timeoutError commitCount lastCommittedHash nextJournalCount
       currentTransactionCount _currentPageCount _checkpointThreadBusy commitLock
       _preparedTransactions _committedTransactions set_commitCount set_lastCommittedHash
       set_nextJournalCount set_currentTransactionCount set_currentPageCount
       set_checkpointThreadBusy set_commitLock set_preparedTransactions
       set_committedTransactions journals txn schema_version total_changes script
       set_journals set_txn set_schema_version set_total_changes set_script conn shared db
       clock _transactionAttemptCount trace set_conn set_shared set_db set_clock
       set_transactionAttemptCount set_trace ] in H.

(** Run the primitive steps at the head of a computation applied to a state. *)
Ltac mrun :=
  repeat (first [ rewrite bind_assoc | rewrite bind_ret | rewrite bind_getConn
                | rewrite bind_getShared | rewrite bind_getDb | rewrite bind_setConn
                | rewrite bind_setShared | rewrite bind_setDb | rewrite bind_emit
                | rewrite bind_STimeNow | rewrite bind_SASSERT | rewrite bind_throw
                | rewrite bind_fetch_add
                | rewrite run_ret | rewrite run_setConn | rewrite run_setShared
                | rewrite run_setDb | rewrite run_emit | rewrite run_throw ];
          cbv beta);
  ssimpl.

Ltac mrun_in H :=
  repeat (first [ rewrite bind_assoc in H | rewrite bind_ret in H
                | rewrite bind_getConn in H | rewrite bind_getShared in H
                | rewrite bind_getDb in H | rewrite bind_setConn in H
                | rewrite bind_setShared in H | rewrite bind_setDb in H
                | rewrite bind_emit in H | rewrite bind_STimeNow in H
                | rewrite bind_SASSERT in H | rewrite bind_throw in H
                | rewrite bind_fetch_add in H
                | rewrite run_ret in H | rewrite run_setConn in H
                | rewrite run_setShared in H | rewrite run_setDb in H
                | rewrite run_emit in H | rewrite run_throw in H ];
          cbv beta in H);
  ssimpl_in H.

(** Split a bind whose first computation is not a primitive step. *)
Tactic Notation "msplit" hyp(H) "as" simple_intropattern(a) ident(s1) ident(E) :=
  rewrite run_bind in H;
  match type of H with
  | context [match ?o with Ok _ _ => _ | Throw _ _ => _ | Abort => _ | Blocked => _ end] =>
      destruct o as [a s1|? s1| |] eqn:E; try discriminate H
  end.

(** * Noop-update mode *)

(** C7.  In noop-update mode [write] returns true and leaves the whole
    state as it was: no statement reaches the engine (the log of effects
    and the handle are unchanged), and [_uncommittedQuery] keeps its
    contents. *)
Theorem write_noopUpdateMode (query : string) (s : St) :
  _noopUpdateMode (conn s) = true →
  write query s = Ok true s.
Proof.
  intros Hnoop. unfold write. mrun. rewrite Hnoop. reflexivity.
Qed.

Lemma write_noopUpdateMode_witness :
  _noopUpdateMode (conn noop_state) = true ∧
  write "UPDATE t SET v = v + 1;" noop_state = Ok true noop_state.
Proof.
  split; [reflexivity|]. apply write_noopUpdateMode. reflexivity.
Defined.

(** * Rollback outside a transaction *)

(** C9, the claim as stated fails: outside a transaction [rollback] still
    empties the query cache, zeroes the counters and [_dbCountAtStart]
    (which [getDBCountAtStart] returns), and re-enables checkpoint
    interrupts. *)
Lemma rollback_outside_transaction_changes_state :
  _insideTransaction (conn idle_state) = false ∧
  ∃ s', rollback idle_state = Ok () s' ∧
        _dbCountAtStart (conn idle_state) = 7 ∧ _dbCountAtStart (conn s') = 0 ∧
        _queryCache (conn idle_state) !! "SELECT 1;" = Some [["1"]] ∧
        _queryCache (conn s') !! "SELECT 1;" = None ∧
        _enableCheckpointInterrupt (conn idle_state) = false ∧
        _enableCheckpointInterrupt (conn s') = true ∧
        conn s' ≠ conn idle_state.
Proof.
  split; [reflexivity|]. eexists. split; [reflexivity|].
  repeat split. intros H. apply (f_equal _dbCountAtStart) in H. discriminate H.
Qed.

(** C9, amended.  Outside a transaction [rollback] returns without sending
    ROLLBACK, without touching the commit lock, the shared data, the
    handle or the clock, and without any other effect; in the object it
    empties the query cache, sets [_queryCount], [_cacheHits] and
    [_dbCountAtStart] to 0 and [_enableCheckpointInterrupt] to true, and
    leaves every other member alone. *)
Theorem rollback_outside_transaction (s : St) :
  _insideTransaction (conn s) = false →
  rollback s =
    Ok () (set_conn (set_enableCheckpointInterrupt true (set_dbCountAtStart 0
             (set_cacheHits 0 (set_queryCount 0 (set_queryCache ∅ (conn s)))))) s).
Proof.
  intros Hout. unfold rollback. mrun. rewrite Hout. mrun. reflexivity.
Qed.

Lemma rollback_outside_transaction_witness :
  _insideTransaction (conn idle_state) = false ∧
  rollback idle_state =
    Ok () (set_conn (set_enableCheckpointInterrupt true (set_dbCountAtStart 0
             (set_cacheHits 0 (set_queryCount 0 (set_queryCache ∅ (conn idle_state))))))
             idle_state).
Proof.
  split; [reflexivity|]. apply rollback_outside_transaction. reflexivity.
Defined.


(** * Timeout against checkpoint pressure *)

#[local] Arguments u64 : simpl never.
#[local] Arguments i64 : simpl never.
#[local] Arguments i32 : simpl never.

(** Case analysis on the branch at the head of a computation. *)
Ltac mcase :=
  match goal with
  | |- context [@mbind M _ _ _ _ (if ?b then _ else _) _] => destruct b eqn:?
  | |- context [@mbind M _ _ _ _ (match ?x with _ => _ end) _] => destruct x eqn:?
  | |- context [(if ?b then _ else _) _] => destruct b eqn:?
  end.

(** Whatever the timeout members say, a set [_abandonForCheckpoint] makes
    [_checkInterruptErrors] throw [checkpoint_required_error]: the second
    assignment to [errorCode] overwrites the first. *)
Lemma checkInterruptErrors_abandon (error : string) (s : St) :
  _abandonForCheckpoint (conn s) = true →
  throws_checkpoint (_checkInterruptErrors error s).
Proof.
  intros Habandon. unfold _checkInterruptErrors, resetTiming, when.
  repeat first [ progress mrun | progress cbn | rewrite Habandon | mcase ];
    eexists; reflexivity.
Qed.

(** C2, the code at the failing input: the time limit is exceeded and the
    checkpoint flag is set; [_checkInterruptErrors] records the timeout
    (it resets the timing members) and then throws
    [checkpoint_required_error], not [timeout_error]. *)
Theorem checkInterruptErrors_checkpoint_beats_timeout :
  _timeoutLimit (conn late_and_abandoned) = 10 ∧
  clock late_and_abandoned = [20] ∧
  _abandonForCheckpoint (conn late_and_abandoned) = true ∧
  ∃ s', _checkInterruptErrors "SQLite::read" late_and_abandoned
          = Throw checkpoint_required_error s' ∧
        _timeoutLimit (conn s') = 0 ∧ _abandonForCheckpoint (conn s') = false.
Proof.
  do 3 (split; [reflexivity|]). eexists.
  split; [vm_compute; reflexivity|]. split; reflexivity.
Qed.

(** The same through [read]: the budget of 10 starts at time 0 while the
    checkpoint thread is busy; the progress handler runs at time 5 and
    yields to the checkpoint; when the engine returns the clock reads 20.
    The read ends with [checkpoint_required_error]. *)
Example read_checkpoint_beats_timeout :
  let interrupted :=
    {| r_callbacks := [CbProgress]; r_code := SQLITE_OK; r_rows := [];
       r_changes := 0; r_schema := 0; r_autorollback := false |} in
  let s := set_shared (set_checkpointThreadBusy 1 new_SharedData)
             (new_state [interrupted] [0; 1; 5; 20]) in
  ∃ s', (startTiming 10;; read "SELECT * FROM big;") s
          = Throw checkpoint_required_error s'.
Proof.
  cbv zeta. eexists. vm_compute. reflexivity.
Qed.

(** * The journal table of a copied connection *)

(** The index the copy constructor computes is the counter modulo the
    number of journal tables: subtracting and adding 1 cancel. *)
Lemma journal_index_mod (count size : Z) :
  0 < size < 2 ^ 64 → journal_index count size = u64 count `mod` size.
Proof.
  intros Hsize. unfold journal_index, u64.
  rewrite Zplus_mod_idemp_l.
  replace (_ - 1 + 1) with ((count `mod` 2 ^ 64) `mod` size) by lia.
  apply Z.mod_small.
  pose proof (Z.mod_pos_bound (count `mod` 2 ^ 64) size ltac:(lia)). lia.
Qed.

(** C5, the code at the failing input: with the three journal tables
    "journal", "journal0000", "journal0001" and [nextJournalCount] = 0,
    the first copy-constructed connection is assigned index 0 % 3 = 0,
    the plain "journal" table, where the claim has index (0 % 2) + 1 and
    "journal0000". *)
Theorem copy_constructor_assigns_plain_journal :
  let s := new_state [] [] in
  _journalNames (conn s) = ["journal"; "journal0000"; "journal0001"] ∧
  nextJournalCount (shared s) = 0 ∧
  ∃ c s', SQLite_copy (conn s) s = Ok c s' ∧
          _journalName c = "journal" ∧
          nextJournalCount (shared s') = 1 ∧
          _journalNames (conn s) !! Z.to_nat ((0 `mod` (3 - 1)) + 1) = Some "journal0000".
Proof.
  cbv zeta. do 2 (split; [reflexivity|]). do 2 eexists.
  split; [vm_compute; reflexivity|]. split; [reflexivity|]. split; reflexivity.
Qed.

(** * The whitelist policy of the authorizer *)

Lemma mutation_actions_disallowed (code : Z) :
  code ∈ mutation_actions ↔ code ∈ disallowed_actions.
Proof.
  assert (H : (list_to_set mutation_actions : gset Z) = list_to_set disallowed_actions)
    by (vm_compute; reflexivity).
  rewrite <- (elem_of_list_to_set (C := gset Z) code mutation_actions).
  rewrite <- (elem_of_list_to_set (C := gset Z) code disallowed_actions).
  rewrite H. reflexivity.
Qed.

Lemma tolower_not_upper (a : ascii) : isupper a = false → tolower a = a.
Proof. unfold tolower. intros ->. reflexivity. Qed.

(** [::isupper] holds of the upper-case letters, and [::tolower] takes each
    to its lower-case letter. *)
Lemma isupper_case_pairs (a : ascii) : isupper a = true → (a, tolower a) ∈ case_pairs.
Proof.
  destruct a as [[] [] [] [] [] [] [] []]; intros H; vm_compute in H;
    try discriminate H; apply (bool_decide_unpack _); vm_compute; exact I.
Qed.

Lemma case_pairs_tolower (a b : ascii) :
  (a, b) ∈ case_pairs → isupper a = true ∧ tolower a = b.
Proof.
  intros Hin. vm_compute in Hin.
  repeat (apply elem_of_cons in Hin as [[= -> ->]|Hin]; [split; reflexivity|]).
  inversion Hin.
Qed.

Lemma tolower_same_letter (a b : ascii) :
  isupper b = false → tolower a = b ↔ same_letter a b.
Proof.
  intros Hb. unfold same_letter. split.
  - intros <-. destruct (isupper a) eqn:Ha; [right; left; apply isupper_case_pairs, Ha|].
    left. symmetry. apply tolower_not_upper, Ha.
  - intros [->|[Hin|Hin]].
    + apply tolower_not_upper, Hb.
    + apply case_pairs_tolower, Hin.
    + apply case_pairs_tolower in Hin as [Hup _]. congruence.
Qed.

(** Lowering a string gives a lower-case string exactly when the two are
    equal up to case. *)
Lemma SToLower_same_ignoring_case (s t : string) :
  no_upper t = true → SToLower s = t ↔ same_ignoring_case s t.
Proof.
  revert t. induction s as [|a s IH]; intros [|b t]; cbn; try (intuition congruence).
  intros [Hb Ht]%andb_prop. apply negb_true_iff in Hb.
  rewrite <- (IH t Ht), <- (tolower_same_letter a b Hb).
  split; [intros [= -> ->]; auto | intros [-> ->]; reflexivity].
Qed.

Lemma authorize_silent (a : AuthAction) (c : SQLite) :
  rewrite_silent a c →
  ∃ c1, whitelist c1 = whitelist c ∧
    _authorize a c =
      match whitelist c with
      | None => Some (SQLITE_OK, c1)
      | Some allowed =>
          if bool_decide (actionCode a ∈ disallowed_actions) then Some (SQLITE_DENY, c1)
          else if bool_decide (actionCode a ∈ allowed_actions) then Some (SQLITE_OK, c1)
          else if actionCode a =? SQLITE_PRAGMA then
            normalizedTable ← SToLower <$> detail1 a;
            if String.eqb normalizedTable "schema_version" &&
               bool_decide (detail2 a = None)
            then Some (SQLITE_OK, c1)
            else Some (SQLITE_DENY, c1)
          else if actionCode a =? SQLITE_READ then
            table ← detail1 a;
            match allowed !! table with
            | Some columns =>
                column ← detail2 a;
                if bool_decide (column ∈ columns) then Some (SQLITE_OK, c1)
                else Some (SQLITE_IGNORE, c1)
            | None => Some (SQLITE_IGNORE, c1)
            end
          else Some (SQLITE_DENY, c1)
      end.
Proof.
  intros Hsilent. unfold _authorize.
  assert (Hstep : ∃ c0, whitelist c0 = whitelist c ∧
            (if _enableRewrite c && negb (_currentlyRunningRewritten c) then
               handler ← _rewriteHandler c;
               let '(verdict, rewritten) :=
                 handler (actionCode a) (detail1 a) (_rewrittenQuery c) in
               Some (verdict, set_rewrittenQuery rewritten c)
             else Some (false, c)) = Some (false, c0)).
  { destruct Hsilent as [->|[->|(h & -> & Hh)]].
    - exists c. split; reflexivity.
    - exists c. rewrite andb_false_r. split; reflexivity.
    - destruct (_ && _); [|exists c; split; reflexivity]. cbn.
      destruct (h _ _ _) as [v q]. cbn in Hh. subst v.
      exists (set_rewrittenQuery q c). split; reflexivity. }
  destruct Hstep as (c0 & Hwl & ->). cbn.
  match goal with |- context [Some (SQLITE_IGNORE, ?x)] => set (c1 := x) end.
  assert (Hc1 : whitelist c1 = whitelist c).
  { subst c1. rewrite <- Hwl. destruct (detail2 a); [|reflexivity].
    match goal with |- context [if ?b then _ else _] => destruct b end; reflexivity. }
  exists c1. split; [exact Hc1|]. rewrite Hc1. reflexivity.
Qed.

(** C8, the claim as stated fails: on a connection with a whitelist whose
    rewrite handler accepts, SELECT and the READ of a whitelisted column
    are answered DENY, not OK. *)
Lemma authorize_rewrite_denies_select :
  whitelist rewriting_whitelisted = Some {[ "accounts" := {[ "name"; "email" ]} ]} ∧
  verdict select_statement rewriting_whitelisted = Some SQLITE_DENY ∧
  verdict (read_column "accounts" "name") rewriting_whitelisted = Some SQLITE_DENY ∧
  SQLITE_DENY ≠ SQLITE_OK.
Proof. repeat split. discriminate. Qed.

(** C8, amended.  When the rewrite step denies the action, [_authorize]
    returns DENY whatever the action and the whitelist.  When the rewrite
    step is silent, the value of [_authorize] is the whitelist policy.
    With a whitelist: DENY for the mutation and DDL actions; OK for SELECT,
    ANALYZE and FUNCTION; for PRAGMA, OK when the pragma name is
    schema_version up to case and there is no value, DENY otherwise; for
    READ, OK when the whitelist has the column under the table, IGNORE
    otherwise; DENY for every other action code.  Without a whitelist:
    OK. *)
Theorem authorize_whitelist_policy (a : AuthAction) (c : SQLite) :
  (rewrite_denies a c → verdict a c = Some SQLITE_DENY) ∧
  (rewrite_silent a c →
  (∀ allowed, whitelist c = Some allowed →
     (actionCode a ∈ mutation_actions → verdict a c = Some SQLITE_DENY) ∧
     (actionCode a ∈ [SQLITE_SELECT; SQLITE_ANALYZE; SQLITE_FUNCTION] →
        verdict a c = Some SQLITE_OK) ∧
     (actionCode a = SQLITE_PRAGMA → ∀ name, detail1 a = Some name →
        (same_ignoring_case name "schema_version" ∧ detail2 a = None →
           verdict a c = Some SQLITE_OK) ∧
        (¬ (same_ignoring_case name "schema_version" ∧ detail2 a = None) →
           verdict a c = Some SQLITE_DENY)) ∧
     (actionCode a = SQLITE_READ → ∀ table column,
        detail1 a = Some table → detail2 a = Some column →
        ((∃ columns, allowed !! table = Some columns ∧ column ∈ columns) →
           verdict a c = Some SQLITE_OK) ∧
        (¬ (∃ columns, allowed !! table = Some columns ∧ column ∈ columns) →
           verdict a c = Some SQLITE_IGNORE)) ∧
     (actionCode a ∉ mutation_actions →
      actionCode a ∉ [SQLITE_SELECT; SQLITE_ANALYZE; SQLITE_FUNCTION;
                      SQLITE_PRAGMA; SQLITE_READ] →
        verdict a c = Some SQLITE_DENY)) ∧
  (whitelist c = None → verdict a c = Some SQLITE_OK)).
Proof.
  split.
  { intros (Hon & Hrunning & handler & Hhandler & Haccepts).
    unfold verdict, _authorize. rewrite Hon, Hrunning, Hhandler. cbn.
    destruct (handler _ _ _) as [v q]. cbn in Haccepts. subst v. reflexivity. }
  intros Hsilent. destruct (authorize_silent a c Hsilent) as (c1 & _ & Hrun).
  unfold verdict. rewrite Hrun. clear Hrun Hsilent. split.
  - intros allowed ->. refine (conj _ (conj _ (conj _ (conj _ _)))).
    + intros Hin%mutation_actions_disallowed.
      rewrite (bool_decide_eq_true_2 (actionCode a ∈ disallowed_actions)) by exact Hin.
      reflexivity.
    + intros Hin.
      destruct (bool_decide (actionCode a ∈ disallowed_actions)) eqn:Hd.
      * exfalso. apply bool_decide_eq_true_1 in Hd. revert Hin Hd.
        generalize (actionCode a). intros code.
        rewrite !elem_of_cons, !elem_of_nil.
        intros [->|[->|[->|[]]]] Hd; vm_compute in Hd;
          repeat (apply elem_of_cons in Hd as [Hd|Hd]; [discriminate Hd|]);
          inversion Hd.
      * rewrite (bool_decide_eq_true_2 (actionCode a ∈ allowed_actions))
          by exact Hin. reflexivity.
    + intros Hcode name Hname. rewrite Hcode, Hname.
      change (bool_decide (SQLITE_PRAGMA ∈ disallowed_actions)) with false.
      change (bool_decide (SQLITE_PRAGMA ∈ allowed_actions)) with false.
      cbn. split.
      * intros [Hcase Hvalue]. rewrite Hvalue.
        apply SToLower_same_ignoring_case in Hcase; [|reflexivity].
        rewrite Hcase. reflexivity.
      * intros Hnot.
        destruct (String.eqb_spec (SToLower name) "schema_version") as [Hlow|Hlow];
          [|reflexivity].
        destruct (detail2 a) eqn:Hvalue; [reflexivity|].
        exfalso. apply Hnot. split; [|reflexivity].
        apply SToLower_same_ignoring_case; [reflexivity | exact Hlow].
    + intros Hcode table column Htable Hcolumn.
      rewrite Hcode, Htable, Hcolumn.
      change (bool_decide (SQLITE_READ ∈ disallowed_actions)) with false.
      change (bool_decide (SQLITE_READ ∈ allowed_actions)) with false.
      cbn. split.
      * intros (columns & Hcols & Hin). rewrite Hcols. cbn.
        rewrite bool_decide_eq_true_2 by exact Hin. reflexivity.
      * intros Hnot.
        destruct (allowed !! table) as [columns|] eqn:Hcols; [|reflexivity]. cbn.
        case_bool_decide as Hin; [|reflexivity].
        exfalso. apply Hnot. exists columns. split; [reflexivity | exact Hin].
    + intros Hmut Hother.
      rewrite mutation_actions_disallowed in Hmut.
      case_bool_decide; [contradiction|].
      rewrite !not_elem_of_cons in Hother.
      destruct Hother as (Hsel & Hana & Hfun & Hpragma & Hread & _).
      case_bool_decide as Hallowed.
      { exfalso. unfold allowed_actions in Hallowed.
        rewrite !elem_of_cons, elem_of_nil in Hallowed. tauto. }
      apply Z.eqb_neq in Hpragma, Hread. rewrite Hpragma, Hread. reflexivity.
  - intros ->. reflexivity.
Qed.

Lemma authorize_whitelist_policy_witness :
  rewrite_silent (read_column "accounts" "name") whitelisted ∧
  verdict (read_column "accounts" "name") whitelisted = Some SQLITE_OK.
Proof.
  assert (Hsilent : rewrite_silent (read_column "accounts" "name") whitelisted)
    by (left; reflexivity).
  split; [exact Hsilent|].
  destruct (proj2 (authorize_whitelist_policy _ _) Hsilent) as [Hlist _].
  destruct (Hlist _ eq_refl) as (_ & _ & _ & Hread & _).
  apply (Hread eq_refl "accounts" "name" eq_refl eq_refl).
  exists {[ "name"; "email" ]}. split; [reflexivity|].
  apply elem_of_union_l, elem_of_singleton. reflexivity.
Defined.

(** ** How a function cannot end *)

Section Never.
Context (k : Kind) (Hk : k ≠ Returns).

Lemma never_returning {A} (m : M A) : (∀ s, ∃ a s', m s = Ok a s') → never k m.
Proof. intros H s. destruct (H s) as (a & s' & ->). cbn. congruence. Qed.

Lemma never_ret {A} (a : A) : never k (mret a : M A).
Proof. apply never_returning. intros s. do 2 eexists. reflexivity. Qed.

Lemma never_bind {A B} (m : M A) (f : A → M B) :
  never k m → (∀ a, never k (f a)) → never k (m ≫= f).
Proof.
  intros Hm Hf s. rewrite run_bind. specialize (Hm s).
  destruct (m s) as [a s1|e s1| |]; [apply Hf | exact Hm..].
Qed.

Lemma never_when (b : bool) (m : M unit) : never k m → never k (when b m).
Proof. destruct b; [trivial | intros _; apply never_ret]. Qed.

Lemma never_SASSERT (b : bool) : k ≠ Aborts → never k (SASSERT b).
Proof. intros Ha s. unfold SASSERT. destruct b; cbn; congruence. Qed.

Lemma never_abort {A} : k ≠ Aborts → never k (λ _, Abort (A := A)).
Proof. intros Ha s. cbn. congruence. Qed.

Lemma never_fetch (r : SQResult) (i j : nat) : k ≠ Aborts → never k (fetch r i j).
Proof. intros Ha s. unfold fetch. destruct (cell r i j); cbn; congruence. Qed.

Lemma never_commitLock_lock : k ≠ Blocks → never k commitLock_lock.
Proof.
  intros Hb s. unfold commitLock_lock. destruct (commitLock (shared s)); cbn; congruence.
Qed.

Lemma never_authorizer (a : AuthAction) : k ≠ Aborts → never k (_sqliteAuthorizerCallback a).
Proof.
  intros Ha s. unfold _sqliteAuthorizerCallback.
  destruct (_authorize a (conn s)) as [[rc c]|]; cbn; congruence.
Qed.

End Never.

Ltac never_leaf := fail.

Ltac never_step :=
  cbv beta iota;
  lazymatch goal with
  | |- never _ (mret _) => apply never_ret; discriminate
  | |- never _ (mbind _ _) => apply never_bind; [ | intros ? ]
  | |- never _ (when _ _) => apply never_when; [ discriminate | ]
  | |- never _ (SASSERT _) => apply never_SASSERT; discriminate
  | |- never _ (λ _, Abort) => apply never_abort; discriminate
  | |- never _ (fetch _ _ _) => apply never_fetch; discriminate
  | |- never _ commitLock_lock => apply never_commitLock_lock; discriminate
  | |- never _ (_sqliteAuthorizerCallback _) => apply never_authorizer; discriminate
  | |- never _ getConn => apply never_returning; [discriminate | intros; do 2 eexists; reflexivity]
  | |- never _ getShared =>
      apply never_returning; [discriminate | intros; do 2 eexists; reflexivity]
  | |- never _ getDb => apply never_returning; [discriminate | intros; do 2 eexists; reflexivity]
  | |- never _ (setConn _) =>
      apply never_returning; [discriminate | intros; do 2 eexists; reflexivity]
  | |- never _ (setShared _) =>
      apply never_returning; [discriminate | intros; do 2 eexists; reflexivity]
  | |- never _ (setDb _) =>
      apply never_returning; [discriminate | intros; do 2 eexists; reflexivity]
  | |- never _ (emit _) =>
      apply never_returning; [discriminate | intros; do 2 eexists; reflexivity]
  | |- never _ STimeNow =>
      apply never_returning; [discriminate | intros; do 2 eexists; reflexivity]
  | |- never _ next_response =>
      apply never_returning; [discriminate | intros; do 2 eexists; reflexivity]
  | |- never _ transactionAttemptCount_fetch_add =>
      apply never_returning; [discriminate | intros; do 2 eexists; reflexivity]
  | |- never _ commitLock_unlock => unfold commitLock_unlock
  | |- never _ resetTiming => unfold resetTiming
  | |- never _ getCommittedHash => unfold getCommittedHash
  | |- never _ getCommitCount => unfold getCommitCount
  | |- never _ _progressHandlerCallback => unfold _progressHandlerCallback
  | |- never _ (if ?b then _ else _) => destruct b
  | |- never _ (match ?x with _ => _ end) => destruct x
  | |- never _ _ => never_leaf
  end.

Ltac never_auto := repeat never_step.

Lemma never_run_callbacks (k : Kind) (cbs : list Callback) (ignored : bool) :
  k ≠ Returns → k ≠ Aborts → never k (run_callbacks cbs ignored).
Proof.
  intros Hr Ha. revert ignored.
  induction cbs as [|[a|] cbs IH]; intros ignored; cbn [run_callbacks].
  - apply never_ret, Hr.
  - apply never_bind; [apply never_authorizer; assumption|]. intros rc.
    destruct (rc =? SQLITE_OK); [apply IH|].
    destruct (rc =? SQLITE_IGNORE); [apply IH | apply never_ret, Hr].
  - apply never_bind.
    + unfold _progressHandlerCallback.
      repeat first [ apply never_bind; [ | intros ?]
                   | apply never_ret; exact Hr
                   | apply never_returning; [exact Hr | intros; do 2 eexists; reflexivity]
                   | match goal with |- never _ (if ?b then _ else _) => destruct b end ].
    + intros rc. destruct (rc =? 0); [apply IH | apply never_ret, Hr].
Qed.

Lemma quiet_SQuery (q : Stmt) : quiet (SQuery q).
Proof. unfold SQuery. never_auto. apply never_run_callbacks; discriminate. Qed.

Lemma unblocked_SQuery (q : Stmt) : unblocked (SQuery q).
Proof. unfold SQuery. never_auto. apply never_run_callbacks; discriminate. Qed.

Ltac never_leaf ::= first [ apply quiet_SQuery | apply unblocked_SQuery ].

Lemma quiet_rollback : quiet rollback.
Proof. unfold rollback. never_auto. Qed.

Lemma unblocked_rollback : unblocked rollback.
Proof. unfold rollback. never_auto. Qed.

Ltac never_leaf ::=
  first [ apply quiet_SQuery | apply unblocked_SQuery
        | apply quiet_rollback | apply unblocked_rollback ].

Lemma quiet_commit : quiet commit.
Proof. unfold commit. never_auto. Qed.

Lemma unblocked_commit : unblocked commit.
Proof. unfold commit. never_auto. Qed.

Lemma quiet_prepare (SHashSHA1 SToHex : string → string) : quiet (prepare SHashSHA1 SToHex).
Proof. unfold prepare. never_auto. Qed.

Lemma quiet_beginTransaction (type : TRANSACTION_TYPE) : quiet (beginTransaction type).
Proof. unfold beginTransaction. destruct type; never_auto. Qed.

Lemma quiet_getCommit (names : list string) (id : Z) : quiet (getCommit names id).
Proof. unfold getCommit. never_auto. Qed.

(** Refute [E : m s = Throw e s'] for a function that does not throw. *)
Ltac no_throw E :=
  match type of E with
  | ?m ?s = Throw _ _ =>
      let Q := fresh "Q" in
      assert (Q : quiet m) by never_auto;
      specialize (Q s); rewrite E in Q; exact (Q eq_refl)
  end.

(** * Where a transaction stands *)

(** From [m s = Ok a s1] and the fact that [m] keeps [txn_view]. *)
Ltac view_of E :=
  match type of E with
  | ?m ?s = Ok ?a ?s1 =>
      let K := fresh "K" in
      assert (K : keeps txn_view m) by (unfold txn_view; keeps_auto);
      specialize (K s s1); rewrite E in K; specialize (K eq_refl);
      unfold txn_view in K;
      injection K as Vshared Vunlocks Vinside Vhash Vquery Vlocked Vcache
  end.

(** [rollback] does not throw, and when it returns inside a transaction
    the transaction is over: the uncommitted buffers are empty and the
    commit lock is released if this connection held it. *)
Lemma rollback_post (s s' : St) :
  post (rollback s) = Some s' →
  rollback s = Ok () s' ∧
  _queryCache (conn s') = ∅ ∧
  _insideTransaction (conn s') = false ∧
  if _insideTransaction (conn s) then
    _uncommittedHash (conn s') = "" ∧ _uncommittedQuery (conn s') = "" ∧
    _mutexLocked (conn s') = false ∧
    shared s' =
      set_currentTransactionCount (i32 (currentTransactionCount (shared s) - 1))
        (if _mutexLocked (conn s) then set_commitLock false (shared s) else shared s) ∧
    unlocks (trace s') = (unlocks (trace s) + if _mutexLocked (conn s) then 1 else 0)%nat
  else txn_view s' = (shared s, unlocks (trace s), false, _uncommittedHash (conn s),
                      _uncommittedQuery (conn s), _mutexLocked (conn s), ∅).
Proof.
  destruct (_insideTransaction (conn s)) eqn:Hin.
  - unfold rollback. mrun. rewrite Hin. mrun. intros H.
    msplit H as [] s1 E.
    + rewrite run_bind, E. view_of E. revert H. mrun. unfold when.
      rewrite Vlocked.
      destruct (_mutexLocked (conn s)); unfold commitLock_unlock; mrun;
        intros [= <-]; ssimpl; rewrite ?unlocks_snoc, Vshared, Vunlocks; cbn;
        repeat (split; [first [reflexivity | assumption]|]); lia.
    + exfalso. no_throw E.
  - unfold rollback. mrun. rewrite Hin. mrun. intros H.
    injection H as <-. repeat split; ssimpl; try reflexivity; try exact Hin.
    unfold txn_view. ssimpl. rewrite Hin. reflexivity.
Qed.

(** From [E : m s1 = Ok a s2], the equation [K : txn_view s2 = txn_view s1],
    written out. *)
Ltac view_eq E K :=
  match type of E with
  | ?m ?s1 = Ok ?a ?s2 =>
      assert (K : keeps txn_view m) by (unfold txn_view; keeps_auto);
      specialize (K s1 s2); rewrite E in K; specialize (K eq_refl);
      unfold txn_view in K; ssimpl_in K
  end.

Lemma incrementCommit_fields (hash : string) (d : SharedData) :
  currentTransactionCount (incrementCommit hash d) = currentTransactionCount d ∧
  commitLock (incrementCommit hash d) = commitLock d ∧
  nextJournalCount (incrementCommit hash d) = nextJournalCount d ∧
  commitCount (incrementCommit hash d) = u64 (commitCount d + 1) ∧
  lastCommittedHash (incrementCommit hash d) = hash.
Proof.
  unfold incrementCommit, commitTransactionInfo. ssimpl.
  destruct (_preparedTransactions d !! u64 (commitCount d + 1)); repeat split.
Qed.

Lemma prepareTransactionInfo_fields (id : Z) (q h : string) (n : Z) (d : SharedData) :
  commitCount (prepareTransactionInfo id q h n d) = commitCount d ∧
  lastCommittedHash (prepareTransactionInfo id q h n d) = lastCommittedHash d ∧
  commitLock (prepareTransactionInfo id q h n d) = commitLock d ∧
  _preparedTransactions (prepareTransactionInfo id q h n d) =
    <[id := (q, h, n)]> (_preparedTransactions d).
Proof. repeat split. Qed.

#[local] Opaque incrementCommit prepareTransactionInfo.

(** What a returning [commit] has done.  On SQLITE_OK the commit is
    published, the lock released and the transaction over; on
    SQLITE_BUSY_SNAPSHOT nothing of the transaction has moved. *)
Lemma commit_post (s s' : St) (rc : Z) :
  commit s = Ok rc s' →
  _insideTransaction (conn s) = true ∧ _uncommittedHash (conn s) ≠ "" ∧
  ((rc = SQLITE_OK ∧
    shared s' =
      set_currentTransactionCount (i32 (currentTransactionCount (shared s) - 1))
        (set_commitLock false (incrementCommit (_uncommittedHash (conn s)) (shared s))) ∧
    unlocks (trace s') = S (unlocks (trace s)) ∧
    _insideTransaction (conn s') = false ∧ _uncommittedHash (conn s') = "" ∧
    _uncommittedQuery (conn s') = "" ∧ _mutexLocked (conn s') = false ∧
    _queryCache (conn s') = ∅)
   ∨ (rc = SQLITE_BUSY_SNAPSHOT ∧ txn_view s' = txn_view s)).
Proof.
  unfold commit. intros H. mrun_in H.
  destruct (_insideTransaction (conn s)) eqn:Hin; [|discriminate H].
  unfold isEmpty in H. case_bool_decide as Hhash; [discriminate H|]. cbn [negb] in H.
  split; [reflexivity|]. split; [exact Hhash|].
  msplit H as n s1 E1. view_eq E1 K1. clear E1. mrun_in H.
  msplit H as [result rows] s2 E2. view_eq E2 K2. clear E2. rewrite K1 in K2. clear K1.
  injection K2 as Vshared Vunlocks Vinside Vhash Vquery Vlocked Vcache.
  mrun_in H.
  destruct (result =? SQLITE_OK) eqn:Hok.
  - left. apply Z.eqb_eq in Hok. subst result. cbn [orb] in H. mrun_in H.
    unfold when, commitLock_unlock in H. mrun_in H.
    match type of H with context [if ?b then _ else _] => destruct b end; mrun_in H;
      injection H as <- <-; ssimpl;
      rewrite ?unlocks_snoc, ?Vshared, ?Vunlocks, ?Vhash;
      rewrite (proj1 (incrementCommit_fields _ _)); cbn [is_unlock];
      repeat (split; [first [reflexivity | lia]|]); reflexivity.
  - right. cbn [orb] in H.
    destruct (result =? SQLITE_BUSY_SNAPSHOT) eqn:Hbusy; [|discriminate H].
    apply Z.eqb_eq in Hbusy. subst result. mrun_in H. injection H as <- <-.
    split; [reflexivity|]. unfold txn_view. ssimpl.
    rewrite Vshared, Vunlocks, Vinside, Vhash, Vquery, Vlocked, Vcache, Hin. reflexivity.
Qed.

(** When the engine accepts the INSERT of [prepare], the row is appended
    to the named journal table, which did not hold that id. *)
Lemma SQuery_insert_journal (t : string) (i : Z) (q h : string) (s s' : St)
    (rc : Z) (result : SQResult) :
  SQuery (SqlInsertJournal t i q h) s = Ok (rc, result) s' →
  rc = SQLITE_OK →
  ∃ rows, journals (db s) !! t = Some rows ∧ (i ∉ (row_id <$> rows)) ∧
          journals (db s') =
            <[t := rows ++ [{| row_id := i; row_query := q; row_hash := h |}]]>
              (journals (db s)).
Proof.
  unfold SQuery, next_response. intros H ->. rewrite run_bind in H. cbv beta iota in H.
  mrun_in H. msplit H as v s1 E.
  assert (K : keeps (λ s, db s) (run_callbacks
                          (r_callbacks (default default_response (head (script (db s)))))
                          false))
    by (apply keeps_run_callbacks; split; reflexivity).
  match type of E with _ ?s0 = _ => specialize (K s0 s1) end.
  rewrite E in K. specialize (K eq_refl). cbv beta in K. ssimpl_in K. clear E.
  destruct v as [ignored| |]; mrun_in H; [|discriminate H|].
  - destruct (r_code _ =? SQLITE_OK) eqn:Hcode.
    + mrun_in H. unfold engine_exec in H. rewrite K in H. ssimpl_in H.
      destruct (journals (db s) !! t) as [rows|] eqn:Hrows; [|discriminate H].
      case_bool_decide as Hin; [discriminate H|].
      mrun_in H. injection H as _ <-. ssimpl.
      exists rows. repeat split; [exact Hin].
    + unfold when in H. destruct (r_autorollback _); mrun_in H;
        injection H as Hrc _ _; rewrite Hrc in Hcode; discriminate Hcode.
  - unfold when in H. destruct (r_autorollback _); mrun_in H; discriminate H.
Qed.

Lemma bind_commitLock_lock {B} (f : unit → M B) (s : St) :
  (commitLock_lock ≫= f) s =
    if commitLock (shared s) then Blocked
    else f () (set_trace (trace s ++ [EvCommitLock])
                 (set_shared (set_commitLock true (shared s)) s)).
Proof.
  rewrite run_bind. unfold commitLock_lock. destruct (commitLock (shared s)); reflexivity.
Qed.

Ltac prepare_tail H Hin Hlocked :=
  let E := fresh "E" in
  let s1 := fresh "s1" in
  msplit H as [? ?] s1 E;
  let K := fresh "K" in
  let Vshared := fresh "Vshared" in
  let Vunlocks := fresh "Vunlocks" in
  let Vinside := fresh "Vinside" in
  let Vhash := fresh "Vhash" in
  let Vquery := fresh "Vquery" in
  let Vlocked := fresh "Vlocked" in
  let Vcache := fresh "Vcache" in
  view_eq E K; injection K as Vshared Vunlocks Vinside Vhash Vquery Vlocked Vcache;
  rewrite ?unlocks_snoc in Vunlocks; cbn [is_unlock] in Vunlocks;
  rewrite ?Hin in Vinside; rewrite ?Hlocked in Vlocked;
  mrun_in H;
  let Hok := fresh "Hok" in
  match type of H with
  | context [negb (?r =? SQLITE_OK)] => destruct (r =? SQLITE_OK) eqn:Hok
  end;
  cbn [negb] in H;
  [ mrun_in H; injection H as <- <-; ssimpl;
    apply Z.eqb_eq in Hok;
    let rows := fresh "rows" in
    let Hrows := fresh "Hrows" in
    let Hfresh := fresh "Hfresh" in
    let Hins := fresh "Hins" in
    destruct (SQuery_insert_journal _ _ _ _ _ _ _ _ E Hok)
      as (rows & Hrows & Hfresh & Hins);
    ssimpl_in Hrows; ssimpl_in Hins;
    do 6 (split; [first [assumption | congruence | lia]|]);
    exists rows; split; [exact Hrows|]; split; [exact Hfresh | exact Hins]
  | let s2 := fresh "s2" in
    let E2 := fresh "E2" in
    msplit H as [] s2 E2;
    mrun_in H; injection H as <- <-;
    let Hrest := fresh "Hrest" in
    let Hout := fresh "Hout" in
    destruct (rollback_post _ s2 ltac:(rewrite E2; reflexivity))
      as (_ & _ & Hout & Hrest);
    ssimpl_in Hrest; rewrite Vinside, Vlocked, Vshared, Vunlocks in Hrest;
    cbv iota in Hrest;
    destruct Hrest as (? & ? & ? & ? & ?);
    do 5 (split; [first [assumption | congruence | lia]|]);
    first [assumption | congruence] ].

Section PreparePost.

Context (SHashSHA1 SToHex : string → string).

(** What a returning [prepare] has done.  When it returns true the
    connection holds the commit lock, the transaction is registered under
    the next commit id with the hash of the last committed hash followed
    by the uncommitted query, and the journal row is in the connection's
    journal table; when it returns false the transaction is rolled back
    and the lock released. *)
Lemma prepare_post (s s' : St) (ok : bool) :
  prepare SHashSHA1 SToHex s = Ok ok s' →
  let id := u64 (commitCount (shared s) + 1) in
  let q := _uncommittedQuery (conn s) in
  let h := SToHex (SHashSHA1 (lastCommittedHash (shared s) +:+ q)) in
  let d := prepareTransactionInfo id q h (_dbCountAtStart (conn s))
             (if _mutexLocked (conn s) then shared s
              else set_commitLock true (shared s)) in
  _insideTransaction (conn s) = true ∧
  (_mutexLocked (conn s) = false → commitLock (shared s) = false) ∧
  if ok then
    shared s' = d ∧
    unlocks (trace s') = unlocks (trace s) ∧
    _insideTransaction (conn s') = true ∧ _uncommittedHash (conn s') = h ∧
    _uncommittedQuery (conn s') = q ∧ _mutexLocked (conn s') = true ∧
    ∃ rows, journals (db s) !! _journalName (conn s) = Some rows ∧
            (id ∉ (row_id <$> rows)) ∧
            journals (db s') =
              <[_journalName (conn s) :=
                  rows ++ [{| row_id := id; row_query := q; row_hash := h |}]]>
                (journals (db s))
  else
    shared s' = set_currentTransactionCount (i32 (currentTransactionCount d - 1))
                  (set_commitLock false d) ∧
    unlocks (trace s') = S (unlocks (trace s)) ∧
    _insideTransaction (conn s') = false ∧ _uncommittedHash (conn s') = "" ∧
    _uncommittedQuery (conn s') = "" ∧ _mutexLocked (conn s') = false.
Proof.
  cbv zeta. unfold prepare. intros H. mrun_in H.
  destruct (_insideTransaction (conn s)) eqn:Hin; [|discriminate H].
  split; [reflexivity|]. unfold when, getCommitCount, getCommittedHash in H.
  destruct (_mutexLocked (conn s)) eqn:Hlocked; cbn [negb] in H.
  - split; [discriminate|]. mrun_in H. prepare_tail H Hin Hlocked.
  - rewrite bind_assoc, bind_commitLock_lock in H.
    destruct (commitLock (shared s)) eqn:Hfree; [discriminate H|].
    split; [reflexivity|]. mrun_in H. prepare_tail H Hin Hlocked.
Qed.

End PreparePost.

(** * The commit lock across a conflict *)

(** C3.  A [commit] that returns the conflict code leaves the commit lock
    held by this connection and releases nothing; the [rollback] that
    follows either aborts the process (the engine refuses ROLLBACK) or
    releases the lock exactly once, after which a further [rollback]
    releases nothing.  After a [commit] that returned SQLITE_OK, which
    released the lock itself, [rollback] releases nothing either. *)
Theorem commit_conflict_keeps_lock :
  (∀ s s1, commit s = Ok SQLITE_BUSY_SNAPSHOT s1 →
     _mutexLocked (conn s) = true → commitLock (shared s) = true →
     commitLock (shared s1) = true ∧ _mutexLocked (conn s1) = true ∧
     unlocks (trace s1) = unlocks (trace s) ∧
     (rollback s1 = Abort ∨
      ∃ s2, rollback s1 = Ok () s2 ∧
            commitLock (shared s2) = false ∧ _mutexLocked (conn s2) = false ∧
            unlocks (trace s2) = S (unlocks (trace s1)) ∧
            ∀ s3, rollback s2 = Ok () s3 → unlocks (trace s3) = unlocks (trace s2))) ∧
  (∀ s s1 s2, commit s = Ok SQLITE_OK s1 → rollback s1 = Ok () s2 →
     unlocks (trace s1) = S (unlocks (trace s)) ∧
     unlocks (trace s2) = unlocks (trace s1)).
Proof.
  split.
  - intros s s1 Hcommit Hlocked Hheld.
    destruct (commit_post _ _ _ Hcommit) as (Hin & _ & [[Hrc _]|[_ Hview]]);
      [discriminate Hrc|].
    unfold txn_view in Hview.
    injection Hview as Vshared Vunlocks Vinside Vhash Vquery Vlocked Vcache.
    rewrite Vshared, Vlocked, Vunlocks.
    do 3 (split; [first [assumption | reflexivity]|]).
    destruct (rollback s1) as [[] s2|e s2| |] eqn:Hrollback.
    + right. exists s2. split; [reflexivity|].
      destruct (rollback_post s1 s2 ltac:(rewrite Hrollback; reflexivity))
        as (_ & _ & Hout & Hrest).
      rewrite Vinside, Hin, Vlocked, Hlocked in Hrest.
      destruct Hrest as (_ & _ & Hunlocked & Hshared & Hcount).
      rewrite Hshared. split; [reflexivity|]. split; [exact Hunlocked|].
      split; [lia|]. intros s3 Hagain.
      destruct (rollback_post s2 s3 ltac:(rewrite Hagain; reflexivity))
        as (_ & _ & _ & Hnothing).
      rewrite Hout in Hnothing. unfold txn_view in Hnothing.
      injection Hnothing as _ Hsame _ _ _ _ _. exact Hsame.
    + exfalso. exact (quiet_rollback s1 ltac:(rewrite Hrollback; reflexivity)).
    + left. reflexivity.
    + exfalso. exact (unblocked_rollback s1 ltac:(rewrite Hrollback; reflexivity)).
  - intros s s1 s2 Hcommit Hrollback.
    destruct (commit_post _ _ _ Hcommit) as (_ & _ & [Hok|[Hrc _]]);
      [|discriminate Hrc].
    destruct Hok as (_ & _ & Hreleased & Hout & _).
    split; [exact Hreleased|].
    destruct (rollback_post s1 s2 ltac:(rewrite Hrollback; reflexivity))
      as (_ & _ & _ & Hnothing).
    rewrite Hout in Hnothing. unfold txn_view in Hnothing.
    injection Hnothing as _ Hsame _ _ _ _ _. exact Hsame.
Qed.

Lemma commit_conflict_keeps_lock_witness :
  let s := prepared_state [conflict_response] in
  let s1 := after (commit s) s in
  let s2 := after (rollback s1) s1 in
  commit s = Ok SQLITE_BUSY_SNAPSHOT s1 ∧
  _mutexLocked (conn s) = true ∧ commitLock (shared s) = true ∧
  commitLock (shared s1) = true ∧ _mutexLocked (conn s1) = true ∧
  unlocks (trace s1) = unlocks (trace s) ∧
  rollback s1 = Ok () s2 ∧ commitLock (shared s2) = false ∧
  unlocks (trace s2) = S (unlocks (trace s1)).
Proof.
  cbv zeta.
  assert (Hcommit : commit (prepared_state [conflict_response]) =
                      Ok SQLITE_BUSY_SNAPSHOT
                        (after (commit (prepared_state [conflict_response]))
                           (prepared_state [conflict_response])))
    by (vm_compute; reflexivity).
  destruct (proj1 commit_conflict_keeps_lock _ _ Hcommit eq_refl eq_refl)
    as (Hheld & Hlocked & Hsame & _).
  repeat (split; [first [assumption | reflexivity | vm_compute; reflexivity]|]).
  vm_compute. reflexivity.
Defined.

(** * The query cache *)

Lemma writeIdempotent_clears_cache (query : string) (keep : bool) (s s' : St) :
  post (_writeIdempotent query keep s) = Some s' → _queryCache (conn s') = ∅.
Proof.
  unfold _writeIdempotent. intros H. mrun_in H.
  destruct (_insideTransaction (conn s)); [|discriminate H].
  destruct (isEmpty query || SEndsWith query ";"); [|discriminate H].
  match type of H with
  | post (?m ?s1) = _ =>
      assert (K : keeps (λ s, _queryCache (conn s)) m) by keeps_auto;
      apply K in H
  end.
  exact H.
Qed.

(** C6.  A query whose text is in the cache is answered from it: [read]
    returns true with the cached rows, counts the query and the hit, and
    touches neither the engine nor anything else but the clock.  The
    cache is empty after every [_writeIdempotent] (so after every [write]
    outside noop-update mode, [writeIdempotent] and [writeUnmodified]),
    after every [commit] that returns SQLITE_OK and after every
    [rollback]. *)
Theorem query_cache_served_until_cleared :
  (∀ s query cached, _queryCache (conn s) !! query = Some cached →
     read query s =
       Ok (true, cached)
          (set_conn (set_cacheHits (u64 (_cacheHits (conn s) + 1))
                       (set_queryCount (u64 (_queryCount (conn s) + 1)) (conn s)))
             (set_clock (tail (clock s)) s))) ∧
  (∀ s query keep s', post (_writeIdempotent query keep s) = Some s' →
     _queryCache (conn s') = ∅) ∧
  (∀ s query s', _noopUpdateMode (conn s) = false → post (write query s) = Some s' →
     _queryCache (conn s') = ∅) ∧
  (∀ s s', commit s = Ok SQLITE_OK s' → _queryCache (conn s') = ∅) ∧
  (∀ s s', post (rollback s) = Some s' → _queryCache (conn s') = ∅).
Proof.
  refine (conj _ (conj _ (conj _ (conj _ _)))).
  - intros s query cached Hcached. unfold read. mrun. rewrite Hcached. mrun. reflexivity.
  - intros s query keep s'. apply writeIdempotent_clears_cache.
  - intros s query s' Hmode. unfold write. mrun. rewrite Hmode.
    apply writeIdempotent_clears_cache.
  - intros s s' Hcommit.
    destruct (commit_post _ _ _ Hcommit) as (_ & _ & [Hok|[Hrc _]]); [|discriminate Hrc].
    apply Hok.
  - intros s s' Hrollback. apply (rollback_post _ _ Hrollback).
Qed.

Lemma query_cache_served_until_cleared_witness :
  let s := caching_state [] in
  _queryCache (conn s) !! "SELECT 1;" = Some [["1"]] ∧
  read "SELECT 1;" s =
    Ok (true, [["1"]])
       (set_conn (set_cacheHits 1 (set_queryCount 1 (conn s))) s) ∧
  _queryCache (conn (after (writeIdempotent "UPDATE t SET v = 2;" s) s)) = ∅ ∧
  _queryCache (conn (after (commit s) s)) = ∅ ∧
  _queryCache (conn (after (rollback s) s)) = ∅.
Proof.
  cbv zeta.
  destruct query_cache_served_until_cleared as (Hread & Hwrite & _ & Hcommit & Hrollback).
  split; [reflexivity|].
  split; [exact (Hread (caching_state []) "SELECT 1;" [["1"]] eq_refl)|].
  split; [apply (Hwrite (caching_state []) "UPDATE t SET v = 2;" false);
          vm_compute; reflexivity|].
  split; [apply (Hcommit (caching_state [])); vm_compute; reflexivity|].
  apply (Hrollback (caching_state [])). vm_compute. reflexivity.
Defined.


(** * The chain of commit hashes *)

Ltac keeps_chain := unfold chain_view; keeps_auto.

Lemma keeps_chain_read (query : string) : keeps chain_view (read query).
Proof. unfold read. keeps_chain. Qed.

Lemma keeps_chain_writeIdempotent (query : string) (keep : bool) :
  keeps chain_view (_writeIdempotent query keep).
Proof. unfold _writeIdempotent. keeps_chain. Qed.

Lemma keeps_chain_getCommit (id : Z) : keeps chain_view (getCommit_this id).
Proof. unfold getCommit_this, getCommit. keeps_chain. Qed.

Lemma keeps_chain_setUpdateNoopMode (enabled : bool) :
  keeps chain_view (setUpdateNoopMode enabled).
Proof. unfold setUpdateNoopMode. keeps_chain. Qed.

Lemma keeps_chain_popCommittedTransactions : keeps chain_view popCommittedTransactions.
Proof. intros s s' [= <-]. reflexivity. Qed.

(** From [E : m s1 = Ok a s2], the equation [K : chain_view s2 = chain_view s1]. *)
Ltac chain_eq E K :=
  match type of E with
  | ?m ?s1 = Ok ?a ?s2 =>
      assert (K : keeps chain_view m) by keeps_chain;
      specialize (K s1 s2); rewrite E in K; specialize (K eq_refl);
      unfold chain_view in K; ssimpl_in K
  end.

(** What a returning [beginTransaction] has done to the chain: nothing,
    except that an EXCLUSIVE one has taken the commit lock, which was
    free.  The connection had no prepared hash. *)
Lemma beginTransaction_post (type : TRANSACTION_TYPE) (s s' : St) (ok : bool) :
  beginTransaction type s = Ok ok s' →
  _uncommittedHash (conn s) = "" ∧
  match type with
  | SHARED => chain_view s' = chain_view s
  | EXCLUSIVE =>
      commitLock (shared s) = false ∧
      chain_view s' = (commitCount (shared s), lastCommittedHash (shared s), true,
                       _preparedTransactions (shared s), "", true)
  end.
Proof.
  unfold beginTransaction, getCommitCount. intros H. destruct type.
  - mrun_in H.
    destruct (negb (_insideTransaction (conn s))); [|discriminate H].
    unfold isEmpty in H. case_bool_decide as Hhash; [|discriminate H].
    split; [exact Hhash|].
    destruct (bool_decide (_uncommittedQuery (conn s) = "")); [|discriminate H].
    mrun_in H. msplit H as [rc rows] s1 E. chain_eq E K. mrun_in H.
    injection H as _ <-. unfold chain_view. ssimpl. exact K.
  - rewrite !bind_assoc, bind_commitLock_lock in H.
    destruct (commitLock (shared s)) eqn:Hfree; [discriminate H|].
    mrun_in H.
    destruct (negb (_insideTransaction (conn s))); [|discriminate H].
    unfold isEmpty in H. case_bool_decide as Hhash; [|discriminate H].
    split; [exact Hhash|]. split; [reflexivity|].
    destruct (bool_decide (_uncommittedQuery (conn s) = "")); [|discriminate H].
    mrun_in H. msplit H as [rc rows] s1 E. chain_eq E K. mrun_in H.
    injection H as _ <-. unfold chain_view. ssimpl. rewrite K, Hhash. reflexivity.
Qed.

(** The copy constructor moves [nextJournalCount] only, and the new
    object holds no lock and no prepared hash. *)
Lemma SQLite_copy_post (from c : SQLite) (s s' : St) :
  SQLite_copy from s = Ok c s' →
  _mutexLocked c = false ∧ _uncommittedHash c = "" ∧
  shared s' = set_nextJournalCount (i64 (nextJournalCount (shared s) + 1)) (shared s).
Proof.
  unfold SQLite_copy. intros H. mrun_in H.
  match type of H with context [match ?x with Some _ => _ | None => _ end] =>
    destruct x as [name|]; [|discriminate H]
  end.
  mrun_in H.
  repeat match type of H with
         | (if ?b then _ else _) = _ => destruct b; [|discriminate H]
         end.
  injection H as <- <-. repeat split.
Qed.

Lemma u64_add_l (a b : Z) : u64 (u64 a + b) = u64 (a + b).
Proof. unfold u64. apply Zplus_mod_idemp_l. Qed.

Section ChainInvariant.

Context (hash : string → string).

Lemma rollback_effect (s s' : St) : rollback s = Ok () s' → Effect hash s s' [].
Proof.
  intros E.
  destruct (rollback_post s s' ltac:(rewrite E; reflexivity)) as (_ & _ & _ & Hpost).
  destruct (_insideTransaction (conn s)).
  - destruct Hpost as (Hhash & _ & Hlocked & Hshared & _).
    destruct (_mutexLocked (conn s)) eqn:Hl.
    + apply Releases; rewrite ?Hshared, ?Hl; ssimpl;
        first [discriminate | assumption | reflexivity].
    + apply Ends; [exact Hl|]. unfold chain_view.
      rewrite Hshared, Hhash, Hlocked. reflexivity.
  - unfold txn_view in Hpost. injection Hpost as Vshared _ _ Vhash _ Vlocked _.
    apply Keeps_chain. unfold chain_view. rewrite Vshared, Vhash, Vlocked. reflexivity.
Qed.

Lemma keeps_effect {A} (m : M A) (s s' : St) :
  keeps chain_view m → post (m s) = Some s' → Effect hash s s' [].
Proof. intros K H. apply Keeps_chain, (K s s' H). Qed.

Lemma focus_Some (w : World) (i : nat) (s : St) :
  focus w i = Some s →
  w_conns w !! i = Some (conn s, db s) ∧ shared s = w_shared w.
Proof.
  unfold focus. destruct (w_conns w !! i) as [[c e]|]; cbn; [|discriminate].
  intros [= <-]. split; reflexivity.
Qed.

(** When connection [i] holds the commit lock, or the lock is free, the
    other connections neither hold it nor have a prepared hash. *)
Lemma others_idle (w : World) (i : nat) (c : SQLite) (e : sqlite3) :
  chain_inv hash w → w_conns w !! i = Some (c, e) →
  (_mutexLocked c = false → commitLock (w_shared w) = false) →
  ∀ j c' e', j ≠ i → w_conns w !! j = Some (c', e') →
    _mutexLocked c' = false ∧ _uncommittedHash c' = "".
Proof.
  intros Hinv Hi Hfree j c' e' Hne Hj.
  assert (Hl : _mutexLocked c' = false).
  { destruct (_mutexLocked c') eqn:Hl'; [|reflexivity]. exfalso.
    destruct (Hinv j c' e' Hj) as [Hlock _]. destruct (Hlock Hl') as [Hheld _].
    destruct (_mutexLocked c) eqn:Hlc.
    - destruct (Hinv i c e Hi) as [Hlocki _]. destruct (Hlocki Hlc) as [_ Hexcl].
      exact (Hne (Hexcl j c' e' Hj Hl')).
    - rewrite Hfree in Hheld by reflexivity. discriminate Hheld. }
  split; [exact Hl|].
  destruct (decide (_uncommittedHash c' = "")) as [|Hh]; [assumption|].
  destruct (Hinv j c' e' Hj) as [_ Hhash]. destruct (Hhash Hh) as [Hl' _]. congruence.
Qed.

Lemma inv_alone (w : World) (i : nat) (s' : St) :
  (i < length (w_conns w))%nat →
  (∀ j c e, j ≠ i → w_conns w !! j = Some (c, e) →
     _mutexLocked c = false ∧ _uncommittedHash c = "") →
  (_mutexLocked (conn s') = true → commitLock (shared s') = true) →
  (_uncommittedHash (conn s') ≠ "" →
     _mutexLocked (conn s') = true ∧
     ∃ q n, _preparedTransactions (shared s') !! u64 (commitCount (shared s') + 1)
              = Some (q, _uncommittedHash (conn s'), n) ∧
            _uncommittedHash (conn s') =
              hash (lastCommittedHash (shared s') +:+ q)) →
  chain_inv hash (unfocus w i s').
Proof.
  intros Hi Hothers Hlock Hhash k c e Hk. cbn in Hk.
  destruct (decide (k = i)) as [->|Hne].
  - rewrite list_lookup_insert_eq in Hk by exact Hi. injection Hk as <- <-. split.
    + intros Hl. split; [exact (Hlock Hl)|]. intros j c' e' Hj Hl'.
      destruct (decide (j = i)) as [|Hji]; [assumption|]. cbn in Hj.
      rewrite list_lookup_insert_ne in Hj by congruence.
      destruct (Hothers j c' e' Hji Hj) as [Hf _]. congruence.
    + exact Hhash.
  - rewrite list_lookup_insert_ne in Hk by congruence.
    destruct (Hothers k c e Hne Hk) as [Hf Hh]. split; intros; congruence.
Qed.


Lemma inv_same (w : World) (i : nat) (s s' : St) :
  chain_inv hash w → focus w i = Some s →
  commitCount (shared s') = commitCount (shared s) →
  lastCommittedHash (shared s') = lastCommittedHash (shared s) →
  commitLock (shared s') = commitLock (shared s) →
  _preparedTransactions (shared s') = _preparedTransactions (shared s) →
  _mutexLocked (conn s') = _mutexLocked (conn s) →
  (_uncommittedHash (conn s') = _uncommittedHash (conn s) ∨ _uncommittedHash (conn s') = "") →
  chain_inv hash (unfocus w i s').
Proof.
  intros Hinv Hfocus Hcount Hlast Hlock Hmap Hlocked Hhash.
  destruct (focus_Some _ _ _ Hfocus) as [Hi Hshared].
  rewrite Hshared in Hcount, Hlast, Hlock, Hmap.
  assert (Hlen : (i < length (w_conns w))%nat) by (eapply lookup_lt_Some; exact Hi).
  assert (Hexcl : ∀ k c e, w_conns w !! k = Some (c, e) → _mutexLocked c = true →
            ∀ j c' e', w_conns (unfocus w i s') !! j = Some (c', e') →
              _mutexLocked c' = true → j = k).
  { intros k c e Hk Hl j c' e' Hj Hl'. cbn in Hj.
    destruct (Hinv k c e Hk) as [Hlk _]. destruct (Hlk Hl) as [_ Hold].
    destruct (decide (j = i)) as [->|Hji].
    - rewrite list_lookup_insert_eq in Hj by exact Hlen. injection Hj as <- <-.
      apply (Hold i (conn s) (db s) Hi). congruence.
    - rewrite list_lookup_insert_ne in Hj by congruence. exact (Hold j c' e' Hj Hl'). }
  intros k c e Hk. cbn [unfocus w_shared]. rewrite Hcount, Hlast, Hlock, Hmap.
  cbn in Hk. destruct (decide (k = i)) as [->|Hne].
  - rewrite list_lookup_insert_eq in Hk by exact Hlen. injection Hk as <- <-.
    destruct (Hinv i (conn s) (db s) Hi) as [Hlocki Hhashi]. split.
    + intros Hl. rewrite Hlocked in Hl. split; [apply (Hlocki Hl)|].
      exact (Hexcl i (conn s) (db s) Hi Hl).
    + intros Hh. destruct Hhash as [Hsame|Hempty]; [|congruence].
      rewrite Hsame in Hh |- *. rewrite Hlocked. exact (Hhashi Hh).
  - rewrite list_lookup_insert_ne in Hk by congruence.
    destruct (Hinv k c e Hk) as [Hlockk Hhashk]. split.
    + intros Hl. split; [apply (Hlockk Hl)|]. exact (Hexcl k c e Hk Hl).
    + exact Hhashk.
Qed.

Lemma committed_row_eq (before after : SharedData) (q h : string) (n : Z) :
  _preparedTransactions before !! commitCount after = Some (q, h, n) →
  committed_row before after =
    {| row_id := commitCount after; row_query := q; row_hash := lastCommittedHash after |}.
Proof. intros H. unfold committed_row, TransactionInfo in *. rewrite H. reflexivity. Qed.

(** The invariant survives every effect of a call, and the rows the call
    commits continue the chain. *)
Lemma effect_step (w : World) (i : nat) (s s' : St) (rows : list JournalRow) :
  chain_inv hash w → focus w i = Some s → Effect hash s s' rows →
  chain_inv hash (unfocus w i s') ∧ advance hash (w_shared w) (shared s') rows.
Proof.
  intros Hinv Hfocus Heffect.
  destruct (focus_Some _ _ _ Hfocus) as [Hi Hshared].
  assert (Hlen : (i < length (w_conns w))%nat) by (eapply lookup_lt_Some; exact Hi).
  pose proof (others_idle w i _ _ Hinv Hi) as Hidle. rewrite <- Hshared in Hidle |- *.
  destruct Heffect as [Hview|Hfree Hview|q n Hfree Hview|Hfree Hcount Hlast Hlock Hhash Hlocked
                      |Hunlocked Hview|Hhash Hcount Hlast Hlock Hcleared Hlocked].
  - injection Hview as Hcount Hlast Hlock Hmap Hhash Hlocked.
    split; [|left; auto].
    apply (inv_same w i s s'); auto.
  - injection Hview as Hcount Hlast Hlock Hmap Hhash Hlocked.
    split; [|left; auto].
    apply inv_alone; [exact Hlen | apply Hidle; intros _; exact Hfree | auto | congruence].
  - injection Hview as Hcount Hlast Hlock Hmap Hhash Hlocked.
    split; [|left; auto].
    apply inv_alone; [exact Hlen | apply Hidle; exact Hfree | |].
    + intros _. rewrite Hlock. destruct (_mutexLocked (conn s)) eqn:Hl; [|reflexivity].
      destruct (Hinv i _ _ Hi) as [Hlocki _]. rewrite Hshared. apply (Hlocki Hl).
    + intros _. split; [exact Hlocked|]. exists q, n.
      rewrite Hmap, Hcount, Hlast, Hhash. split; [apply lookup_insert_eq | reflexivity].
  - split; [|left; auto].
    apply inv_alone; [exact Hlen | apply Hidle; exact Hfree | congruence | congruence].
  - injection Hview as Hcount Hlast Hlock Hmap Hhash Hlocked.
    split; [|left; auto].
    apply (inv_same w i s s'); auto. congruence.
  - destruct (Hinv i _ _ Hi) as [_ Hhashi].
    destruct (Hhashi Hhash) as (Hl & q & n & Hprepared & Hchain).
    rewrite <- Hshared in Hprepared, Hchain.
    split.
    + apply inv_alone; [exact Hlen | apply Hidle; congruence | congruence | congruence].
    + right. exists q. rewrite <- Hcount in Hprepared.
      rewrite (committed_row_eq _ _ _ _ _ Hprepared), Hcount, Hlast, <- Hchain.
      split; [reflexivity|]. split; reflexivity.
Qed.

End ChainInvariant.

Section Chain.

Context (SHashSHA1 SToHex : string → string).

Lemma call_effect (c : Call) (s : St) :
  match call SHashSHA1 SToHex c s with
  | Ok rc s' => Effect (journal_hash SHashSHA1 SToHex) s s' (rows_of c rc s s')
  | Throw _ s' => Effect (journal_hash SHashSHA1 SToHex) s s' []
  | Abort | Blocked => True
  end.
Proof.
  assert (Hkeep : ∀ m : M Z, keeps chain_view m →
            (∀ rc s', rows_of c rc s s' = []) →
            match m s with
            | Ok rc s' => Effect (journal_hash SHashSHA1 SToHex) s s' (rows_of c rc s s')
            | Throw _ s' => Effect (journal_hash SHashSHA1 SToHex) s s' []
            | Abort | Blocked => True
            end).
  { intros m K Hrows. destruct (m s) as [rc s'|e s'| |] eqn:E; [| |exact I..].
    - rewrite Hrows. apply (keeps_effect _ m); [exact K | rewrite E; reflexivity].
    - apply (keeps_effect _ m); [exact K | rewrite E; reflexivity]. }
  destruct c; cbn [call].
  - (* beginTransaction *)
    rewrite run_bind.
    destruct (beginTransaction type s) as [ok s'|e s'| |] eqn:E; [| |exact I..].
    + rewrite run_ret. cbn [rows_of].
      destruct (beginTransaction_post _ _ _ _ E) as [Hhash Hview]. destruct type.
      * apply Keeps_chain, Hview.
      * apply Takes_lock; apply Hview.
    + exfalso. exact (quiet_beginTransaction type s ltac:(rewrite E; reflexivity)).
  - apply Hkeep; [|reflexivity].
    apply keeps_bind; [apply keeps_chain_read | intros; apply keeps_ret].
  - apply Hkeep; [|reflexivity]. unfold read_value.
    apply keeps_bind; [|intros; apply keeps_ret].
    apply keeps_bind; [apply keeps_chain_read|]. intros [ok result].
    destruct (negb ok); apply keeps_ret.
  - apply Hkeep; [|reflexivity]. unfold write.
    apply keeps_bind; [|intros; apply keeps_ret].
    apply keeps_bind; [apply keeps_getConn|]. intros c.
    destruct (_noopUpdateMode c); [apply keeps_ret | apply keeps_chain_writeIdempotent].
  - apply Hkeep; [|reflexivity]. unfold writeIdempotent.
    apply keeps_bind; [apply keeps_chain_writeIdempotent | intros; apply keeps_ret].
  - apply Hkeep; [|reflexivity]. unfold writeUnmodified.
    apply keeps_bind; [apply keeps_chain_writeIdempotent | intros; apply keeps_ret].
  - (* prepare *)
    rewrite run_bind.
    destruct (prepare SHashSHA1 SToHex s) as [ok s'|e s'| |] eqn:E; [| |exact I..].
    + rewrite run_ret. cbn [rows_of].
      pose proof (prepare_post _ _ _ _ _ E) as Hpost. cbv zeta in Hpost.
      destruct Hpost as (_ & Hfree & Hpost).
      match type of Hpost with context [prepareTransactionInfo ?i ?q ?h ?n ?d] =>
        destruct (prepareTransactionInfo_fields i q h n d) as (Fcount & Flast & Flock & Fmap)
      end.
      destruct ok.
      * destruct Hpost as (Hshared & _ & _ & Hhash & _ & Hlocked & _).
        apply (Prepares _ s s' (_uncommittedQuery (conn s)) (_dbCountAtStart (conn s)));
          [exact Hfree|].
        unfold chain_view. rewrite Hshared, Hhash, Hlocked, Fcount, Flast, Flock, Fmap.
        destruct (_mutexLocked (conn s)); reflexivity.
      * destruct Hpost as (Hshared & _ & _ & Hhash & _ & Hlocked).
        apply Releases; rewrite ?Hshared; ssimpl; try assumption; try reflexivity.
        all: destruct (_mutexLocked (conn s)); assumption.
    + exfalso. exact (quiet_prepare _ _ s ltac:(rewrite E; reflexivity)).
  - (* commit *)
    destruct (commit s) as [rc s'|e s'| |] eqn:E; [| |exact I..].
    + destruct (commit_post _ _ _ E) as (_ & Hhash & [Hok|[-> Hsame]]).
      * destruct Hok as (-> & Hshared & _ & _ & Hcleared & _ & Hunlocked & _).
        cbn [rows_of]. change (SQLITE_OK =? SQLITE_OK) with true. cbv iota.
        destruct (incrementCommit_fields (_uncommittedHash (conn s)) (shared s))
          as (_ & _ & _ & Fcount & Flast).
        apply Commits; rewrite ?Hshared; ssimpl; first [assumption | reflexivity].
      * cbn [rows_of]. change (SQLITE_BUSY_SNAPSHOT =? SQLITE_OK) with false. cbv iota.
        apply Keeps_chain. unfold txn_view in Hsame.
        injection Hsame as Vshared _ _ Vhash _ Vlocked _.
        unfold chain_view. rewrite Vshared, Vhash, Vlocked. reflexivity.
    + exfalso. exact (quiet_commit s ltac:(rewrite E; reflexivity)).
  - (* rollback *)
    rewrite run_bind.
    destruct (rollback s) as [[] s'|e s'| |] eqn:E; [| |exact I..].
    + rewrite run_ret. cbn [rows_of]. apply rollback_effect, E.
    + exfalso. exact (quiet_rollback s ltac:(rewrite E; reflexivity)).
  - apply Hkeep; [|reflexivity].
    apply keeps_bind; [apply keeps_chain_getCommit | intros; apply keeps_ret].
  - apply Hkeep; [|reflexivity].
    apply keeps_bind; [apply keeps_chain_popCommittedTransactions | intros; apply keeps_ret].
  - apply Hkeep; [|reflexivity].
    apply keeps_bind; [apply keeps_chain_setUpdateNoopMode | intros; apply keeps_ret].
  - apply Hkeep; [|reflexivity]. unfold getCommits. keeps_chain.
  - apply Hkeep; [|reflexivity]. unfold enableRewrite. keeps_chain.
  - apply Hkeep; [|reflexivity]. unfold setRewriteHandler. keeps_chain.
  - apply Hkeep; [|reflexivity]. keeps_chain.
  - apply Hkeep; [|reflexivity]. keeps_chain.
  - apply Hkeep; [|reflexivity]. keeps_chain.
  - (* the destructor *)
    unfold SQLite_destructor. rewrite bind_assoc, bind_getConn. unfold when.
    destruct (negb (isEmpty (_uncommittedQuery (conn s)))).
    + rewrite run_bind.
      destruct (rollback s) as [[] s'|e s'| |] eqn:E; [| |exact I..].
      * rewrite run_ret. cbn [rows_of]. apply rollback_effect, E.
      * exfalso. exact (quiet_rollback s ltac:(rewrite E; reflexivity)).
    + rewrite bind_ret, run_ret. cbn [rows_of]. apply Keeps_chain. reflexivity.
Qed.

(** One action keeps the invariant, and its rows continue the chain. *)
Lemma step_chain (w w1 : World) (a : Action) (rows : list JournalRow) :
  chain_inv (journal_hash SHashSHA1 SToHex) w →
  step SHashSHA1 SToHex w a = Some (w1, rows) →
  chain_inv (journal_hash SHashSHA1 SToHex) w1 ∧
  advance (journal_hash SHashSHA1 SToHex) (w_shared w) (w_shared w1) rows.
Proof.
  intros Hinv H. destruct a as [i c|from handle|busy pages]; cbn [step] in H.
  - destruct (focus w i) as [s|] eqn:Hfocus; [|discriminate H].
    cbn [mbind option_bind] in H.
    pose proof (call_effect c s) as Heffect. unfold rows_of in Heffect.
    destruct (call SHashSHA1 SToHex c s) as [rc s'|e s'| |]; try discriminate H;
      injection H as <- <-; exact (effect_step _ w i s s' _ Hinv Hfocus Heffect).
  - destruct (focus w from) as [s|] eqn:Hfocus; [|discriminate H].
    cbn [mbind option_bind] in H.
    destruct (focus_Some _ _ _ Hfocus) as [_ Hshared].
    destruct (SQLite_copy (conn s) s) as [c s'|e s'| |] eqn:Hcopy; try discriminate H.
    injection H as <- <-.
    destruct (SQLite_copy_post _ _ _ _ Hcopy) as (Hunlocked & Hempty & Hshared').
    rewrite Hshared in Hshared'. split; [|left; rewrite Hshared'; auto].
    intros k c0 e0 Hk. cbn [w_conns w_shared] in Hk |- *. rewrite Hshared'. ssimpl.
    assert (Hnew : ∀ j c' e', (w_conns w ++ [(c, handle)]) !! j = Some (c', e') →
              _mutexLocked c' = true → w_conns w !! j = Some (c', e')).
    { intros j c' e' Hj Hl. apply lookup_app_Some in Hj as [Hj|[_ Hj]]; [exact Hj|].
      apply list_lookup_singleton_Some in Hj as [_ [= <- <-]]. congruence. }
    destruct (decide (_mutexLocked c0 = true ∨ _uncommittedHash c0 ≠ "")) as [Hbusy|Hidle].
    + assert (Hold : w_conns w !! k = Some (c0, e0)).
      { apply lookup_app_Some in Hk as [Hk|[_ Hk]]; [exact Hk|].
        apply list_lookup_singleton_Some in Hk as [_ [= <- <-]].
        destruct Hbusy; congruence. }
      destruct (Hinv k c0 e0 Hold) as [Hlock Hhash]. split; [|exact Hhash].
      intros Hl. destruct (Hlock Hl) as [Hheld Hexcl]. split; [exact Hheld|].
      intros j c' e' Hj Hl'. exact (Hexcl j c' e' (Hnew j c' e' Hj Hl') Hl').
    + split; intros Hp; exfalso; apply Hidle; [left | right]; exact Hp.
  - injection H as <- <-. split; [|left; auto].
    intros k c e Hk. exact (Hinv k c e Hk).
Qed.

(** A run keeps the invariant; the rows it commits form a hash chain that
    starts from the last committed hash, their ids count up from the
    commit count, and the shared data ends on the last row. *)
Lemma run_chain (actions : list Action) (w w' : World) (rows : list JournalRow) :
  chain_inv (journal_hash SHashSHA1 SToHex) w →
  run SHashSHA1 SToHex w actions = Some (w', rows) →
  chain_inv (journal_hash SHashSHA1 SToHex) w' ∧
  row_hash <$> rows =
    hash_chain (journal_hash SHashSHA1 SToHex) (lastCommittedHash (w_shared w))
      (row_query <$> rows) ∧
  lastCommittedHash (w_shared w') =
    default (lastCommittedHash (w_shared w)) (last (row_hash <$> rows)) ∧
  u64 (commitCount (w_shared w')) =
    u64 (commitCount (w_shared w) + Z.of_nat (length rows)) ∧
  (u64 (commitCount (w_shared w)) = commitCount (w_shared w) →
   u64 (commitCount (w_shared w')) = commitCount (w_shared w')) ∧
  ∀ k row, rows !! k = Some row →
    row_id row = u64 (commitCount (w_shared w) + Z.of_nat k + 1).
Proof.
  revert w w' rows. induction actions as [|a rest IH]; intros w w' rows Hinv H.
  - injection H as <- <-. cbn. rewrite Z.add_0_r.
    split; [exact Hinv|]. do 3 (split; [reflexivity|]). split; [trivial|].
    intros k row Hk. discriminate Hk.
  - cbn [run] in H.
    destruct (step SHashSHA1 SToHex w a) as [[w1 rows1]|] eqn:Hstep; [|discriminate H].
    cbn [mbind option_bind] in H.
    destruct (run SHashSHA1 SToHex w1 rest) as [[w2 more]|] eqn:Hrun; [|discriminate H].
    cbn [mbind option_bind] in H. injection H as <- <-.
    destruct (step_chain _ _ _ _ Hinv Hstep) as [Hinv1 Hadvance].
    destruct (IH _ _ _ Hinv1 Hrun) as (Hinv2 & Hhashes & Hlast & Hcount & Hrange & Hids).
    split; [exact Hinv2|].
    destruct Hadvance as [(-> & Hc & Hl)|(q & -> & Hc & Hl)].
    + rewrite Hc, Hl in *. cbn [app]. auto.
    + rewrite Hc, Hl in *. cbn [app fmap list_fmap hash_chain row_hash row_query length].
      rewrite <- Hhashes. split; [reflexivity|]. split; [|split; [|split]].
      * rewrite Hlast, last_cons. destruct (last (row_hash <$> more)); reflexivity.
      * rewrite Hcount, u64_add_l. f_equal. lia.
      * intros _. apply Hrange. unfold u64. apply Z.mod_mod. discriminate.
      * intros [|k] row Hk.
        -- injection Hk as <-. cbn. f_equal. lia.
        -- rewrite (Hids k row Hk), <- Z.add_assoc, u64_add_l. f_equal. lia.
Qed.

End Chain.

Lemma initial_chain_inv (hash : string → string) (w : World) :
  initial w → chain_inv hash w.
Proof.
  intros (_ & _ & _ & Hidle) i c e Hi. destruct (Hidle i c e Hi) as [Hhash Hlocked].
  split; intros Hp; congruence.
Qed.

(** C1.  A [prepare] that returns true has appended to the connection's
    journal table the row (commitCount + 1, uncommittedQuery,
    hex (SHA1 (lastCommittedHash followed by uncommittedQuery))), in
    [uint64_t] arithmetic, kept that hash in [_uncommittedHash], registered
    the query and the hash under that id among the prepared transactions,
    and left the commit count and last committed hash alone.  A [commit] that
    returns SQLITE_OK has moved the shared commit count from n to n + 1
    (to 0 from the largest [uint64_t]) and set the last committed hash to
    [_uncommittedHash].  Consequently, in any process that starts on a
    database without commits and whatever its connections do, the rows
    committed form the chain: the k-th has id k, and its hash is
    hex (SHA1 (hash of the row before, or the empty string, followed by
    its query)); the shared data ends on the last row. *)
Theorem journal_hash_chain (SHashSHA1 SToHex : string → string) :
  (∀ s s1, prepare SHashSHA1 SToHex s = Ok true s1 →
     let row := {| row_id := u64 (commitCount (shared s) + 1);
                   row_query := _uncommittedQuery (conn s);
                   row_hash := journal_hash SHashSHA1 SToHex
                                 (lastCommittedHash (shared s) +:+ _uncommittedQuery (conn s)) |} in
     (∃ rows, journals (db s) !! _journalName (conn s) = Some rows ∧
              journals (db s1) =
                <[_journalName (conn s) := rows ++ [row]]> (journals (db s))) ∧
     _uncommittedHash (conn s1) = row_hash row ∧
     _preparedTransactions (shared s1) !! row_id row =
       Some (row_query row, row_hash row, _dbCountAtStart (conn s)) ∧
     commitCount (shared s1) = commitCount (shared s) ∧
     lastCommittedHash (shared s1) = lastCommittedHash (shared s)) ∧
  (∀ s1 s2, commit s1 = Ok SQLITE_OK s2 →
     commitCount (shared s2) = u64 (commitCount (shared s1) + 1) ∧
     (0 ≤ commitCount (shared s1) < 2 ^ 64 - 1 →
      commitCount (shared s2) = commitCount (shared s1) + 1) ∧
     lastCommittedHash (shared s2) = _uncommittedHash (conn s1)) ∧
  (∀ w actions w' rows,
     initial w → run SHashSHA1 SToHex w actions = Some (w', rows) →
     row_hash <$> rows =
       hash_chain (journal_hash SHashSHA1 SToHex) "" (row_query <$> rows) ∧
     (∀ k row, rows !! k = Some row → row_id row = u64 (Z.of_nat k + 1)) ∧
     commitCount (w_shared w') = u64 (Z.of_nat (length rows)) ∧
     lastCommittedHash (w_shared w') = default "" (last (row_hash <$> rows))).
Proof.
  refine (conj _ (conj _ _)).
  - intros s s1 Hprepare. cbv zeta.
    pose proof (prepare_post _ _ _ _ _ Hprepare) as Hpost. cbv zeta in Hpost.
    destruct Hpost as (_ & _ & Hshared & _ & _ & Hhash & _ & _ & rows & Hrows & _ & Hins).
    match type of Hshared with context [prepareTransactionInfo ?i ?q ?h ?n ?d] =>
      destruct (prepareTransactionInfo_fields i q h n d) as (Fcount & Flast & _ & Fmap)
    end.
    split; [exists rows; split; [exact Hrows | exact Hins]|].
    split; [exact Hhash|].
    rewrite Hshared, Fcount, Flast, Fmap. cbn [row_id row_query row_hash].
    split; [apply lookup_insert_eq|].
    destruct (_mutexLocked (conn s)); split; reflexivity.
  - intros s1 s2 Hcommit.
    destruct (commit_post _ _ _ Hcommit) as (_ & _ & [Hok|[Hrc _]]); [|discriminate Hrc].
    destruct Hok as (_ & Hshared & _).
    destruct (incrementCommit_fields (_uncommittedHash (conn s1)) (shared s1))
      as (_ & _ & _ & Fcount & Flast).
    rewrite Hshared. ssimpl. rewrite Fcount, Flast.
    split; [reflexivity|]. split; [|reflexivity].
    intros Hrange. unfold u64. apply Z.mod_small. lia.
  - intros w actions w' rows Hinitial Hrun.
    destruct (run_chain _ _ _ _ _ _ (initial_chain_inv _ w Hinitial) Hrun)
      as (_ & Hhashes & Hlast & Hcount & Hrange & Hids).
    destruct Hinitial as (Hzero & Hempty & _).
    rewrite Hzero in Hcount, Hrange, Hids. rewrite Hempty in Hhashes, Hlast.
    rewrite Z.add_0_l in Hcount.
    split; [exact Hhashes|].
    split; [intros k row Hk; rewrite (Hids k row Hk); reflexivity|].
    split; [|exact Hlast].
    rewrite <- Hcount. symmetry. apply Hrange. reflexivity.
Qed.

Lemma journal_hash_chain_witness :
  prepare sample_SHashSHA1 sample_SToHex sample_written = Ok true sample_prepared ∧
  journals (db sample_prepared) !! "journal" =
    Some [{| row_id := 1; row_query := "INSERT INTO t VALUES (1);";
             row_hash := "hex(sha1(INSERT INTO t VALUES (1);))" |}] ∧
  _uncommittedHash (conn sample_prepared) = "hex(sha1(INSERT INTO t VALUES (1);))" ∧
  commit sample_prepared = Ok SQLITE_OK sample_committed ∧
  commitCount (shared sample_committed) = 1 ∧
  lastCommittedHash (shared sample_committed) = "hex(sha1(INSERT INTO t VALUES (1);))" ∧
  initial one_connection ∧
  ∃ w' rows,
    run sample_SHashSHA1 sample_SToHex one_connection two_transactions = Some (w', rows) ∧
    row_query <$> rows = ["INSERT INTO t VALUES (1);"; "INSERT INTO t VALUES (2);"] ∧
    row_hash <$> rows =
      hash_chain (journal_hash sample_SHashSHA1 sample_SToHex) ""
        ["INSERT INTO t VALUES (1);"; "INSERT INTO t VALUES (2);"] ∧
    row_id <$> rows = [1; 2] ∧
    commitCount (w_shared w') = 2.
Proof.
  destruct (journal_hash_chain sample_SHashSHA1 sample_SToHex) as (Hprepare & Hcommit & Hchain).
  assert (E1 : prepare sample_SHashSHA1 sample_SToHex sample_written
               = Ok true sample_prepared) by (vm_compute; reflexivity).
  assert (E2 : commit sample_prepared = Ok SQLITE_OK sample_committed)
    by (vm_compute; reflexivity).
  assert (Hinitial : initial one_connection).
  { do 3 (split; [reflexivity|]). intros [|i] c e Hi; [|discriminate Hi].
    injection Hi as <- <-. split; reflexivity. }
  destruct (Hprepare _ _ E1) as (_ & Hhash & _).
  destruct (Hcommit _ _ E2) as (Hcount & _ & Hlast).
  split; [exact E1|].
  split; [vm_compute; reflexivity|].
  split; [rewrite Hhash; vm_compute; reflexivity|].
  split; [exact E2|].
  split; [rewrite Hcount; vm_compute; reflexivity|].
  split; [rewrite Hlast, Hhash; vm_compute; reflexivity|].
  split; [exact Hinitial|].
  destruct (run sample_SHashSHA1 sample_SToHex one_connection two_transactions)
    as [[w' rows']|] eqn:Hrun; [|vm_compute in Hrun; discriminate Hrun].
  exists w', rows'. split; [reflexivity|].
  destruct (Hchain _ _ _ _ Hinitial Hrun) as (Hhashes & Hids & Hcount' & Hlast').
  assert (Hqueries : row_query <$> rows' =
                       ["INSERT INTO t VALUES (1);"; "INSERT INTO t VALUES (2);"])
    by (vm_compute in Hrun; injection Hrun as _ <-; reflexivity).
  split; [exact Hqueries|]. rewrite <- Hqueries. split; [exact Hhashes|].
  split; [vm_compute in Hrun; injection Hrun as _ <-; reflexivity|].
  rewrite Hcount'. vm_compute in Hrun. injection Hrun as _ <-. reflexivity.
Defined.


(** * Functions the cache must not remember *)

(** C4, the code at the failing input: the authorizer sees the FUNCTION
    action named sqlite_version, which is not among the names it compares
    with (it has sqlite3_version), so [_isDeterministicQuery] stays set and
    [read] puts the result into the query cache; the same query read again
    is answered from the cache without reaching the engine. *)
Theorem read_caches_sqlite_version :
  let query := "SELECT sqlite_version();" in
  let s := new_state [version_response] [] in
  _queryCache (conn s) !! query = None ∧
  ∃ s', read query s = Ok (true, [["3.30.1"]]) s' ∧
        _isDeterministicQuery (conn s') = true ∧
        _queryCache (conn s') !! query = Some [["3.30.1"]] ∧
        ∃ s'', read query s' = Ok (true, [["3.30.1"]]) s'' ∧
               _cacheHits (conn s'') = 1 ∧ trace s'' = trace s'.
Proof.
  cbv zeta. split; [reflexivity|]. eexists.
  split; [vm_compute; reflexivity|]. split; [reflexivity|]. split; [reflexivity|].
  eexists. split; [vm_compute; reflexivity|]. split; reflexivity.
Qed.


(** * Looking up a commit *)

(** Without a whitelist the authorizer answers OK or DENY, never IGNORE. *)
Lemma authorize_no_whitelist (a : AuthAction) (c c' : SQLite) (rc : Z) :
  whitelist c = None → _authorize a c = Some (rc, c') →
  (rc = SQLITE_OK ∨ rc = SQLITE_DENY) ∧ whitelist c' = None.
Proof.
  unfold _authorize. intros Hw H.
  destruct (_enableRewrite c && negb (_currentlyRunningRewritten c)).
  - destruct (_rewriteHandler c) as [h|]; [|discriminate]. cbn in H.
    destruct (h (actionCode a) (detail1 a) (_rewrittenQuery c)) as [v q]. cbn in H.
    destruct v.
    + injection H as <- <-. split; [right; reflexivity | exact Hw].
    + match type of H with context [whitelist ?x] => set (c1 := x) in * end.
      assert (Hc1 : whitelist c1 = None).
      { subst c1. destruct (detail2 a); [|exact Hw].
        match goal with |- context [if ?b then _ else _] => destruct b end; exact Hw. }
      rewrite Hc1 in H. injection H as <- <-. split; [left; reflexivity | exact Hc1].
  - cbn in H.
    match type of H with context [whitelist ?x] => set (c1 := x) in * end.
    assert (Hc1 : whitelist c1 = None).
    { subst c1. destruct (detail2 a); [|exact Hw].
      match goal with |- context [if ?b then _ else _] => destruct b end; exact Hw. }
    rewrite Hc1 in H. injection H as <- <-. split; [left; reflexivity | exact Hc1].
Qed.

Lemma run_callbacks_no_whitelist (cbs : list Callback) (ignored : bool) (s s' : St)
    (v : Verdict) :
  whitelist (conn s) = None → run_callbacks cbs ignored s = Ok v s' →
  ∀ ignored', v = Completed ignored' → ignored' = ignored.
Proof.
  revert s. induction cbs as [|[a|] cbs IH]; intros s Hw H; cbn [run_callbacks] in H.
  - injection H as <- <-. intros ignored' [= <-]. reflexivity.
  - rewrite run_bind in H. unfold _sqliteAuthorizerCallback in H.
    destruct (_authorize a (conn s)) as [[rc c]|] eqn:E; [|discriminate H].
    destruct (authorize_no_whitelist _ _ _ _ Hw E) as [[->| ->] Hw'].
    + change (SQLITE_OK =? SQLITE_OK) with true in H. cbv iota in H.
      exact (IH (set_conn c s) Hw' H).
    + change (SQLITE_DENY =? SQLITE_OK) with false in H.
      change (SQLITE_DENY =? SQLITE_IGNORE) with false in H. cbv iota in H.
      injection H as <- <-. discriminate.
  - msplit H as rc s1 E.
    assert (K : keeps (λ s, whitelist (conn s)) _progressHandlerCallback)
      by (apply keeps_progressHandler; split; reflexivity).
    specialize (K s s1). rewrite E in K. specialize (K eq_refl). cbv beta in K.
    destruct (rc =? 0).
    + apply (IH s1); [congruence | exact H].
    + injection H as <- <-. discriminate.
Qed.

(** Without a whitelist, an accepted lookup returns what the journal
    tables hold. *)
Lemma SQuery_get_commit (names : list string) (id : Z) (s s' : St) (rc : Z)
    (result : SQResult) :
  whitelist (conn s) = None →
  SQuery (SqlGetCommit names id) s = Ok (rc, result) s' → rc = SQLITE_OK →
  select_commit (journals (db s)) names id = Some result.
Proof.
  unfold SQuery, next_response. intros Hw H ->. rewrite run_bind in H. cbv beta iota in H.
  mrun_in H. msplit H as v s1 E.
  assert (K : keeps (λ s, db s) (run_callbacks
                          (r_callbacks (default default_response (head (script (db s)))))
                          false))
    by (apply keeps_run_callbacks; split; reflexivity).
  match type of E with _ ?s0 = _ => specialize (K s0 s1) end.
  rewrite E in K. specialize (K eq_refl). cbv beta in K. ssimpl_in K.
  pose proof (λ Hw', run_callbacks_no_whitelist _ _ _ _ _ Hw' E) as Hnot.
  specialize (Hnot Hw). clear E.
  destruct v as [ignored| |]; mrun_in H; [|discriminate H|].
  - rewrite (Hnot ignored eq_refl) in H.
    destruct (r_code _ =? SQLITE_OK) eqn:Hcode.
    + mrun_in H. unfold engine_exec in H. rewrite K in H. ssimpl_in H.
      destruct (select_commit (journals (db s)) names id) as [rows|];
        [|discriminate H].
      mrun_in H. injection H as <- _. reflexivity.
    + unfold when in H. destruct (r_autorollback _); mrun_in H;
        injection H as Hrc _ _; rewrite Hrc in Hcode; discriminate Hcode.
  - unfold when in H. destruct (r_autorollback _); mrun_in H; discriminate H.
Qed.

(** The rows of the UNION are the (query, hash) pairs of the rows with
    the id in the named tables. *)
Lemma select_commit_spec (tabs : gmap string (list JournalRow)) (names : list string)
    (id : Z) (found : SQResult) :
  select_commit tabs names id = Some found →
  ∀ x, x ∈ found ↔
       ∃ table rows row, table ∈ names ∧ tabs !! table = Some rows ∧ row ∈ rows ∧
                         row_id row = id ∧ x = [row_query row; row_hash row].
Proof.
  unfold select_commit.
  destruct (mapM (λ n, tabs !! n) names) as [tables|] eqn:Hm; [|discriminate].
  cbn [mbind option_bind]. intros [= <-] x. apply mapM_Some in Hm.
  rewrite elem_of_remove_dups, list_elem_of_fmap. split.
  - intros (row & -> & Hin). apply list_elem_of_filter in Hin as [Hid Hin].
    apply list_elem_of_In, in_concat in Hin as (rows & Hrows & Hrow).
    apply list_elem_of_In, list_elem_of_lookup in Hrows as [i Hi].
    destruct (Forall2_lookup_r _ _ _ _ _ Hm Hi) as (table & Htable & Hlookup).
    exists table, rows, row. split; [eapply list_elem_of_lookup_2; exact Htable|].
    split; [exact Hlookup|]. split; [apply list_elem_of_In; exact Hrow|].
    split; [exact Hid | reflexivity].
  - intros (table & rows & row & Htable & Hlookup & Hrow & Hid & ->).
    exists row. split; [reflexivity|]. apply list_elem_of_filter. split; [exact Hid|].
    apply list_elem_of_In, in_concat. exists rows. split; [|apply list_elem_of_In; exact Hrow].
    apply list_elem_of_lookup in Htable as [i Hi].
    destruct (Forall2_lookup_l _ _ _ _ _ Hm Hi) as (rows' & Hrows' & Hlookup').
    rewrite Hlookup in Hlookup'. injection Hlookup' as <-.
    apply list_elem_of_In. eapply list_elem_of_lookup_2. exact Hrows'.
Qed.

(** C10, the claim as stated fails: for a journal row whose hash is empty
    [getCommit] returns false and leaves the row's query in [query]. *)
Lemma getCommit_false_keeps_query :
  journals (db hashless_journal) !! "journal" =
    Some [{| row_id := 7; row_query := "INSERT INTO t VALUES (1);"; row_hash := "" |}] ∧
  ∃ s', getCommit_this 7 hashless_journal = Ok (false, "INSERT INTO t VALUES (1);", "") s'.
Proof. split; [reflexivity|]. eexists. vm_compute. reflexivity. Qed.

(** C10, amended.  On every connection, a [getCommit] that returns has
    returned whether the [hash] it leaves is non-empty.  On a connection
    without a whitelist (so that the authorizer answers no READ with
    IGNORE): when no journal table holds the id, it returns false and
    leaves both strings empty; when some table holds the id, [query] and
    [hash] are those of a row with the id, also when it returns false;
    and when the rows with the id agree on their hash (there is one such
    row, in a journal written by [prepare]), it returns true exactly when
    a journal table holds a row with the id whose hash is non-empty. *)
Theorem getCommit_first_row (names : list string) (id : Z) (s s' : St) (ok : bool)
    (query hash : string) :
  getCommit names id s = Ok (ok, query, hash) s' →
  ok = negb (isEmpty hash) ∧
  (whitelist (conn s) = None →
   ((∀ row, ¬ holds_commit (db s) names id row) → ok = false ∧ query = "" ∧ hash = "") ∧
   ((∃ row, holds_commit (db s) names id row) →
    ∃ row, holds_commit (db s) names id row ∧ query = row_query row ∧ hash = row_hash row) ∧
   ((∀ r1 r2, holds_commit (db s) names id r1 → holds_commit (db s) names id r2 →
              row_hash r1 = row_hash r2) →
    (ok = true ↔ ∃ row, holds_commit (db s) names id row ∧ row_hash row ≠ ""))).
Proof.
  intros H. unfold getCommit in H. msplit H as [rc result] s1 E. mrun_in H.
  destruct (rc =? SQLITE_OK) eqn:Hrc; [|discriminate H]. apply Z.eqb_eq in Hrc.
  split.
  { clear E. destruct result as [|first rest].
    - mrun_in H. injection H as <- <- <-. reflexivity.
    - unfold fetch, cell in H. destruct first as [|q [|h cells]]; cbn in H;
        try discriminate H. injection H as <- <- <-. reflexivity. }
  intros Hw.
  pose proof (select_commit_spec _ _ _ _ (SQuery_get_commit _ _ _ _ _ _ Hw E Hrc)) as Hspec.
  clear E. destruct result as [|first rest].
  - mrun_in H. injection H as <- <- <-.
    assert (Hnone : ∀ row, ¬ holds_commit (db s) names id row).
    { intros row (table & rows & Htable & Hrows & Hrow & Hid).
      apply (not_elem_of_nil [row_query row; row_hash row]), Hspec.
      exists table, rows, row. auto. }
    split; [intros _; repeat split|].
    split; [intros [row Hrow]; destruct (Hnone row Hrow)|].
    intros _. split; [discriminate|]. intros (row & Hrow & _). destruct (Hnone row Hrow).
  - destruct (proj1 (Hspec first) (list_elem_of_here _ _))
      as (table & rows & row & Htable & Hrows & Hrow & Hid & ->).
    unfold fetch, cell in H. cbn in H. injection H as <- <- <-.
    assert (Hheld : holds_commit (db s) names id row) by (exists table, rows; auto).
    split; [intros Hnone; destruct (Hnone row Hheld)|].
    split; [intros _; exists row; auto|].
    intros Hagree. unfold isEmpty. case_bool_decide as Hempty; cbn [negb].
    + split; [discriminate|]. intros (row' & Hheld' & Hhash').
      destruct Hhash'. rewrite (Hagree row' row Hheld' Hheld). exact Hempty.
    + split; [|reflexivity]. intros _. exists row. auto.
Qed.

Lemma getCommit_first_row_witness :
  whitelist (conn hashless_journal) = None ∧
  getCommit three_journals 7 hashless_journal =
    Ok (false, "INSERT INTO t VALUES (1);", "")
       (after (getCommit three_journals 7 hashless_journal) hashless_journal) ∧
  false = negb (isEmpty "") ∧
  ∃ row, holds_commit (db hashless_journal) three_journals 7 row ∧
         "INSERT INTO t VALUES (1);" = row_query row ∧ "" = row_hash row.
Proof.
  assert (E : getCommit three_journals 7 hashless_journal =
                Ok (false, "INSERT INTO t VALUES (1);", "")
                   (after (getCommit three_journals 7 hashless_journal) hashless_journal))
    by (vm_compute; reflexivity).
  destruct (getCommit_first_row three_journals 7 hashless_journal _ _ _ _ E)
    as (Hok & Hrows).
  destruct (Hrows eq_refl) as (_ & Hrow & _).
  split; [reflexivity|]. split; [exact E|]. split; [exact Hok|].
  apply Hrow.
  exists {| row_id := 7; row_query := "INSERT INTO t VALUES (1);"; row_hash := "" |},
         "journal", [{| row_id := 7; row_query := "INSERT INTO t VALUES (1);";
                        row_hash := "" |}].
  split; [apply list_elem_of_here|]. split; [reflexivity|].
  split; [apply list_elem_of_here | reflexivity].
Defined.


(** * Non-deterministic functions and the cache *)

(** The authorizer never sets [_isDeterministicQuery], and it clears it
    for a listed function unless the rewrite step has denied the action. *)
Lemma authorize_flag (a : AuthAction) (c c' : SQLite) (rc : Z) :
  _authorize a c = Some (rc, c') →
  (_isDeterministicQuery c = false → _isDeterministicQuery c' = false) ∧
  (listed_function a → rc ≠ SQLITE_DENY → _isDeterministicQuery c' = false).
Proof.
  unfold _authorize. intros H.
  assert (Hstep : ∀ c0 : SQLite, _isDeterministicQuery c0 = _isDeterministicQuery c →
            (let c1 :=
               match detail2 a with
               | Some name =>
                   if (actionCode a =? SQLITE_FUNCTION) &&
                      (String.eqb name "random" || String.eqb name "date" ||
                       String.eqb name "time" || String.eqb name "datetime" ||
                       String.eqb name "julianday" || String.eqb name "strftime" ||
                       String.eqb name "changes" || String.eqb name "last_insert_rowid" ||
                       String.eqb name "sqlite3_version")
                   then set_isDeterministicQuery false c0
                   else c0
               | None => c0
               end in
             (_isDeterministicQuery c = false → _isDeterministicQuery c1 = false) ∧
             (listed_function a → _isDeterministicQuery c1 = false))).
  { intros c0 Hc0. cbv zeta. split.
    - intros Hfalse. destruct (detail2 a); [|congruence].
      match goal with |- context [if ?b then _ else _] => destruct b end;
        [reflexivity | congruence].
    - intros (Hcode & name & -> & Hname). rewrite Hcode.
      change (SQLITE_FUNCTION =? SQLITE_FUNCTION) with true. cbn [andb].
      unfold nondeterministic_names in Hname.
      repeat (apply elem_of_cons in Hname as [->|Hname]; [reflexivity|]).
      inversion Hname. }
  destruct (_enableRewrite c && negb (_currentlyRunningRewritten c)).
  - destruct (_rewriteHandler c) as [h|]; [|discriminate]. cbn in H.
    destruct (h (actionCode a) (detail1 a) (_rewrittenQuery c)) as [v q]. cbn in H.
    destruct v.
    + injection H as <- <-. split; [trivial|]. intros _ Hrc. destruct Hrc. reflexivity.
    + specialize (Hstep (set_rewrittenQuery q c) eq_refl). cbv zeta in Hstep.
      match type of H with context [whitelist ?x] => set (c1 := x) in * end.
      enough (c' = c1) as -> by (split; [apply Hstep | intros Hl _; apply Hstep, Hl]).
      clearbody c1. clear Hstep.
      destruct (detail1 a), (detail2 a); cbn in H;
      repeat match type of H with
             | context [match ?x with _ => _ end] => destruct x; cbn in H
             end; congruence.
  - cbn in H. specialize (Hstep c eq_refl). cbv zeta in Hstep.
    match type of H with context [whitelist ?x] => set (c1 := x) in * end.
    enough (c' = c1) as -> by (split; [apply Hstep | intros Hl _; apply Hstep, Hl]).
    clearbody c1. clear Hstep.
    destruct (detail1 a), (detail2 a); cbn in H;
    repeat match type of H with
           | context [match ?x with _ => _ end] => destruct x; cbn in H
           end; congruence.
Qed.

Lemma run_callbacks_flag (cbs : list Callback) (ignored : bool) (s s1 : St) (v : Verdict) :
  run_callbacks cbs ignored s = Ok v s1 →
  _isDeterministicQuery (conn s) = false ∨
    (∃ a, CbAuthorize a ∈ cbs ∧ listed_function a) →
  ∀ ignored', v = Completed ignored' → _isDeterministicQuery (conn s1) = false.
Proof.
  revert ignored s. induction cbs as [|[a|] cbs IH]; intros ignored s H Hwhy;
    cbn [run_callbacks] in H.
  - injection H as <- <-. intros ignored' _.
    destruct Hwhy as [Hflag|(a & Hin & _)]; [exact Hflag | inversion Hin].
  - rewrite run_bind in H. unfold _sqliteAuthorizerCallback in H.
    destruct (_authorize a (conn s)) as [[rc c]|] eqn:E; [|discriminate H].
    destruct (authorize_flag _ _ _ _ E) as [Hkeep Hclear].
    assert (Hnext : rc ≠ SQLITE_DENY →
              _isDeterministicQuery (conn (set_conn c s)) = false ∨
                (∃ a, CbAuthorize a ∈ cbs ∧ listed_function a)).
    { intros Hrc. destruct Hwhy as [Hflag|(b & Hin & Hlisted)].
      - left. apply Hkeep, Hflag.
      - apply elem_of_cons in Hin as [[= <-]|Hin].
        + left. apply Hclear; assumption.
        + right. exists b. auto. }
    destruct (rc =? SQLITE_OK) eqn:Hok.
    + apply (IH _ _ H), Hnext. apply Z.eqb_eq in Hok. rewrite Hok. discriminate.
    + destruct (rc =? SQLITE_IGNORE) eqn:Hignore.
      * apply (IH _ _ H), Hnext. apply Z.eqb_eq in Hignore. rewrite Hignore. discriminate.
      * injection H as <- <-. discriminate.
  - msplit H as rc s2 E.
    assert (K : keeps (λ s, _isDeterministicQuery (conn s)) _progressHandlerCallback)
      by (unfold _progressHandlerCallback; keeps_auto).
    specialize (K s s2). rewrite E in K. specialize (K eq_refl). cbv beta in K.
    destruct (rc =? 0).
    + apply (IH _ _ H). destruct Hwhy as [Hflag|(b & Hin & Hlisted)].
      * left. congruence.
      * apply elem_of_cons in Hin as [Hin|Hin]; [discriminate Hin|]. right. exists b. auto.
    + injection H as <- <-. discriminate.
Qed.

(** The rows of a statement that ran to the end past a listed function
    arrive with [_isDeterministicQuery] cleared. *)
Lemma SQuery_flag (q : Stmt) (s s1 : St) (rc : Z) (result : SQResult) :
  SQuery q s = Ok (rc, result) s1 →
  (∃ a, CbAuthorize a ∈ r_callbacks (default default_response (head (script (db s)))) ∧
        listed_function a) →
  rc = SQLITE_OK → _isDeterministicQuery (conn s1) = false.
Proof.
  unfold SQuery, next_response. intros H Hlisted ->. rewrite run_bind in H.
  cbv beta iota in H. mrun_in H. msplit H as v s2 E.
  pose proof (run_callbacks_flag _ _ _ _ _ E (or_intror Hlisted)) as Hflag. clear E.
  destruct v as [ignored| |]; mrun_in H; [|discriminate H|].
  - specialize (Hflag ignored eq_refl).
    destruct (r_code _ =? SQLITE_OK) eqn:Hcode.
    + mrun_in H.
      destruct (engine_exec q _ ignored (db s2)) as [[code rows] e].
      mrun_in H. injection H as _ _ <-. exact Hflag.
    + unfold when in H. destruct (r_autorollback _); mrun_in H;
        injection H as Hrc _ _; rewrite Hrc in Hcode; discriminate Hcode.
  - unfold when in H. destruct (r_autorollback _); mrun_in H; discriminate H.
Qed.

(** X1.  A [read] that misses the cache, and during which the engine
    reports a FUNCTION action named random, date, time, datetime,
    julianday, strftime, changes or last_insert_rowid, leaves the query
    cache as it was, whether it returns or throws. *)
Theorem read_skips_cache_for_listed_functions (query : string) (s s' : St) :
  _queryCache (conn s) !! query = None →
  (∃ a, CbAuthorize a ∈ r_callbacks (default default_response (head (script (db s)))) ∧
        listed_function a) →
  post (read query s) = Some s' →
  _queryCache (conn s') = _queryCache (conn s).
Proof.
  intros Hmiss Hlisted H. unfold read in H. mrun_in H. rewrite Hmiss in H. mrun_in H.
  rewrite run_bind in H.
  match type of H with context [SQuery ?q ?s0] =>
    destruct (SQuery q s0) as [[rc result] s1|e s1| |] eqn:E;
      [| exfalso; exact (quiet_SQuery q s0 ltac:(rewrite E; reflexivity))
       | discriminate H | discriminate H]
  end.
  assert (K : keeps (λ s, _queryCache (conn s)) (SQuery (SqlApp query))) by keeps_auto.
  match type of E with _ ?s0 = _ => specialize (K s0 s1) end.
  rewrite E in K. specialize (K eq_refl). cbv beta in K. ssimpl_in K.
  pose proof (SQuery_flag _ _ _ _ _ E Hlisted) as Hflag. clear E.
  mrun_in H.
  assert (Hskip : _isDeterministicQuery (conn s1) && (rc =? SQLITE_OK) = false).
  { destruct (rc =? SQLITE_OK) eqn:Hok; [|apply andb_false_r].
    apply Z.eqb_eq in Hok. rewrite (Hflag Hok). reflexivity. }
  rewrite Hskip in H. unfold when in H. rewrite bind_ret in H.
  match type of H with
  | post (?m ?s2) = _ =>
      assert (K2 : keeps (λ s, _queryCache (conn s)) m) by keeps_auto;
      apply K2 in H
  end.
  cbv beta in H. rewrite H. exact K.
Qed.

Lemma read_skips_cache_for_listed_functions_witness :
  let s := new_state [random_response] [] in
  _queryCache (conn s) !! "SELECT random();" = None ∧
  post (read "SELECT random();" s) = Some (after (read "SELECT random();" s) s) ∧
  _queryCache (conn (after (read "SELECT random();" s) s)) = ∅.
Proof.
  cbv zeta. split; [reflexivity|]. split; [vm_compute; reflexivity|].
  apply (read_skips_cache_for_listed_functions "SELECT random();" (new_state [random_response] [])).
  - reflexivity.
  - exists (function_call "random"). split.
    + apply list_elem_of_further, list_elem_of_here.
    + split; [reflexivity|]. exists "random". split; [reflexivity | apply list_elem_of_here].
  - vm_compute. reflexivity.
Defined.

(** * Who holds the commit lock *)

(** X2.  In a process that starts on a database without commits, whatever
    its connections do: a connection whose [_mutexLocked] is set holds the
    commit lock and no other connection has [_mutexLocked] set; and a
    connection with a prepared hash (after a [prepare] that returned true,
    until [commit] or [rollback]) has [_mutexLocked] set. *)
Theorem commit_lock_exclusive (SHashSHA1 SToHex : string → string) (w w' : World)
    (actions : list Action) (rows : list JournalRow) :
  initial w → run SHashSHA1 SToHex w actions = Some (w', rows) →
  ∀ i ci ei, w_conns w' !! i = Some (ci, ei) →
    (_mutexLocked ci = true →
       commitLock (w_shared w') = true ∧
       ∀ j cj ej, w_conns w' !! j = Some (cj, ej) → _mutexLocked cj = true → j = i) ∧
    (_uncommittedHash ci ≠ "" → _mutexLocked ci = true).
Proof.
  intros Hinitial Hrun i ci ei Hi.
  destruct (run_chain _ _ _ _ _ _ (initial_chain_inv _ w Hinitial) Hrun) as (Hinv & _).
  destruct (Hinv i ci ei Hi) as [Hlock Hhash]. split; [exact Hlock|].
  intros Hprepared. apply (Hhash Hprepared).
Qed.

Lemma commit_lock_exclusive_witness :
  let actions := [Act 0 (CallBeginTransaction SHARED);
                  Act 0 (CallWrite "INSERT INTO t VALUES (1);"); Act 0 CallPrepare] in
  initial one_connection ∧
  ∃ w' c e,
    run sample_SHashSHA1 sample_SToHex one_connection actions = Some (w', []) ∧
    w_conns w' !! 0%nat = Some (c, e) ∧ _uncommittedHash c ≠ "" ∧
    _mutexLocked c = true ∧ commitLock (w_shared w') = true.
Proof.
  cbv zeta.
  assert (Hinitial : initial one_connection).
  { do 3 (split; [reflexivity|]). intros [|i] c e Hi; [|discriminate Hi].
    injection Hi as <- <-. split; reflexivity. }
  split; [exact Hinitial|].
  destruct (run sample_SHashSHA1 sample_SToHex one_connection
              [Act 0 (CallBeginTransaction SHARED);
               Act 0 (CallWrite "INSERT INTO t VALUES (1);"); Act 0 CallPrepare])
    as [[w' rows]|] eqn:Hrun; [|vm_compute in Hrun; discriminate Hrun].
  destruct (w_conns w' !! 0%nat) as [[c e]|] eqn:Hc;
    [|vm_compute in Hrun; injection Hrun as <- _; discriminate Hc].
  assert (Hrows : rows = []) by (vm_compute in Hrun; injection Hrun as _ <-; reflexivity).
  assert (Hhash : _uncommittedHash c ≠ "").
  { vm_compute in Hrun. injection Hrun as <- _. injection Hc as <- _. discriminate. }
  destruct (commit_lock_exclusive _ _ _ _ _ _ Hinitial Hrun 0%nat c e Hc) as [Hlock Hprepared].
  exists w', c, e. rewrite Hrows. split; [reflexivity|]. split; [exact Hc|].
  split; [exact Hhash|]. split; [exact (Hprepared Hhash)|].
  apply (Hlock (Hprepared Hhash)).
Defined.

(** * A journal row that the engine refuses *)

(** X3.  A [prepare] that returns false (the INSERT into the journal
    failed) has rolled the transaction back: the connection is outside a
    transaction with empty uncommitted buffers, it has released the commit
    lock, once, and the commit count and last committed hash are as
    before. *)
Theorem prepare_failure_rolls_back (SHashSHA1 SToHex : string → string) (s s' : St) :
  prepare SHashSHA1 SToHex s = Ok false s' →
  _insideTransaction (conn s') = false ∧
  _uncommittedQuery (conn s') = "" ∧ _uncommittedHash (conn s') = "" ∧
  _mutexLocked (conn s') = false ∧ commitLock (shared s') = false ∧
  unlocks (trace s') = S (unlocks (trace s)) ∧
  commitCount (shared s') = commitCount (shared s) ∧
  lastCommittedHash (shared s') = lastCommittedHash (shared s).
Proof.
  intros Hprepare.
  pose proof (prepare_post _ _ _ _ _ Hprepare) as Hpost. cbv zeta in Hpost.
  destruct Hpost as (_ & _ & Hshared & Hunlocks & Hout & Hhash & Hquery & Hlocked).
  match type of Hshared with context [prepareTransactionInfo ?i ?q ?h ?n ?d] =>
    destruct (prepareTransactionInfo_fields i q h n d) as (Fcount & Flast & _)
  end.
  rewrite Hshared. ssimpl. rewrite Fcount, Flast.
  do 6 (split; [first [assumption | reflexivity]|]).
  destruct (_mutexLocked (conn s)); split; reflexivity.
Qed.

Lemma prepare_failure_rolls_back_witness :
  prepare sample_SHashSHA1 sample_SToHex refused_insert =
    Ok false (after (prepare sample_SHashSHA1 sample_SToHex refused_insert) refused_insert) ∧
  _mutexLocked (conn (after (prepare sample_SHashSHA1 sample_SToHex refused_insert)
                        refused_insert)) = false ∧
  commitLock (shared (after (prepare sample_SHashSHA1 sample_SToHex refused_insert)
                        refused_insert)) = false.
Proof.
  assert (E : prepare sample_SHashSHA1 sample_SToHex refused_insert =
                Ok false (after (prepare sample_SHashSHA1 sample_SToHex refused_insert)
                            refused_insert)) by (vm_compute; reflexivity).
  destruct (prepare_failure_rolls_back _ _ _ _ E) as (_ & _ & _ & Hlocked & Hlock & _).
  split; [exact E|]. split; [exact Hlocked | exact Hlock].
Defined.

(** * Why a call throws *)

Lemma keeps_limits_SQuery (q : Stmt) : keeps limits_view (SQuery q).
Proof. unfold limits_view. keeps_auto. Qed.

Lemma authorize_abandon (a : AuthAction) (c c' : SQLite) (rc : Z) :
  _authorize a c = Some (rc, c') → _abandonForCheckpoint c' = _abandonForCheckpoint c.
Proof. intros H. destruct (authorize_frame _ _ _ _ H) as (q & d & ->). reflexivity. Qed.

(** The callbacks raise [_abandonForCheckpoint] only for a busy checkpoint
    thread that the connection lets interrupt. *)
Lemma run_callbacks_cause (cbs : list Callback) (ignored : bool) (s s1 : St) :
  post (run_callbacks cbs ignored s) = Some s1 → checkpoint_cause s1 → checkpoint_cause s.
Proof.
  revert ignored s. induction cbs as [|[a|] cbs IH]; intros ignored s; cbn [run_callbacks].
  - intros [= <-]. trivial.
  - rewrite run_bind. unfold _sqliteAuthorizerCallback at 1.
    destruct (_authorize a (conn s)) as [[rc c]|] eqn:E; [|discriminate].
    pose proof (authorize_abandon _ _ _ _ E) as Ha.
    destruct (authorize_frame _ _ _ _ E) as (q & d & Hc).
    assert (Hback : checkpoint_cause (set_conn c s) → checkpoint_cause s).
    { unfold checkpoint_cause. ssimpl. rewrite Ha. rewrite Hc. ssimpl. trivial. }
    destruct (rc =? SQLITE_OK); [intros H1 H2; exact (Hback (IH _ _ H1 H2))|].
    destruct (rc =? SQLITE_IGNORE); [intros H1 H2; exact (Hback (IH _ _ H1 H2))|].
    intros [= <-]. exact Hback.
  - rewrite run_bind. unfold _progressHandlerCallback at 1. mrun.
    destruct (negb (_timeoutLimit (conn s) =? 0) && _) eqn:Hlate; mrun.
    + intros [= <-]. unfold checkpoint_cause. ssimpl. trivial.
    + destruct (_checkpointThreadBusy (shared s) =? 0) eqn:Hbusy; cbn [negb]; mrun.
      * change (0 =? 0) with true. cbv iota. intros H1 H2.
        exact (IH _ _ H1 H2).
      * destruct (_enableCheckpointInterrupt (conn s)) eqn:Hen; mrun.
        -- intros [= <-] _. right. split; [|exact Hen]. apply Z.eqb_neq, Hbusy.
        -- change (0 =? 0) with true. cbv iota. intros H1 H2. exact (IH _ _ H1 H2).
Qed.

Lemma SQuery_cause (q : Stmt) (s s1 : St) :
  post (SQuery q s) = Some s1 → checkpoint_cause s1 → checkpoint_cause s.
Proof.
  unfold SQuery, next_response. rewrite run_bind. cbv beta iota. mrun.
  rewrite run_bind.
  match goal with |- context [run_callbacks ?cbs false ?s0] =>
    pose proof (run_callbacks_cause cbs false s0) as Hcb;
    destruct (run_callbacks cbs false s0) as [v s2|e s2| |]; cbn [post]; try discriminate
  end.
  - specialize (Hcb s2 eq_refl).
    assert (Hdb : ∀ (f : sqlite3 → sqlite3) (m : M (Z * SQResult)) s3,
              post ((when true (setDb f);; m) s3) = post (m (set_db (f (db s3)) s3)))
      by reflexivity.
    intros H Hc. apply Hcb. revert H Hc.
    destruct v as [ignored| |].
    + destruct (r_code _ =? SQLITE_OK).
      * mrun. destruct (engine_exec _ _ _ _) as [[code rows] e']. mrun.
        intros [= <-]. trivial.
      * unfold when. destruct (r_autorollback _); mrun; intros [= <-]; trivial.
    + mrun. intros [= <-]. trivial.
    + unfold when. destruct (r_autorollback _); mrun; intros [= <-]; trivial.
  - intros [= <-]. apply Hcb. reflexivity.
Qed.

(** How [_checkInterruptErrors] throws. *)
Lemma checkInterruptErrors_throw (error : string) (s s' : St) (e : Exception) :
  _checkInterruptErrors error s = Throw e s' →
  _abandonForCheckpoint (conn s') = false ∧ db s' = db s ∧
  _insideTransaction (conn s') = _insideTransaction (conn s) ∧
  (_insideTransaction (conn s) = true → txn (db s) = None →
   _autoRolledBack (conn s') = true) ∧
  match e with
  | timeout_error what time =>
      _timeoutLimit (conn s) ≠ 0 ∧ _abandonForCheckpoint (conn s) = false ∧
      what = "timeout in " +:+ error ∧ time ≠ 0 ∧
      _timeoutLimit (conn s') = 0 ∧ _timeoutStart (conn s') = 0 ∧ _timeoutError (conn s') = 0
  | checkpoint_required_error => _abandonForCheckpoint (conn s) = true
  end.
Proof.
  unfold _checkInterruptErrors, resetTiming, when, sqlite3_get_autocommit. mrun.
  destruct (_timeoutLimit (conn s) =? 0) eqn:Hlimit; cbn [negb]; mrun.
  - destruct (_abandonForCheckpoint (conn s)) eqn:Hab.
    + change (negb (2 =? 0)) with true. cbn [andb].
      destruct (_insideTransaction (conn s)) eqn:Hin, (txn (db s)) eqn:Htxn; cbn [andb]; mrun;
        change (2 =? 1) with false; change (2 =? 2) with true; cbv iota;
        intros [= <- <-]; ssimpl; repeat split; congruence.
    + change (negb (0 =? 0)) with false. cbn [andb]. mrun.
      change (0 =? 1) with false; change (0 =? 2) with false; cbv iota. discriminate.
  - apply Z.eqb_neq in Hlimit.
    destruct (_timeoutLimit (conn s) <? _); mrun.
    all: match goal with |- context [negb (?t =? 0)] => destruct (t =? 0) eqn:Herr end;
      cbn [negb]; mrun.
    all: destruct (_abandonForCheckpoint (conn s)) eqn:Hab.
    all: repeat match goal with
           | |- context [negb (?a =? ?b)] =>
               first [ change (a =? b) with true | change (a =? b) with false ]; cbn [negb andb]
           end.
    all: try (destruct (_insideTransaction (conn s)) eqn:Hin, (txn (db s)) eqn:Htxn; cbn [andb]; mrun).
    all: repeat match goal with
           | |- context [if (?a =? ?b) then _ else _] =>
               first [ change (a =? b) with true | change (a =? b) with false ]; cbv iota
           end.
    all: try discriminate.
    all: intros [= <- <-]; ssimpl; repeat split; try assumption; try reflexivity;
      try congruence.
    all: apply Z.eqb_neq; assumption.
Qed.

(** A throwing [read] throws from its [_checkInterruptErrors], reached
    with the limits it was called with. *)
Lemma read_throws_at (query : string) (s s' : St) (e : Exception) :
  read query s = Throw e s' →
  ∃ s2, _checkInterruptErrors "SQLite::read" s2 = Throw e s' ∧
        limits_view s2 = limits_view s ∧ (checkpoint_cause s2 → checkpoint_cause s).
Proof.
  unfold read. intros H. mrun_in H.
  destruct (_queryCache (conn s) !! query); [mrun_in H; discriminate H|].
  mrun_in H. msplit H as [rc result] s1 E1; [|exfalso; no_throw E1].
  pose proof (keeps_limits_SQuery _ _ s1 ltac:(rewrite E1; reflexivity)) as L1.
  pose proof (SQuery_cause _ _ s1 ltac:(rewrite E1; reflexivity)) as C1.
  mrun_in H. unfold when in H.
  destruct (_isDeterministicQuery (conn s1) && (rc =? SQLITE_OK)); mrun_in H;
    msplit H as [] s3 E3; injection H as <- <-;
    eexists; (split; [exact E3|]); split; first [exact L1 | exact C1].
Qed.

Lemma fetch_Ok (r : SQResult) (i j : nat) (s s1 : St) (v : string) :
  fetch r i j s = Ok v s1 → s1 = s ∧ cell r i j = Some v.
Proof. unfold fetch. destruct (cell r i j); [intros [= <- <-]; auto | discriminate]. Qed.

(** What follows [_checkInterruptErrors] in [_writeIdempotent] does not
    throw. *)
Ltac write_tail H :=
  exfalso; revert H; mrun;
  match goal with |- context [negb (?c =? SQLITE_OK)] => destruct (negb (c =? SQLITE_OK)) end;
  mrun; [discriminate|];
  intros H;
  let E5 := fresh "E" in
  let s5 := fresh "s" in
  msplit H as [? ?] s5 E5; [|no_throw E5];
  mrun_in H;
  match type of H with context [if ?c =? SQLITE_OK then _ else _] =>
    destruct (c =? SQLITE_OK); [|discriminate H]
  end;
  let E6 := fresh "E" in
  let s6 := fresh "s" in
  msplit H as ? s6 E6; [|unfold fetch in E6; destruct (cell _ _ _); discriminate E6];
  mrun_in H; unfold when in H;
  match type of H with context [if ?b then _ else _] => destruct b end;
  mrun_in H; discriminate H.

Lemma writeIdempotent_throws_at (query : string) (keep : bool) (s s' : St) (e : Exception) :
  _writeIdempotent query keep s = Throw e s' →
  ∃ s2, _checkInterruptErrors "SQLite::write" s2 = Throw e s' ∧
        limits_view s2 = limits_view s ∧ (checkpoint_cause s2 → checkpoint_cause s).
Proof.
  unfold _writeIdempotent. intros H. mrun_in H.
  destruct (_insideTransaction (conn s)); [|discriminate H].
  destruct (isEmpty query || SEndsWith query ";"); [|discriminate H].
  msplit H as [rc results] s1 E1; [|exfalso; no_throw E1].
  pose proof (keeps_limits_SQuery _ _ s1 ltac:(rewrite E1; reflexivity)) as L1.
  pose proof (SQuery_cause _ _ s1 ltac:(rewrite E1; reflexivity)) as C1.
  mrun_in H. destruct (rc =? SQLITE_OK); [|discriminate H].
  msplit H as version s1' Ef; [|unfold fetch in Ef; destruct (cell _ _ _); discriminate Ef].
  apply fetch_Ok in Ef as [-> _]. mrun_in H.
  destruct (_enableRewrite (conn s1)).
  - mrun_in H. msplit H as [code rows] s2 E2; [|exfalso; no_throw E2].
    pose proof (keeps_limits_SQuery _ _ s2 ltac:(rewrite E2; reflexivity)) as L2.
    pose proof (SQuery_cause _ _ s2 ltac:(rewrite E2; reflexivity)) as C2.
    mrun_in H. destruct (code =? SQLITE_AUTH).
    + mrun_in H. destruct (SEndsWith (_rewrittenQuery (conn s2)) ";"); [|discriminate H].
      msplit H as [code' rows'] s3 E3; [|exfalso; no_throw E3].
      pose proof (keeps_limits_SQuery _ _ s3 ltac:(rewrite E3; reflexivity)) as L3.
      pose proof (SQuery_cause _ _ s3 ltac:(rewrite E3; reflexivity)) as C3.
      mrun_in H. msplit H as [] s4 E4; [write_tail H|].
      injection H as <- <-. eexists. split; [exact E4|]. split.
      * etransitivity; [|exact L1]. etransitivity; [|exact L2]. exact L3.
      * intros Hc. apply C1, C2, C3. exact Hc.
    + mrun_in H. msplit H as [] s4 E4; [write_tail H|].
      injection H as <- <-. eexists. split; [exact E4|]. split.
      * etransitivity; [|exact L1]. exact L2.
      * intros Hc. apply C1, C2. exact Hc.
  - mrun_in H. msplit H as [code rows] s2 E2; [|exfalso; no_throw E2].
    pose proof (keeps_limits_SQuery _ _ s2 ltac:(rewrite E2; reflexivity)) as L2.
    pose proof (SQuery_cause _ _ s2 ltac:(rewrite E2; reflexivity)) as C2.
    mrun_in H. msplit H as [] s4 E4; [write_tail H|].
    injection H as <- <-. eexists. split; [exact E4|]. split.
    + etransitivity; [|exact L1]. exact L2.
    + intros Hc. apply C1, C2. exact Hc.
Qed.

(** Why the [_checkInterruptErrors] of a statement throws, in terms of the
    state the statement was called in. *)
Lemma statement_throws (error : string) (s s2 s' : St) (e : Exception) :
  _checkInterruptErrors error s2 = Throw e s' →
  limits_view s2 = limits_view s → (checkpoint_cause s2 → checkpoint_cause s) →
  _abandonForCheckpoint (conn s') = false ∧
  match e with
  | timeout_error what time =>
      _timeoutLimit (conn s) ≠ 0 ∧ what = "timeout in " +:+ error ∧ time ≠ 0 ∧
      _timeoutLimit (conn s') = 0
  | checkpoint_required_error => checkpoint_cause s
  end.
Proof.
  intros E L C. injection L as _ _ Llimit _ _.
  destruct (checkInterruptErrors_throw _ _ _ _ E) as (Hclear & _ & _ & _ & Hwhy).
  split; [exact Hclear|].
  destruct e as [what time|].
  - destruct Hwhy as (Hl & _ & Hwhat & Htime & Hl' & _).
    rewrite Llimit in Hl. repeat split; assumption.
  - apply C. left. exact Hwhy.
Qed.

(** X4.  [read] and [_writeIdempotent] (so [write], [writeIdempotent] and
    [writeUnmodified]) throw only for a cause.  A [timeout_error] needs a
    time limit ([startTiming]); it names the function, carries a non-zero
    elapsed time and leaves the limit reset.  A
    [checkpoint_required_error] needs [_abandonForCheckpoint] set on entry,
    or a busy checkpoint thread with [_enableCheckpointInterrupt] on.
    Either way [_abandonForCheckpoint] is clear afterwards. *)
Theorem statements_throw_for_cause :
  (∀ query s e s', read query s = Throw e s' →
     _abandonForCheckpoint (conn s') = false ∧
     match e with
     | timeout_error what time =>
         _timeoutLimit (conn s) ≠ 0 ∧ what = "timeout in SQLite::read" ∧ time ≠ 0 ∧
         _timeoutLimit (conn s') = 0
     | checkpoint_required_error => checkpoint_cause s
     end) ∧
  (∀ query keep s e s', _writeIdempotent query keep s = Throw e s' →
     _abandonForCheckpoint (conn s') = false ∧
     match e with
     | timeout_error what time =>
         _timeoutLimit (conn s) ≠ 0 ∧ what = "timeout in SQLite::write" ∧ time ≠ 0 ∧
         _timeoutLimit (conn s') = 0
     | checkpoint_required_error => checkpoint_cause s
     end).
Proof.
  split.
  - intros query s e s' H.
    destruct (read_throws_at _ _ _ _ H) as (s2 & E & L & C).
    exact (statement_throws _ _ _ _ _ E L C).
  - intros query keep s e s' H.
    destruct (writeIdempotent_throws_at _ _ _ _ _ H) as (s2 & E & L & C).
    exact (statement_throws _ _ _ _ _ E L C).
Qed.

Lemma statements_throw_for_cause_witness :
  let s' := after (read "SELECT 1;" timed_out_read) timed_out_read in
  read "SELECT 1;" timed_out_read = Throw (timeout_error "timeout in SQLite::read" 20) s' ∧
  _abandonForCheckpoint (conn s') = false ∧
  _timeoutLimit (conn timed_out_read) ≠ 0 ∧ _timeoutLimit (conn s') = 0.
Proof.
  cbv zeta. split; [vm_compute; reflexivity|].
  destruct (proj1 statements_throw_for_cause "SELECT 1;" timed_out_read
              (timeout_error "timeout in SQLite::read" 20)
              (after (read "SELECT 1;" timed_out_read) timed_out_read))
    as (Hclear & Hlimit & _ & _ & Hreset); [vm_compute; reflexivity|].
  auto.
Defined.

(** * From prepare to the list of committed transactions *)

#[local] Transparent incrementCommit prepareTransactionInfo.

(** The two maps of [SharedData] across a prepare and the commit of the
    same id. *)
Lemma incrementCommit_prepared (q h : string) (n : Z) (d : SharedData) :
  let id := u64 (commitCount d + 1) in
  let d' := incrementCommit h (prepareTransactionInfo id q h n d) in
  _preparedTransactions d' = delete id (_preparedTransactions d) ∧
  _committedTransactions d' =
    match _committedTransactions d !! id with
    | Some _ => _committedTransactions d
    | None => <[id := (q, h, n)]> (_committedTransactions d)
    end.
Proof.
  cbv zeta. unfold incrementCommit, commitTransactionInfo, prepareTransactionInfo. ssimpl.
  rewrite lookup_insert_eq. ssimpl. rewrite delete_insert_eq.
  split; reflexivity.
Qed.

#[local] Opaque incrementCommit prepareTransactionInfo.

(** X5.  A transaction that [prepare] registered and [commit] committed
    with SQLITE_OK leaves the prepared transactions and enters the
    committed ones under its commit id, with its query, its hash and the
    commit count at its start ([std::map::insert] keeps an entry the id
    already has); [popCommittedTransactions] then returns the committed
    transactions and leaves none, so that a second call returns an empty
    map. *)
Theorem committed_transaction_is_popped (SHashSHA1 SToHex : string → string)
    (s s1 s2 : St) :
  prepare SHashSHA1 SToHex s = Ok true s1 →
  commit s1 = Ok SQLITE_OK s2 →
  let id := u64 (commitCount (shared s) + 1) in
  let info : TransactionInfo :=
    (_uncommittedQuery (conn s),
     SToHex (SHashSHA1 (lastCommittedHash (shared s) +:+ _uncommittedQuery (conn s))),
     _dbCountAtStart (conn s)) in
  commitCount (shared s2) = id ∧
  _preparedTransactions (shared s2) = delete id (_preparedTransactions (shared s)) ∧
  _committedTransactions (shared s2) =
    match _committedTransactions (shared s) !! id with
    | Some _ => _committedTransactions (shared s)
    | None => <[id := info]> (_committedTransactions (shared s))
    end ∧
  ∃ s3, popCommittedTransactions s2 = Ok (_committedTransactions (shared s2)) s3 ∧
        _committedTransactions (shared s3) = ∅ ∧
        popCommittedTransactions s3 = Ok ∅ s3.
Proof.
  intros Hprepare Hcommit. cbv zeta.
  pose proof (prepare_post _ _ _ _ _ Hprepare) as Hp. cbv zeta in Hp.
  destruct Hp as (_ & _ & Hshared1 & _ & _ & Hhash1 & _).
  destruct (commit_post _ _ _ Hcommit) as (_ & _ & [Hok|[Hrc _]]); [|discriminate Hrc].
  destruct Hok as (_ & Hshared2 & _).
  rewrite Hhash1, Hshared1 in Hshared2.
  match type of Hshared2 with
  | context [prepareTransactionInfo _ ?q ?h ?n ?d] =>
      pose proof (incrementCommit_prepared q h n d) as Hmaps;
      destruct (incrementCommit_fields h
                  (prepareTransactionInfo (u64 (commitCount d + 1)) q h n d))
        as (_ & _ & _ & Hcount & _);
      destruct (prepareTransactionInfo_fields (u64 (commitCount d + 1)) q h n d)
        as (Hcount' & _)
  end.
  cbv zeta in Hmaps.
  assert (Hd : ∀ d : SharedData,
            commitCount (if _mutexLocked (conn s) then d else set_commitLock true d)
              = commitCount d ∧
            _preparedTransactions (if _mutexLocked (conn s) then d else set_commitLock true d)
              = _preparedTransactions d ∧
            _committedTransactions (if _mutexLocked (conn s) then d else set_commitLock true d)
              = _committedTransactions d)
    by (intros d; destruct (_mutexLocked (conn s)); repeat split).
  destruct (Hd (shared s)) as (Hc & Hp & Hm).
  rewrite Hc in Hmaps, Hcount, Hcount'. rewrite Hp, Hm in Hmaps.
  destruct Hmaps as [Hprepared Hcommitted].
  split; [rewrite Hshared2; ssimpl; rewrite Hcount, Hcount'; reflexivity|].
  split; [rewrite Hshared2; exact Hprepared|].
  split; [rewrite Hshared2; exact Hcommitted|].
  eexists. split; [reflexivity|]. split; reflexivity.
Qed.

Lemma committed_transaction_is_popped_witness :
  prepare sample_SHashSHA1 sample_SToHex sample_written = Ok true sample_prepared ∧
  commit sample_prepared = Ok SQLITE_OK sample_committed ∧
  commitCount (shared sample_committed) = 1 ∧
  _preparedTransactions (shared sample_committed) = ∅ ∧
  _committedTransactions (shared sample_committed) =
    {[ 1 := ("INSERT INTO t VALUES (1);", "hex(sha1(INSERT INTO t VALUES (1);))", 0) ]}.
Proof.
  assert (Hp : prepare sample_SHashSHA1 sample_SToHex sample_written = Ok true sample_prepared)
    by (vm_compute; reflexivity).
  assert (Hc : commit sample_prepared = Ok SQLITE_OK sample_committed)
    by (vm_compute; reflexivity).
  split; [exact Hp|]. split; [exact Hc|].
  destruct (committed_transaction_is_popped _ _ _ _ _ Hp Hc) as (H1 & H2 & H3 & _).
  split; [exact H1|]. split; [rewrite H2; reflexivity|]. rewrite H3. reflexivity.
Defined.

(** * Beginning a transaction *)

Lemma i32_pred_succ (x : Z) : i32 (i32 (x + 1) - 1) = i32 x.
Proof.
  unfold i32. f_equal.
  replace (x + 1 + 2 ^ 31) with (x + 2 ^ 31 + 1) by lia.
  replace ((x + 2 ^ 31 + 1) mod 2 ^ 32 - 2 ^ 31 - 1 + 2 ^ 31)
    with ((x + 2 ^ 31 + 1) mod 2 ^ 32 - 1) by lia.
  rewrite Zminus_mod_idemp_l. f_equal. lia.
Qed.

Lemma i32_small (x : Z) : - 2 ^ 31 ≤ x < 2 ^ 31 → i32 x = x.
Proof. intros H. unfold i32. rewrite Z.mod_small; lia. Qed.

(** What a returning [beginTransaction] has done. *)
Lemma beginTransaction_members (type : TRANSACTION_TYPE) (s s' : St) (ok : bool) :
  beginTransaction type s = Ok ok s' →
  _insideTransaction (conn s) = false ∧ _uncommittedQuery (conn s) = "" ∧
  _uncommittedHash (conn s) = "" ∧
  ok = _insideTransaction (conn s') ∧
  _uncommittedQuery (conn s') = "" ∧ _uncommittedHash (conn s') = "" ∧
  _queryCache (conn s') = ∅ ∧ _queryCount (conn s') = 0 ∧ _cacheHits (conn s') = 0 ∧
  _dbCountAtStart (conn s') = commitCount (shared s) ∧
  _currentlyRunningRewritten (conn s') = _currentlyRunningRewritten (conn s) ∧
  shared s' =
    set_currentTransactionCount (i32 (currentTransactionCount (shared s) + 1))
      match type with
      | SHARED => shared s
      | EXCLUSIVE => set_commitLock true (shared s)
      end ∧
  match type with
  | SHARED => _mutexLocked (conn s') = _mutexLocked (conn s)
  | EXCLUSIVE => commitLock (shared s) = false ∧ _mutexLocked (conn s') = true
  end.
Proof.
  unfold beginTransaction, getCommitCount. intros H.
  assert (K : keeps (λ s, (shared s, _insideTransaction (conn s), _uncommittedQuery (conn s),
                           _uncommittedHash (conn s), _mutexLocked (conn s),
                           _currentlyRunningRewritten (conn s)))
                (SQuery SqlBeginConcurrent)) by keeps_auto.
  destruct type.
  - mrun_in H.
    destruct (_insideTransaction (conn s)) eqn:Hin; [discriminate H|]. cbn [negb] in H.
    unfold isEmpty in H. case_bool_decide as Hhash; [|discriminate H].
    case_bool_decide as Hquery; [|discriminate H].
    mrun_in H. msplit H as [rc rows] s1 E.
    specialize (K _ s1 ltac:(rewrite E; reflexivity)). cbv beta in K. ssimpl_in K.
    injection K as Kshared Kin Kquery Khash Klocked Krunning.
    mrun_in H. injection H as <- <-. ssimpl.
    rewrite Kshared, Kquery, Khash, Klocked, Krunning. ssimpl. repeat split; assumption.
  - rewrite !bind_assoc, bind_commitLock_lock in H.
    destruct (commitLock (shared s)) eqn:Hfree; [discriminate H|].
    mrun_in H.
    destruct (_insideTransaction (conn s)) eqn:Hin; [discriminate H|]. cbn [negb] in H.
    unfold isEmpty in H. case_bool_decide as Hhash; [|discriminate H].
    case_bool_decide as Hquery; [|discriminate H].
    mrun_in H. msplit H as [rc rows] s1 E.
    specialize (K _ s1 ltac:(rewrite E; reflexivity)). cbv beta in K. ssimpl_in K.
    injection K as Kshared Kin Kquery Khash Klocked Krunning.
    mrun_in H. injection H as <- <-. ssimpl.
    rewrite Kshared, Kquery, Khash, Klocked, Krunning. ssimpl. repeat split; assumption.
Qed.

(** X6.  [beginTransaction] returns whether BEGIN CONCURRENT succeeded,
    which is what it leaves in [_insideTransaction].  Either way it has
    counted the transaction in [currentTransactionCount] ([int]
    arithmetic) and stored the commit count in [_dbCountAtStart]; an
    EXCLUSIVE one has also taken the commit lock, which was free, and set
    [_mutexLocked].  A [rollback] that follows a true return takes the
    transaction off the count again and releases the lock if
    [_mutexLocked] is set; one that follows a false return touches neither
    the shared data nor [_mutexLocked]: the transaction stays counted and
    an EXCLUSIVE lock stays held. *)
Theorem beginTransaction_is_counted (type : TRANSACTION_TYPE) (s s1 : St) (ok : bool) :
  beginTransaction type s = Ok ok s1 →
  ok = _insideTransaction (conn s1) ∧
  currentTransactionCount (shared s1) = i32 (currentTransactionCount (shared s) + 1) ∧
  _dbCountAtStart (conn s1) = commitCount (shared s) ∧
  match type with
  | SHARED =>
      commitLock (shared s1) = commitLock (shared s) ∧
      _mutexLocked (conn s1) = _mutexLocked (conn s)
  | EXCLUSIVE =>
      commitLock (shared s) = false ∧ commitLock (shared s1) = true ∧
      _mutexLocked (conn s1) = true
  end ∧
  ∀ s2, rollback s1 = Ok () s2 →
    if ok then
      currentTransactionCount (shared s2) = i32 (currentTransactionCount (shared s)) ∧
      _mutexLocked (conn s2) = false ∧
      commitLock (shared s2) = (if _mutexLocked (conn s1) then false else commitLock (shared s))
    else
      shared s2 = shared s1 ∧ _mutexLocked (conn s2) = _mutexLocked (conn s1).
Proof.
  intros H.
  destruct (beginTransaction_members _ _ _ _ H)
    as (_ & _ & _ & Hok & _ & _ & _ & _ & _ & Hcount & _ & Hshared & Htype).
  split; [exact Hok|]. split; [rewrite Hshared; reflexivity|]. split; [exact Hcount|].
  split.
  - destruct type; rewrite Hshared; ssimpl; [split; [reflexivity | exact Htype]|].
    destruct Htype as [Hfree Hlocked]. repeat split; assumption.
  - intros s2 Hrollback.
    destruct (rollback_post s1 s2 ltac:(rewrite Hrollback; reflexivity))
      as (_ & _ & _ & Hpost).
    rewrite <- Hok in Hpost. destruct ok.
    + destruct Hpost as (_ & _ & Hunlocked & Hshared2 & _).
      rewrite Hshared2, Hshared. ssimpl. rewrite i32_pred_succ.
      split; [reflexivity|]. split; [exact Hunlocked|].
      destruct (_mutexLocked (conn s1)); [reflexivity|].
      destruct type; [reflexivity|]. destruct Htype as [_ Hl]. discriminate Hl.
    + unfold txn_view in Hpost. injection Hpost as Vshared _ _ _ _ Vlocked _.
      split; [exact Vshared | exact Vlocked].
Qed.

Lemma beginTransaction_is_counted_witness :
  let s := new_state [busy_response] [] in
  let s1 := after (beginTransaction EXCLUSIVE s) s in
  beginTransaction EXCLUSIVE s = Ok false s1 ∧
  currentTransactionCount (shared s1) = 1 ∧
  commitLock (shared s1) = true ∧ _mutexLocked (conn s1) = true ∧
  ∀ s2, rollback s1 = Ok () s2 →
    currentTransactionCount (shared s2) = 1 ∧ commitLock (shared s2) = true ∧
    _mutexLocked (conn s2) = true.
Proof.
  cbv zeta.
  assert (H : beginTransaction EXCLUSIVE (new_state [busy_response] []) =
              Ok false (after (beginTransaction EXCLUSIVE (new_state [busy_response] []))
                          (new_state [busy_response] [])))
    by (vm_compute; reflexivity).
  split; [exact H|].
  destruct (beginTransaction_is_counted _ _ _ _ H) as (_ & Hcount & _ & Hlock & Hrollback).
  destruct Hlock as (_ & Hheld & Hlocked).
  split; [exact Hcount|]. split; [exact Hheld|]. split; [exact Hlocked|].
  intros s2 H2. destruct (Hrollback s2 H2) as [Hshared Hl].
  rewrite Hshared, Hl. auto.
Defined.

(** * Between two calls *)

Lemma settled_of_view (s s' : St) :
  settled_view s' = settled_view s → settled (conn s) → settled (conn s').
Proof. unfold settled_view, settled. intros [= -> -> -> ->]. trivial. Qed.

Lemma keeps_settled_rollback :
  keeps (λ s, _currentlyRunningRewritten (conn s)) rollback.
Proof. unfold rollback. keeps_auto. Qed.

Lemma rollback_settled (s s' : St) :
  settled (conn s) → post (rollback s) = Some s' → settled (conn s').
Proof.
  intros [Hout Hrun] H. pose proof (keeps_settled_rollback s s' H) as K. cbv beta in K.
  destruct (rollback_post s s' H) as (_ & _ & Hin & Hpost).
  split; [|congruence]. intros _.
  destruct (_insideTransaction (conn s)).
  - destruct Hpost as (Hhash & Hquery & _). auto.
  - unfold txn_view in Hpost. injection Hpost as _ _ _ Vhash Vquery _ _.
    rewrite Vhash, Vquery. auto.
Qed.

Lemma writeIdempotent_settled (query : string) (keep : bool) (s s' : St) :
  settled (conn s) → post (_writeIdempotent query keep s) = Some s' → settled (conn s').
Proof.
  intros [_ Hrun] H.
  assert (Kin : keeps (λ s, _insideTransaction (conn s)) (_writeIdempotent query keep))
    by (unfold _writeIdempotent; keeps_auto).
  specialize (Kin s s' H). cbv beta in Kin.
  assert (Hin : _insideTransaction (conn s) = true).
  { unfold _writeIdempotent in H. rewrite bind_getConn, bind_SASSERT in H.
    destruct (_insideTransaction (conn s)); [reflexivity | discriminate H]. }
  split; [congruence|].
  unfold _writeIdempotent in H. mrun_in H. rewrite Hin in H.
  destruct (isEmpty query || SEndsWith query ";"); [|discriminate H].
  rewrite run_bind in H.
  match type of H with context [SQuery ?q ?s0] =>
    assert (K1 : keeps (λ s, _currentlyRunningRewritten (conn s)) (SQuery q)) by keeps_auto;
    specialize (K1 s0);
    destruct (SQuery q s0) as [[rc results] s1|e s1| |] eqn:E1;
      [|exfalso; no_throw E1|discriminate H..]
  end.
  specialize (K1 s1 eq_refl). cbv beta in K1. ssimpl_in K1. rewrite Hrun in K1.
  mrun_in H. destruct (rc =? SQLITE_OK); [|discriminate H].
  rewrite run_bind in H.
  destruct (fetch results 0 0 s1) as [version s1'| | |] eqn:Ef;
    [|unfold fetch in Ef; destruct (cell _ _ _); discriminate Ef|discriminate H..].
  apply fetch_Ok in Ef as [-> _]. mrun_in H.
  rewrite run_bind in H.
  match type of H with
  | context [match ?blk ?s0 with Ok _ _ => _ | Throw _ _ => _ | Abort => _ | Blocked => _ end] =>
      assert (Hblock : ∀ r s2, blk s0 = Ok r s2 → _currentlyRunningRewritten (conn s2) = false);
      [|destruct (blk s0) as [r s2|e s2| |] eqn:E2]
  end.
  - intros r s2 E2. destruct (_enableRewrite (conn s1)).
    + mrun_in E2. msplit E2 as [code rows] s3 E3.
      match type of E3 with SQuery ?q ?s0 = _ =>
        assert (K3 : keeps (λ s, _currentlyRunningRewritten (conn s)) (SQuery q))
          by keeps_auto;
        specialize (K3 s0 s3 ltac:(rewrite E3; reflexivity))
      end.
      cbv beta in K3. ssimpl_in K3. mrun_in E2.
      destruct (code =? SQLITE_AUTH).
      * mrun_in E2. destruct (SEndsWith (_rewrittenQuery (conn s3)) ";"); [|discriminate E2].
        msplit E2 as [code' rows'] s4 E4. mrun_in E2. injection E2 as _ <-. reflexivity.
      * mrun_in E2. injection E2 as _ <-. congruence.
    + mrun_in E2. msplit E2 as [code rows] s3 E3.
      match type of E3 with SQuery ?q ?s0 = _ =>
        assert (K3 : keeps (λ s, _currentlyRunningRewritten (conn s)) (SQuery q))
          by keeps_auto;
        specialize (K3 s0 s3 ltac:(rewrite E3; reflexivity))
      end.
      cbv beta in K3. ssimpl_in K3. mrun_in E2. injection E2 as _ <-. congruence.
  - specialize (Hblock r s2 eq_refl). destruct r as [result used].
    match type of H with post (?k ?s0) = _ =>
      match k with
      | context [_checkInterruptErrors] =>
          assert (K : keeps (λ s, _currentlyRunningRewritten (conn s)) k) by keeps_auto;
          specialize (K s0 s' H)
      end
    end.
    cbv beta in K. congruence.
  - exfalso. no_throw E2.
  - discriminate H.
  - discriminate H.
Qed.

Lemma setUpdateNoopMode_settled (enabled : bool) (s s' : St) :
  settled (conn s) → post (setUpdateNoopMode enabled s) = Some s' → settled (conn s').
Proof.
  intros Hs H.
  assert (K : keeps (λ s, (_insideTransaction (conn s), _uncommittedHash (conn s),
                           _currentlyRunningRewritten (conn s)))
                (setUpdateNoopMode enabled)) by (unfold setUpdateNoopMode; keeps_auto).
  specialize (K s s' H). cbv beta in K. injection K as Kin Khash Krun.
  destruct Hs as [Hout Hrun]. split; [|congruence].
  intros Hin'. rewrite Kin in Hin'. destruct (Hout Hin') as [Hquery Hhash].
  split; [|congruence].
  unfold setUpdateNoopMode in H. mrun_in H.
  destruct (bool_decide (_noopUpdateMode (conn s) = enabled)).
  - injection H as <-. exact Hquery.
  - rewrite run_bind in H.
    match type of H with context [SQuery ?q ?s0] =>
      assert (K1 : keeps (λ s, (_insideTransaction (conn s), _uncommittedQuery (conn s)))
                     (SQuery q)) by keeps_auto;
      specialize (K1 s0);
      destruct (SQuery q s0) as [[rc results] s1|e s1| |] eqn:E1;
        [|exfalso; no_throw E1|discriminate H..]
    end.
    specialize (K1 s1 eq_refl). cbv beta in K1. injection K1 as K1in K1query.
    mrun_in H. rewrite K1in, Hin' in H. unfold when in H. mrun_in H.
    injection H as <-. ssimpl. congruence.
Qed.

Lemma SQLite_copy_settled (from c : SQLite) (s s' : St) :
  SQLite_copy from s = Ok c s' → settled c.
Proof.
  unfold SQLite_copy. intros H. mrun_in H.
  match type of H with context [match ?x with Some _ => _ | None => _ end] =>
    destruct x as [name|]; [|discriminate H]
  end.
  mrun_in H.
  repeat match type of H with
         | (if ?b then _ else _) = _ => destruct b; [|discriminate H]
         end.
  injection H as <- <-. split; [split|]; reflexivity.
Qed.

Section Settled.

Context (SHashSHA1 SToHex : string → string).

Lemma call_settled (c : Call) (s s' : St) :
  settled (conn s) → post (call SHashSHA1 SToHex c s) = Some s' → settled (conn s').
Proof.
  intros Hs.
  assert (Hkeep : ∀ m : M Z, keeps settled_view m → post (m s) = Some s' → settled (conn s')).
  { intros m K H. exact (settled_of_view _ _ (K s s' H) Hs). }
  assert (Hthen : ∀ {A} (m : M A),
            (∀ s1, post (m s) = Some s1 → settled (conn s1)) →
            post ((m;; mret 0) s) = Some s' → settled (conn s')).
  { intros A m Hm H. rewrite run_bind in H. apply Hm.
    destruct (m s) as [a s1|e s1| |]; [rewrite run_ret in H|..]; exact H. }
  destruct c; cbn [call].
  - (* beginTransaction *)
    apply Hthen. intros s1 H.
    destruct (beginTransaction type s) as [ok s2|e s2| |] eqn:E; try discriminate H.
    + injection H as ->.
      destruct (beginTransaction_members _ _ _ _ E)
        as (_ & _ & _ & _ & Hquery & Hhash & _ & _ & _ & _ & Hrun & _).
      split; [auto|]. rewrite Hrun. apply Hs.
    + exfalso. exact (quiet_beginTransaction type s ltac:(rewrite E; reflexivity)).
  - apply Hkeep. unfold settled_view, read. keeps_auto.
  - apply Hkeep. unfold settled_view, read_value, read. keeps_auto.
  - apply Hthen. intros s1. unfold write. rewrite bind_getConn.
    destruct (_noopUpdateMode (conn s)); [intros [= <-]; exact Hs|].
    apply writeIdempotent_settled, Hs.
  - apply Hthen. intros s1. unfold writeIdempotent. apply writeIdempotent_settled, Hs.
  - apply Hthen. intros s1. unfold writeUnmodified. apply writeIdempotent_settled, Hs.
  - (* prepare *)
    apply Hthen. intros s1 H.
    assert (K : keeps (λ s, _currentlyRunningRewritten (conn s)) (prepare SHashSHA1 SToHex))
      by (unfold prepare, rollback; keeps_auto).
    specialize (K s s1 H). cbv beta in K.
    destruct (prepare SHashSHA1 SToHex s) as [ok s2|e s2| |] eqn:E; try discriminate H.
    + injection H as ->.
      pose proof (prepare_post _ _ _ _ _ E) as Hpost. cbv zeta in Hpost.
      destruct Hpost as (_ & _ & Hpost). split; [|rewrite K; apply Hs].
      destruct ok.
      * destruct Hpost as (_ & _ & Hin & _). congruence.
      * destruct Hpost as (_ & _ & _ & Hhash & Hquery & _). auto.
    + exfalso. exact (quiet_prepare _ _ s ltac:(rewrite E; reflexivity)).
  - (* commit *)
    intros H.
    assert (K : keeps (λ s, _currentlyRunningRewritten (conn s)) commit)
      by (unfold commit; keeps_auto).
    specialize (K s s' H). cbv beta in K.
    destruct (commit s) as [rc s2|e s2| |] eqn:E; try discriminate H.
    + injection H as ->.
      destruct (commit_post _ _ _ E) as (Hin & _ & [Hok|[_ Hsame]]).
      * destruct Hok as (_ & _ & _ & _ & Hhash & Hquery & _).
        split; [auto | rewrite K; apply Hs].
      * unfold txn_view in Hsame. injection Hsame as _ _ Vin _ _ _ _.
        split; [congruence | rewrite K; apply Hs].
    + exfalso. exact (quiet_commit s ltac:(rewrite E; reflexivity)).
  - apply Hthen. intros s1. apply rollback_settled, Hs.
  - apply Hkeep. unfold settled_view, getCommit_this, getCommit. keeps_auto.
  - apply Hkeep. apply keeps_bind; [|intros; apply keeps_ret].
    intros s0 s1 [= <-]. reflexivity.
  - apply Hthen. intros s1. apply setUpdateNoopMode_settled, Hs.
  - apply Hkeep. unfold settled_view, getCommits. keeps_auto.
  - apply Hkeep. unfold settled_view, enableRewrite. keeps_auto.
  - apply Hkeep. unfold settled_view, setRewriteHandler. keeps_auto.
  - apply Hkeep. unfold settled_view. keeps_auto.
  - apply Hkeep. unfold settled_view. keeps_auto.
  - apply Hkeep. unfold settled_view. keeps_auto.
  - apply Hthen. intros s1. unfold SQLite_destructor. rewrite bind_getConn. unfold when.
    destruct (negb (isEmpty (_uncommittedQuery (conn s)))).
    + apply rollback_settled, Hs.
    + intros [= <-]. exact Hs.
Qed.

Lemma step_settled (w w1 : World) (a : Action) (rows : list JournalRow) :
  (∀ i c e, w_conns w !! i = Some (c, e) → settled c) →
  step SHashSHA1 SToHex w a = Some (w1, rows) →
  ∀ i c e, w_conns w1 !! i = Some (c, e) → settled c.
Proof.
  intros Hall H. destruct a as [j c|from handle|busy pages]; cbn [step] in H.
  - destruct (focus w j) as [s|] eqn:Hfocus; [|discriminate H].
    cbn [mbind option_bind] in H.
    destruct (focus_Some _ _ _ Hfocus) as [Hj _].
    pose proof (call_settled c s) as Hcall.
    assert (Hnew : ∀ s', post (call SHashSHA1 SToHex c s) = Some s' →
              ∀ i c0 e0, w_conns (unfocus w j s') !! i = Some (c0, e0) → settled c0).
    { intros s' Hpost i c0 e0 Hi. cbn in Hi.
      destruct (decide (i = j)) as [->|Hne].
      - rewrite list_lookup_insert_eq in Hi by (eapply lookup_lt_Some; exact Hj).
        injection Hi as <- <-. apply (Hcall s'); [|exact Hpost].
        exact (Hall j _ _ Hj).
      - rewrite list_lookup_insert_ne in Hi by congruence. exact (Hall i c0 e0 Hi). }
    destruct (call SHashSHA1 SToHex c s) as [rc s'|e s'| |]; try discriminate H;
      injection H as <- <-; exact (Hnew s' eq_refl).
  - destruct (focus w from) as [s|] eqn:Hfocus; [|discriminate H].
    cbn [mbind option_bind] in H.
    destruct (SQLite_copy (conn s) s) as [c s'|e s'| |] eqn:Hcopy; try discriminate H.
    injection H as <- <-. intros i c0 e0 Hi. cbn [w_conns] in Hi.
    apply lookup_app_Some in Hi as [Hi|[_ Hi]]; [exact (Hall i c0 e0 Hi)|].
    apply list_lookup_singleton_Some in Hi as [_ [= <- <-]].
    exact (SQLite_copy_settled _ _ _ _ Hcopy).
  - injection H as <- <-. exact Hall.
Qed.

End Settled.

(** X7.  In a process whose connections start outside a transaction
    without uncommitted query or prepared hash (as the constructors leave
    them), whatever the connections do, every connection that is outside a
    transaction between two calls has an empty [_uncommittedQuery] and an
    empty [_uncommittedHash], and no connection is left with
    [_currentlyRunningRewritten] set: the two assertions of
    [beginTransaction] on the uncommitted buffers cannot fail there. *)
Theorem connections_stay_settled (SHashSHA1 SToHex : string → string) (w w' : World)
    (actions : list Action) (rows : list JournalRow) :
  (∀ i c e, w_conns w !! i = Some (c, e) → settled c) →
  run SHashSHA1 SToHex w actions = Some (w', rows) →
  ∀ i c e, w_conns w' !! i = Some (c, e) →
    (_insideTransaction c = false → _uncommittedQuery c = "" ∧ _uncommittedHash c = "") ∧
    _currentlyRunningRewritten c = false.
Proof.
  intros Hall H. change (∀ i c e, w_conns w' !! i = Some (c, e) → settled c).
  revert w w' rows Hall H. induction actions as [|a rest IH]; intros w w' rows Hall H.
  - injection H as <- <-. exact Hall.
  - cbn [run] in H.
    destruct (step SHashSHA1 SToHex w a) as [[w1 rows1]|] eqn:Hstep; [|discriminate H].
    cbn [mbind option_bind] in H.
    destruct (run SHashSHA1 SToHex w1 rest) as [[w2 more]|] eqn:Hrun; [|discriminate H].
    cbn [mbind option_bind] in H. injection H as <- <-.
    exact (IH w1 w2 more (step_settled _ _ _ _ _ _ Hall Hstep) Hrun).
Qed.

Lemma connections_stay_settled_witness :
  (∀ i c e, w_conns one_connection !! i = Some (c, e) → settled c) ∧
  ∃ w' rows c e,
    run sample_SHashSHA1 sample_SToHex one_connection two_transactions = Some (w', rows) ∧
    w_conns w' !! 0%nat = Some (c, e) ∧ _insideTransaction c = false ∧
    _uncommittedQuery c = "" ∧ _uncommittedHash c = "".
Proof.
  assert (Hall : ∀ i c e, w_conns one_connection !! i = Some (c, e) → settled c).
  { intros [|i] c e Hi; [|discriminate Hi]. injection Hi as <- <-.
    split; [split|]; reflexivity. }
  split; [exact Hall|].
  destruct (run sample_SHashSHA1 sample_SToHex one_connection two_transactions)
    as [[w' rows]|] eqn:Hrun; [|vm_compute in Hrun; discriminate Hrun].
  destruct (w_conns w' !! 0%nat) as [[c e]|] eqn:Hc;
    [|vm_compute in Hrun; injection Hrun as <- _; discriminate Hc].
  assert (Hout : _insideTransaction c = false).
  { vm_compute in Hrun. injection Hrun as <- _. injection Hc as <- _. reflexivity. }
  destruct (connections_stay_settled _ _ _ _ _ _ Hall Hrun 0%nat c e Hc) as [Hempty _].
  exists w', rows, c, e. split; [reflexivity|]. split; [exact Hc|].
  split; [exact Hout|]. exact (Hempty Hout).
Defined.

(** * Rolling back what the engine has rolled back *)

(** ROLLBACK fails on a handle without a transaction. *)
Lemma SQuery_rollback_autocommit (s s' : St) (rc : Z) (result : SQResult) :
  SQuery SqlRollback s = Ok (rc, result) s' → txn (db s) = None → rc ≠ SQLITE_OK.
Proof.
  unfold SQuery, next_response. intros H Htxn. rewrite run_bind in H. cbv beta iota in H.
  mrun_in H. msplit H as v s1 E.
  assert (K : keeps (λ s, db s) (run_callbacks
                          (r_callbacks (default default_response (head (script (db s)))))
                          false))
    by (apply keeps_run_callbacks; split; reflexivity).
  match type of E with _ ?s0 = _ => specialize (K s0 s1) end.
  rewrite E in K. specialize (K eq_refl). cbv beta in K. ssimpl_in K. clear E.
  destruct v as [ignored| |]; mrun_in H.
  - destruct (r_code _ =? SQLITE_OK) eqn:Hcode.
    + mrun_in H. unfold engine_exec in H. rewrite K in H. ssimpl_in H. rewrite Htxn in H.
      mrun_in H. injection H as <- _ _. discriminate.
    + unfold when in H. destruct (r_autorollback _); mrun_in H;
        injection H as <- _ _; apply Z.eqb_neq, Hcode.
  - injection H as <- _ _. discriminate.
  - unfold when in H. destruct (r_autorollback _); mrun_in H;
      injection H as <- _ _; discriminate.
Qed.

(** X8.  When [read] or [_writeIdempotent] throws inside a transaction
    that the engine has given up (the handle is back in autocommit mode),
    it leaves [_autoRolledBack] set.  [rollback] then ends the transaction
    without sending ROLLBACK: the handle and the clock are untouched, and
    the only effects are the release of the commit lock, if held, and the
    notification.  Without the flag, [rollback] on such a handle aborts
    the process, since the engine refuses the ROLLBACK. *)
Theorem rollback_after_interrupt :
  (∀ query s e s', read query s = Throw e s' →
     _insideTransaction (conn s) = true → txn (db s') = None →
     _autoRolledBack (conn s') = true ∧ _insideTransaction (conn s') = true) ∧
  (∀ query keep s e s', _writeIdempotent query keep s = Throw e s' →
     txn (db s') = None →
     _autoRolledBack (conn s') = true ∧ _insideTransaction (conn s') = true) ∧
  (∀ s, _insideTransaction (conn s) = true → _autoRolledBack (conn s) = true →
     ∃ s', rollback s = Ok () s' ∧ db s' = db s ∧ clock s' = clock s ∧
           _insideTransaction (conn s') = false ∧ _autoRolledBack (conn s') = false ∧
           trace s' = trace s ++ (if _mutexLocked (conn s)
                                  then [EvTimerStop; EvCommitUnlock; EvNotify]
                                  else [EvNotify])) ∧
  (∀ s, _insideTransaction (conn s) = true → _autoRolledBack (conn s) = false →
     txn (db s) = None → rollback s = Abort).
Proof.
  assert (Hcheck : ∀ error s s2 s' e,
            _checkInterruptErrors error s2 = Throw e s' → limits_view s2 = limits_view s →
            _insideTransaction (conn s) = true → txn (db s') = None →
            _autoRolledBack (conn s') = true ∧ _insideTransaction (conn s') = true).
  { intros error s s2 s' e E L Hin Htxn. injection L as _ _ _ _ Linside.
    destruct (checkInterruptErrors_throw _ _ _ _ E) as (_ & Hdb & Hin' & Hauto & _).
    rewrite Linside, Hin in Hin', Hauto. rewrite Hdb in Htxn. auto. }
  refine (conj _ (conj _ (conj _ _))).
  - intros query s e s' H Hin Htxn.
    destruct (read_throws_at _ _ _ _ H) as (s2 & E & L & _).
    exact (Hcheck _ _ _ _ _ E L Hin Htxn).
  - intros query keep s e s' H Htxn.
    destruct (writeIdempotent_throws_at _ _ _ _ _ H) as (s2 & E & L & _).
    apply (Hcheck _ _ _ _ _ E L); [|exact Htxn].
    unfold _writeIdempotent in H. rewrite bind_getConn, bind_SASSERT in H.
    destruct (_insideTransaction (conn s)); [reflexivity | discriminate H].
  - intros s Hin Hauto. unfold rollback, when, commitLock_unlock. mrun.
    rewrite Hin, Hauto. mrun.
    destruct (_mutexLocked (conn s)); mrun; eexists; (split; [reflexivity|]); ssimpl;
      rewrite <- ?app_assoc; repeat split.
  - intros s Hin Hauto Htxn. unfold rollback. mrun. rewrite Hin, Hauto. mrun.
    rewrite run_bind.
    match goal with |- context [SQuery SqlRollback ?s0] =>
      pose proof (SQuery_rollback_autocommit s0) as Hrc;
      pose proof (quiet_SQuery SqlRollback s0) as Hquiet;
      pose proof (unblocked_SQuery SqlRollback s0) as Hfree;
      destruct (SQuery SqlRollback s0) as [[rc result] s1|e s1| |]
    end.
    + specialize (Hrc s1 rc result eq_refl Htxn). mrun.
      destruct (rc =? SQLITE_OK) eqn:Hok; [|reflexivity].
      apply Z.eqb_eq in Hok. contradiction.
    + exfalso. exact (Hquiet eq_refl).
    + reflexivity.
    + exfalso. exact (Hfree eq_refl).
Qed.

Lemma rollback_after_interrupt_witness :
  let s' := after (writeIdempotent "UPDATE t SET v = 1;" timed_out_write) timed_out_write in
  writeIdempotent "UPDATE t SET v = 1;" timed_out_write =
    Throw (timeout_error "timeout in SQLite::write" 20) s' ∧
  txn (db s') = None ∧ _autoRolledBack (conn s') = true ∧
  ∃ s'', rollback s' = Ok () s'' ∧ db s'' = db s' ∧
         _insideTransaction (conn s'') = false ∧ trace s'' = trace s' ++ [EvNotify].
Proof.
  cbv zeta.
  destruct rollback_after_interrupt as (_ & Hwrite & Hrollback & _).
  assert (H : _writeIdempotent "UPDATE t SET v = 1;" false timed_out_write =
              Throw (timeout_error "timeout in SQLite::write" 20)
                (after (writeIdempotent "UPDATE t SET v = 1;" timed_out_write)
                   timed_out_write))
    by (vm_compute; reflexivity).
  split; [exact H|]. split; [vm_compute; reflexivity|].
  destruct (Hwrite _ _ _ _ _ H ltac:(vm_compute; reflexivity)) as [Hauto Hin].
  split; [exact Hauto|].
  destruct (Hrollback _ Hin Hauto) as (s'' & E & Hdb & _ & Hout & _ & Htrace).
  exists s''. split; [exact E|]. split; [exact Hdb|]. split; [exact Hout|].
  rewrite Htrace. reflexivity.
Defined.

(** * The queries a transaction records *)

(** A successful "PRAGMA schema_version;" leaves the counters of the
    handle alone. *)
Lemma SQuery_schema_version (s s' : St) (rc : Z) (result : SQResult) :
  SQuery SqlSchemaVersion s = Ok (rc, result) s' → rc = SQLITE_OK →
  total_changes (db s') = total_changes (db s) ∧
  schema_version (db s') = schema_version (db s).
Proof.
  unfold SQuery, next_response. intros H ->. rewrite run_bind in H. cbv beta iota in H.
  mrun_in H. msplit H as v s1 E.
  assert (K : keeps (λ s, db s) (run_callbacks
                          (r_callbacks (default default_response (head (script (db s)))))
                          false))
    by (apply keeps_run_callbacks; split; reflexivity).
  match type of E with _ ?s0 = _ => specialize (K s0 s1) end.
  rewrite E in K. specialize (K eq_refl). cbv beta in K. ssimpl_in K. clear E.
  destruct v as [ignored| |]; mrun_in H; [|discriminate H|].
  - destruct (r_code _ =? SQLITE_OK) eqn:Hcode.
    + mrun_in H. unfold engine_exec in H. mrun_in H. injection H as _ <-. ssimpl.
      rewrite K. split; reflexivity.
    + unfold when in H. destruct (r_autorollback _); mrun_in H;
        injection H as Hrc _ _; rewrite Hrc in Hcode; discriminate Hcode.
  - unfold when in H. destruct (r_autorollback _); mrun_in H; discriminate H.
Qed.

(** The end of [_writeIdempotent], from the second look at the schema
    version on. *)
Ltac record_tail H K5 Hchanges :=
  let E5 := fresh "E" in
  let s5 := fresh "s" in
  msplit H as [? ?] s5 E5;
  match type of E5 with SQuery ?q ?s0 = _ =>
    assert (K5 : keeps (λ s, _uncommittedQuery (conn s)) (SQuery q)) by keeps_auto;
    specialize (K5 s0 s5 ltac:(rewrite E5; reflexivity)); cbv beta in K5; ssimpl_in K5
  end;
  mrun_in H;
  let Hok := fresh "Hok" in
  match type of H with context [if ?c =? SQLITE_OK then _ else _] =>
    destruct (c =? SQLITE_OK) eqn:Hok; [|discriminate H]
  end;
  apply Z.eqb_eq in Hok;
  destruct (SQuery_schema_version _ _ _ _ E5 Hok) as [Hchanges _];
  ssimpl_in Hchanges;
  let E6 := fresh "E" in
  let s6 := fresh "s" in
  msplit H as ? s6 E6; apply fetch_Ok in E6 as [-> _];
  mrun_in H; unfold when in H.

(** X9.  A [_writeIdempotent] that returns false leaves [_uncommittedQuery]
    as it was.  One that returns true has appended at most one query to
    it: the query it was given or, when rewriting is enabled, the contents
    of [_rewrittenQuery]; and it has appended it whenever
    [alwaysKeepQueries] is set ([writeUnmodified]) or the handle's count of
    total changes ([uint64_t]) has grown. *)
Theorem writeIdempotent_records_query (query : string) (keep : bool) (s s' : St)
    (ok : bool) :
  _writeIdempotent query keep s = Ok ok s' →
  if ok then
    ∃ recorded,
      (recorded = query ∨ _enableRewrite (conn s) = true ∧ recorded = _rewrittenQuery (conn s')) ∧
      (_uncommittedQuery (conn s') = _uncommittedQuery (conn s) ∨
       _uncommittedQuery (conn s') = _uncommittedQuery (conn s) +:+ recorded) ∧
      (keep = true ∨ u64 (total_changes (db s)) < u64 (total_changes (db s')) →
       _uncommittedQuery (conn s') = _uncommittedQuery (conn s) +:+ recorded)
  else _uncommittedQuery (conn s') = _uncommittedQuery (conn s).
Proof.
  unfold _writeIdempotent. intros H. mrun_in H.
  destruct (_insideTransaction (conn s)); [|discriminate H].
  destruct (isEmpty query || SEndsWith query ";"); [|discriminate H].
  msplit H as [rc results] s1 E1.
  match type of E1 with SQuery ?q ?s0 = _ =>
    assert (K1 : keeps (λ s, (_uncommittedQuery (conn s), _enableRewrite (conn s))) (SQuery q))
      by keeps_auto;
    specialize (K1 s0 s1 ltac:(rewrite E1; reflexivity)); cbv beta in K1; ssimpl_in K1
  end.
  injection K1 as K1query K1rewrite.
  mrun_in H. destruct (rc =? SQLITE_OK) eqn:Hrc; [|discriminate H].
  apply Z.eqb_eq in Hrc.
  destruct (SQuery_schema_version _ _ _ _ E1 Hrc) as [Hbefore _]. ssimpl_in Hbefore.
  msplit H as version s1' Ef. apply fetch_Ok in Ef as [-> _]. mrun_in H.
  rewrite Hbefore in H.
  msplit H as [result used] s2 E2.
  assert (K2 : _uncommittedQuery (conn s2) = _uncommittedQuery (conn s) ∧
               (used = true → _enableRewrite (conn s) = true)).
  { match type of E2 with ?blk ?s0 = _ =>
      assert (K : keeps (λ s, _uncommittedQuery (conn s)) blk) by keeps_auto;
      specialize (K s0 s2 ltac:(rewrite E2; reflexivity)); cbv beta in K; ssimpl_in K
    end.
    split; [congruence|]. intros ->. rewrite <- K1rewrite.
    destruct (_enableRewrite (conn s1)); [reflexivity|].
    mrun_in E2. msplit E2 as [c r] s3 E3. }
  destruct K2 as [K2query K2used]. clear E2.
  msplit H as [] s3 E3.
  match type of E3 with ?m ?s0 = _ =>
    assert (K3 : keeps (λ s, (_uncommittedQuery (conn s), db s)) m) by keeps_auto;
    specialize (K3 s0 s3 ltac:(rewrite E3; reflexivity)); cbv beta in K3; ssimpl_in K3
  end.
  injection K3 as K3query K3db. clear E3.
  mrun_in H. destruct result; cbn [negb] in H.
  - mrun_in H. record_tail H K5 Hafter.
    destruct (keep || _ || (_ <? _)) eqn:Hkeep; mrun_in H; injection H as <- <-;
      (eexists (if used then _ else query));
      (split; [destruct used; [right; split; [apply K2used; reflexivity|] | left]; reflexivity|]);
      ssimpl.
    + split; [right|intros _]; rewrite K5, K3query, K2query; reflexivity.
    + split; [left; congruence|].
      apply orb_false_elim in Hkeep as [Hkeep Hgrew].
      apply orb_false_elim in Hkeep as [Hkeep _].
      rewrite Hafter in Hgrew. apply Z.ltb_ge in Hgrew.
      intros [->|Hlt]; [discriminate Hkeep|]. rewrite Hafter in Hlt. lia.
  - mrun_in H. injection H as <- <-. ssimpl. congruence.
Qed.

Lemma writeIdempotent_records_query_witness :
  writeIdempotent "INSERT INTO t VALUES (1);" sample_begun = Ok true sample_written ∧
  _uncommittedQuery (conn sample_begun) = "" ∧
  _uncommittedQuery (conn sample_written) = "INSERT INTO t VALUES (1);".
Proof.
  assert (H : _writeIdempotent "INSERT INTO t VALUES (1);" false sample_begun =
              Ok true sample_written) by (vm_compute; reflexivity).
  split; [exact H|]. split; [reflexivity|].
  destruct (writeIdempotent_records_query _ _ _ _ _ H) as (recorded & Hwhich & _ & Hgrew).
  rewrite Hgrew by (right; vm_compute; reflexivity).
  destruct Hwhich as [->|[Hrewrite _]]; [reflexivity | discriminate Hrewrite].
Defined.

(** * Noop-update mode, switched *)

(** X10.  [setUpdateNoopMode] does not throw, and when it returns
    [_noopUpdateMode] is its argument, whatever the engine answered to the
    pragma.  When the mode was already that one nothing happens at all.
    Otherwise the pragma is appended to [_uncommittedQuery] if the
    connection is inside a transaction, and [_uncommittedQuery] is left
    alone if it is not.  After switching the mode on, [write] returns true
    without doing anything. *)
Theorem setUpdateNoopMode_sets_mode (enabled : bool) (s s' : St) :
  post (setUpdateNoopMode enabled s) = Some s' →
  setUpdateNoopMode enabled s = Ok () s' ∧
  _noopUpdateMode (conn s') = enabled ∧
  (_noopUpdateMode (conn s) = enabled → s' = s) ∧
  (_noopUpdateMode (conn s) ≠ enabled →
   _uncommittedQuery (conn s') =
     if _insideTransaction (conn s)
     then _uncommittedQuery (conn s) +:+
            ("PRAGMA noop_update=" +:+ (if enabled then "ON" else "OFF") +:+ ";")
     else _uncommittedQuery (conn s)) ∧
  (enabled = true → ∀ query, write query s' = Ok true s').
Proof.
  intros H. unfold setUpdateNoopMode in H |- *. mrun_in H. mrun.
  case_bool_decide as Hmode.
  - injection H as <-. split; [reflexivity|]. split; [exact Hmode|].
    split; [reflexivity|]. split; [contradiction|].
    intros -> query. unfold write. mrun. rewrite Hmode. reflexivity.
  - rewrite run_bind in H |- *.
    match type of H with context [SQuery ?q ?s0] =>
      assert (K : keeps (λ s, (_insideTransaction (conn s), _uncommittedQuery (conn s)))
                    (SQuery q)) by keeps_auto;
      specialize (K s0);
      destruct (SQuery q s0) as [[rc results] s1|e s1| |] eqn:E;
        [|exfalso; no_throw E|discriminate H..]
    end.
    specialize (K s1 eq_refl). cbv beta in K. injection K as Kin Kquery.
    revert H. unfold when. mrun. rewrite Kin.
    destruct (_insideTransaction (conn s)); mrun; intros [= <-]; ssimpl;
      (split; [reflexivity|]); (split; [reflexivity|]); (split; [contradiction|]);
      (split; [intros _; rewrite ?Kquery; reflexivity|]);
      intros -> query; unfold write; mrun; reflexivity.
Qed.

Lemma setUpdateNoopMode_sets_mode_witness :
  let s' := after (setUpdateNoopMode false noop_state) noop_state in
  post (setUpdateNoopMode false noop_state) = Some s' ∧
  _noopUpdateMode (conn s') = false ∧
  _uncommittedQuery (conn s') = "INSERT INTO t VALUES (1);PRAGMA noop_update=OFF;".
Proof.
  cbv zeta.
  assert (H : post (setUpdateNoopMode false noop_state) =
              Some (after (setUpdateNoopMode false noop_state) noop_state))
    by (vm_compute; reflexivity).
  split; [exact H|].
  destruct (setUpdateNoopMode_sets_mode _ _ _ H) as (_ & Hmode & _ & Hquery & _).
  split; [exact Hmode|]. rewrite Hquery by discriminate. reflexivity.
Defined.

(** * The journal table of a copy *)

(** X11.  The copy constructor never indexes outside [_journalNames]: for
    a source object that passes the sanity checks and has N journal tables
    it returns, taking the counter [nextJournalCount] from n to n + 1
    ([int64_t]), an object with the configuration of the source, every
    other member as initialized, and the journal table at index n modulo N
    ([size_t] arithmetic), so that successive copies go round all N
    tables. *)
Theorem copy_constructor_takes_next_journal (from : SQLite) (s : St) :
  let size := Z.of_nat (length (_journalNames from)) in
  let count := nextJournalCount (shared s) in
  0 < size < 2 ^ 64 →
  _filename from ≠ "" → 0 < _cacheSize from → 0 < _maxJournalSize from →
  ∃ name,
    _journalNames from !! Z.to_nat (u64 count `mod` size) = Some name ∧
    SQLite_copy from s =
      Ok (new_SQLite (_filename from) (_maxJournalSize from) (_journalNames from)
            name (_journalSize from) (_pageLoggingEnabled from)
            (_cacheSize from) (_synchronous from) (_mmapSizeGB from))
         (set_shared (set_nextJournalCount (i64 (count + 1)) (shared s)) s).
Proof.
  cbv zeta. intros Hsize Hname Hcache Hmax.
  pose proof (Z.mod_pos_bound (u64 (nextJournalCount (shared s)))
                (Z.of_nat (length (_journalNames from))) ltac:(lia)) as Hbound.
  destruct (_journalNames from !!
              Z.to_nat (u64 (nextJournalCount (shared s))
                          `mod` Z.of_nat (length (_journalNames from))))
    as [name|] eqn:Hlookup.
  - exists name. split; [reflexivity|].
    unfold SQLite_copy. mrun. rewrite journal_index_mod by exact Hsize.
    destruct (Z.of_nat (length (_journalNames from)) =? 0) eqn:Hzero;
      [apply Z.eqb_eq in Hzero; lia|].
    rewrite Hlookup. mrun.
    unfold isEmpty. rewrite bool_decide_eq_false_2 by exact Hname. cbn [negb].
    rewrite (proj2 (Z.ltb_lt _ _) Hcache), (proj2 (Z.ltb_lt _ _) Hmax). reflexivity.
  - exfalso. apply lookup_ge_None in Hlookup. lia.
Qed.

Lemma copy_constructor_takes_next_journal_witness :
  let s := set_shared (set_nextJournalCount 4 new_SharedData) (new_state [] []) in
  ∃ c s', SQLite_copy (conn s) s = Ok c s' ∧ _journalName c = "journal0000" ∧
          nextJournalCount (shared s') = 5.
Proof.
  cbv zeta.
  destruct (copy_constructor_takes_next_journal
              (conn (new_state [] []))
              (set_shared (set_nextJournalCount 4 new_SharedData) (new_state [] [])))
    as (name & Hname & Hcopy); [cbn; lia | discriminate | reflexivity | reflexivity |].
  do 2 eexists. split; [exact Hcopy|]. ssimpl.
  vm_compute in Hname. injection Hname as <-. split; reflexivity.
Defined.

(** * What the cache remembers *)

(** The authorizer leaves [_isDeterministicQuery] alone for every action
    that is not a FUNCTION. *)
Lemma authorize_keeps_flag (a : AuthAction) (c c' : SQLite) (rc : Z) :
  _authorize a c = Some (rc, c') → actionCode a ≠ SQLITE_FUNCTION →
  _isDeterministicQuery c' = _isDeterministicQuery c.
Proof.
  unfold _authorize. intros H Hcode. apply Z.eqb_neq in Hcode. rewrite Hcode in H.
  cbn [andb] in H.
  destruct (_enableRewrite c && negb (_currentlyRunningRewritten c)).
  - destruct (_rewriteHandler c) as [h|]; [|discriminate]. cbn in H.
    destruct (h (actionCode a) (detail1 a) (_rewrittenQuery c)) as [v q]. cbn in H.
    destruct v; [injection H as _ <-; reflexivity|].
    enough (c' = set_rewrittenQuery q c) as -> by reflexivity.
    destruct (detail1 a), (detail2 a); cbn in H;
    repeat match type of H with
           | context [match ?x with _ => _ end] => destruct x; cbn in H
           end; congruence.
  - cbn in H. enough (c' = c) as -> by reflexivity.
    destruct (detail1 a), (detail2 a); cbn in H;
    repeat match type of H with
           | context [match ?x with _ => _ end] => destruct x; cbn in H
           end; congruence.
Qed.

Lemma run_callbacks_keeps_flag (cbs : list Callback) (ignored : bool) (s s1 : St)
    (v : Verdict) :
  run_callbacks cbs ignored s = Ok v s1 →
  (∀ a, CbAuthorize a ∈ cbs → actionCode a ≠ SQLITE_FUNCTION) →
  _isDeterministicQuery (conn s1) = _isDeterministicQuery (conn s).
Proof.
  revert ignored s. induction cbs as [|[a|] cbs IH]; intros ignored s H Hplain;
    cbn [run_callbacks] in H.
  - injection H as _ <-. reflexivity.
  - rewrite run_bind in H. unfold _sqliteAuthorizerCallback in H.
    destruct (_authorize a (conn s)) as [[rc c]|] eqn:E; [|discriminate H].
    pose proof (authorize_keeps_flag _ _ _ _ E (Hplain a (list_elem_of_here _ _))) as Hflag.
    assert (Hrest : ∀ b, CbAuthorize b ∈ cbs → actionCode b ≠ SQLITE_FUNCTION)
      by (intros b Hb; apply Hplain, list_elem_of_further, Hb).
    destruct (rc =? SQLITE_OK); [rewrite (IH _ _ H Hrest); exact Hflag|].
    destruct (rc =? SQLITE_IGNORE); [rewrite (IH _ _ H Hrest); exact Hflag|].
    injection H as _ <-. exact Hflag.
  - msplit H as rc s2 E.
    assert (K : keeps (λ s, _isDeterministicQuery (conn s)) _progressHandlerCallback)
      by (unfold _progressHandlerCallback; keeps_auto).
    specialize (K s s2). rewrite E in K. specialize (K eq_refl). cbv beta in K.
    assert (Hrest : ∀ b, CbAuthorize b ∈ cbs → actionCode b ≠ SQLITE_FUNCTION)
      by (intros b Hb; apply Hplain, list_elem_of_further, Hb).
    destruct (rc =? 0); [rewrite (IH _ _ H Hrest); exact K|].
    injection H as _ <-. exact K.
Qed.

Lemma SQuery_keeps_flag (q : Stmt) (s s1 : St) (rc : Z) (result : SQResult) :
  SQuery q s = Ok (rc, result) s1 →
  (∀ a, CbAuthorize a ∈ r_callbacks (default default_response (head (script (db s)))) →
        actionCode a ≠ SQLITE_FUNCTION) →
  _isDeterministicQuery (conn s1) = _isDeterministicQuery (conn s).
Proof.
  unfold SQuery, next_response. intros H Hplain. rewrite run_bind in H.
  cbv beta iota in H. mrun_in H. msplit H as v s2 E.
  pose proof (run_callbacks_keeps_flag _ _ _ _ _ E Hplain) as Hflag. clear E.
  ssimpl_in Hflag.
  destruct v as [ignored| |]; mrun_in H.
  - destruct (r_code _ =? SQLITE_OK).
    + mrun_in H. destruct (engine_exec q _ ignored (db s2)) as [[code rows] e].
      mrun_in H. injection H as _ _ <-. exact Hflag.
    + unfold when in H. destruct (r_autorollback _); mrun_in H;
        injection H as _ _ <-; exact Hflag.
  - injection H as _ _ <-. exact Hflag.
  - unfold when in H. destruct (r_autorollback _); mrun_in H;
      injection H as _ _ <-; exact Hflag.
Qed.

(** X12.  A [read] that misses the cache and returns true, for a statement
    during which the engine reports no FUNCTION action to the authorizer,
    has put its rows in the cache under the query's text; a [read] of the
    same text right after it returns true with the same rows from the
    cache, counting the query and the hit and reading the clock, without
    a statement to the engine. *)
Theorem read_caches_plain_statement (query : string) (s s' : St) (result : SQResult) :
  _queryCache (conn s) !! query = None →
  (∀ a, CbAuthorize a ∈ r_callbacks (default default_response (head (script (db s)))) →
        actionCode a ≠ SQLITE_FUNCTION) →
  read query s = Ok (true, result) s' →
  _queryCache (conn s') = <[query := result]> (_queryCache (conn s)) ∧
  read query s' =
    Ok (true, result)
       (set_conn (set_cacheHits (u64 (_cacheHits (conn s') + 1))
                    (set_queryCount (u64 (_queryCount (conn s') + 1)) (conn s')))
          (set_clock (tail (clock s')) s')).
Proof.
  intros Hmiss Hplain H.
  assert (Hcache : _queryCache (conn s') = <[query := result]> (_queryCache (conn s))).
  { unfold read in H. mrun_in H. rewrite Hmiss in H. mrun_in H.
    msplit H as [rc rows] s1 E.
    assert (K : keeps (λ s, _queryCache (conn s)) (SQuery (SqlApp query))) by keeps_auto.
    match type of E with _ ?s0 = _ => specialize (K s0 s1) end.
    rewrite E in K. specialize (K eq_refl). cbv beta in K. ssimpl_in K.
    pose proof (SQuery_keeps_flag _ _ _ _ _ E Hplain) as Hflag. ssimpl_in Hflag. clear E.
    mrun_in H. rewrite Hflag in H. cbn [andb] in H.
    destruct (rc =? SQLITE_OK) eqn:Hok.
    - unfold when in H. mrun_in H. msplit H as [] s2 E2.
      match type of E2 with ?m ?s0 = _ =>
        assert (K2 : keeps (λ s, _queryCache (conn s)) m) by keeps_auto;
        specialize (K2 s0 s2 ltac:(rewrite E2; reflexivity)); cbv beta in K2; ssimpl_in K2
      end.
      mrun_in H. injection H as <- <-. ssimpl. rewrite K2, K.
      unfold emplace. rewrite Hmiss. reflexivity.
    - unfold when in H. mrun_in H. msplit H as [] s2 E2. }
  split; [exact Hcache|].
  unfold read. mrun. rewrite Hcache, lookup_insert_eq. mrun. reflexivity.
Qed.

Lemma read_caches_plain_statement_witness :
  let s := new_state [one_row] [] in
  let s' := after (read "SELECT v FROM t;" s) s in
  read "SELECT v FROM t;" s = Ok (true, [["7"]]) s' ∧
  _queryCache (conn s') = {[ "SELECT v FROM t;" := [["7"]] ]} ∧
  ∃ s'', read "SELECT v FROM t;" s' = Ok (true, [["7"]]) s'' ∧ db s'' = db s'.
Proof.
  cbv zeta.
  assert (H : read "SELECT v FROM t;" (new_state [one_row] []) =
              Ok (true, [["7"]])
                 (after (read "SELECT v FROM t;" (new_state [one_row] []))
                    (new_state [one_row] []))) by (vm_compute; reflexivity).
  split; [exact H|].
  assert (Hplain : ∀ a, CbAuthorize a ∈ r_callbacks
                      (default default_response
                         (head (script (db (new_state [one_row] []))))) →
                   actionCode a ≠ SQLITE_FUNCTION).
  { intros a Ha. apply list_elem_of_singleton in Ha as [= ->]. discriminate. }
  destruct (read_caches_plain_statement "SELECT v FROM t;" (new_state [one_row] []) _ _
              eq_refl Hplain H) as [Hcache Hread].
  split; [rewrite Hcache; reflexivity|].
  eexists. split; [exact Hread|]. reflexivity.
Defined.

(** * Who waits for the commit lock *)

Lemma unblocked_throw {A} (e : Exception) : unblocked (throw (A := A) e).
Proof. intros s. discriminate. Qed.

Lemma unblocked_checkInterruptErrors (error : string) : unblocked (_checkInterruptErrors error).
Proof. unfold _checkInterruptErrors. never_auto. all: apply unblocked_throw. Qed.

Lemma unblocked_read (query : string) : unblocked (read query).
Proof. unfold read. never_auto. apply unblocked_checkInterruptErrors. Qed.

Lemma unblocked_writeIdempotent (query : string) (keep : bool) :
  unblocked (_writeIdempotent query keep).
Proof. unfold _writeIdempotent. never_auto. all: apply unblocked_checkInterruptErrors. Qed.

Lemma unblocked_setUpdateNoopMode (enabled : bool) : unblocked (setUpdateNoopMode enabled).
Proof. unfold setUpdateNoopMode. never_auto. Qed.

Lemma unblocked_getCommits (fromIndex toIndex : Z) : unblocked (getCommits fromIndex toIndex).
Proof. unfold getCommits. never_auto. Qed.

Lemma unblocked_getCommit (id : Z) : unblocked (getCommit_this id).
Proof. unfold getCommit_this, getCommit. never_auto. Qed.

Lemma unblocked_beginTransaction_SHARED : unblocked (beginTransaction SHARED).
Proof. unfold beginTransaction, getCommitCount. never_auto. Qed.

(** X13.  Only two calls wait for the commit lock.  [beginTransaction] with
    EXCLUSIVE waits exactly when the lock is held, by whichever connection
    (the calling one included: the mutex is not recursive); [prepare]
    waits exactly when the connection is inside a transaction, has not
    locked the mutex itself and the lock is held.  [beginTransaction] with
    SHARED, [read], [write] and [_writeIdempotent], [commit], [rollback],
    [getCommit], [getCommits] and [setUpdateNoopMode] never wait. *)
Theorem waits_for_commit_lock (SHashSHA1 SToHex : string → string) (s : St) :
  (beginTransaction EXCLUSIVE s = Blocked ↔ commitLock (shared s) = true) ∧
  (prepare SHashSHA1 SToHex s = Blocked ↔
     _insideTransaction (conn s) = true ∧ _mutexLocked (conn s) = false ∧
     commitLock (shared s) = true) ∧
  beginTransaction SHARED s ≠ Blocked ∧
  (∀ query, read query s ≠ Blocked ∧ write query s ≠ Blocked) ∧
  (∀ query keep, _writeIdempotent query keep s ≠ Blocked) ∧
  commit s ≠ Blocked ∧ rollback s ≠ Blocked ∧
  (∀ id, getCommit_this id s ≠ Blocked) ∧
  (∀ fromIndex toIndex, getCommits fromIndex toIndex s ≠ Blocked) ∧
  (∀ enabled, setUpdateNoopMode enabled s ≠ Blocked).
Proof.
  assert (Hnever : ∀ {A} (m : M A), unblocked m → m s ≠ Blocked).
  { intros A m Hm E. apply (Hm s). rewrite E. reflexivity. }
  assert (Hrest : ∀ {A} (m : M A) s0, unblocked m → m s0 = Blocked → False).
  { intros A m s0 Hm E. apply (Hm s0). rewrite E. reflexivity. }
  split; [|split].
  - unfold beginTransaction. rewrite !bind_assoc, bind_commitLock_lock.
    destruct (commitLock (shared s)); [split; reflexivity|].
    split; [|discriminate]. intros E. exfalso. revert E.
    match goal with |- ?m ?s0 = Blocked → False => apply (Hrest _ m s0) end.
    unfold getCommitCount. never_auto.
  - unfold prepare. mrun.
    destruct (_insideTransaction (conn s));
      [|split; [discriminate | intros (Hin & _); discriminate Hin]].
    unfold when. destruct (_mutexLocked (conn s)); cbn [negb].
    + split; [|intros (_ & Hl & _); discriminate Hl]. intros E. exfalso. revert E.
      match goal with |- ?m ?s0 = Blocked → False => apply (Hrest _ m s0) end.
      unfold getCommitCount, getCommittedHash. never_auto.
    + rewrite !bind_assoc, bind_commitLock_lock.
      destruct (commitLock (shared s)); [split; auto|].
      split; [|intros (_ & _ & Hheld); discriminate Hheld]. intros E. exfalso. revert E.
      match goal with |- ?m ?s0 = Blocked → False => apply (Hrest _ m s0) end.
      unfold getCommitCount, getCommittedHash. never_auto.
  - split; [apply Hnever, unblocked_beginTransaction_SHARED|].
    split.
    { intros query. split; [apply Hnever, unblocked_read|].
      unfold write. rewrite bind_getConn.
      destruct (_noopUpdateMode (conn s)); [discriminate|].
      apply Hnever, unblocked_writeIdempotent. }
    split; [intros query keep; apply Hnever, unblocked_writeIdempotent|].
    split; [apply Hnever, unblocked_commit|].
    split; [apply Hnever, unblocked_rollback|].
    split; [intros id; apply Hnever, unblocked_getCommit|].
    split; [intros fromIndex toIndex; apply Hnever, unblocked_getCommits|].
    intros enabled. apply Hnever, unblocked_setUpdateNoopMode.
Qed.

Lemma waits_for_commit_lock_witness :
  beginTransaction EXCLUSIVE (prepared_state []) = Blocked ∧
  prepare sample_SHashSHA1 sample_SToHex (prepared_state []) ≠ Blocked.
Proof.
  destruct (waits_for_commit_lock sample_SHashSHA1 sample_SToHex (prepared_state []))
    as (Hbegin & Hprepare & _).
  split; [apply Hbegin; reflexivity|].
  intros E. apply Hprepare in E as (_ & Hl & _). discriminate Hl.
Defined.

(** * The progress handler's verdicts reach the caller *)

(** [mrun], also reading a clock and a script that are known. *)
Ltac clock_run := mrun; cbn [head tail default from_option id].

(** X14.  A [read] that misses the cache and whose statement calls the
    progress handler first throws what the handler decides.  After
    [startTiming (limit)] at time t0 (the clock within 64 bits and not
    running backwards), if the handler runs at a time past t0 + limit,
    [read] resets the limit, caches nothing and throws [timeout_error]
    with the time elapsed at its own check; unless [_abandonForCheckpoint]
    was still set when [read] was called, in which case it throws
    [checkpoint_required_error] instead.  Without a time limit, if the
    checkpoint thread is busy and the connection lets it interrupt, [read]
    throws [checkpoint_required_error] and nothing is cached.  Either way
    [_abandonForCheckpoint] is clear afterwards. *)
Theorem progress_handler_interrupts_read :
  (∀ query limit s t0 t1 t2 t3 rest r more cbs,
     _queryCache (conn s) !! query = None →
     script (db s) = r :: more → r_callbacks r = CbProgress :: cbs →
     clock s = t0 :: t1 :: t2 :: t3 :: rest →
     0 ≤ t0 → 0 < limit → t0 + limit < t2 → t2 ≤ t3 → t3 < 2 ^ 64 →
     ∃ s', (startTiming limit;; read query) s =
             Throw (if _abandonForCheckpoint (conn s) then checkpoint_required_error
                    else timeout_error "timeout in SQLite::read" (t3 - t0)) s' ∧
           _abandonForCheckpoint (conn s') = false ∧
           _timeoutLimit (conn s') = 0 ∧ _queryCache (conn s') = _queryCache (conn s) ∧
           clock s' = rest) ∧
  (∀ query s r more cbs,
     _queryCache (conn s) !! query = None →
     script (db s) = r :: more → r_callbacks r = CbProgress :: cbs →
     _timeoutLimit (conn s) = 0 →
     _checkpointThreadBusy (shared s) ≠ 0 → _enableCheckpointInterrupt (conn s) = true →
     ∃ s', read query s = Throw checkpoint_required_error s' ∧
           _abandonForCheckpoint (conn s') = false ∧
           _queryCache (conn s') = _queryCache (conn s)).
Proof.
  split.
  - intros query limit s t0 t1 t2 t3 rest r more cbs Hmiss Hscript Hcbs Hclock
      H0 Hlimit Hlate Hmono Hrange.
    assert (Hu : u64 (t0 + limit) = t0 + limit) by (unfold u64; apply Z.mod_small; lia).
    assert (Hu3 : u64 (t3 - t0) = t3 - t0) by (unfold u64; apply Z.mod_small; lia).
    destruct (_abandonForCheckpoint (conn s)) eqn:Hab; cbv iota.
    all: unfold startTiming, read, SQuery, next_response; clock_run; rewrite Hclock; clock_run.
    all: rewrite Hmiss; clock_run; rewrite run_bind; cbv beta iota; ssimpl; rewrite Hscript.
    all: clock_run; rewrite Hcbs; cbn [run_callbacks].
    all: unfold _progressHandlerCallback; clock_run; rewrite Hu.
    all: replace (t0 + limit =? 0) with false by (symmetry; apply Z.eqb_neq; lia).
    all: replace (t0 + limit <? t2) with true by (symmetry; apply Z.ltb_lt; lia).
    all: cbn [negb andb]; clock_run; change (1 =? 0) with false; cbv iota; clock_run.
    all: unfold when; destruct (r_autorollback r); clock_run.
    all: change (SQLITE_INTERRUPT =? SQLITE_OK) with false; rewrite andb_false_r; clock_run.
    all: unfold _checkInterruptErrors, resetTiming, when; clock_run; rewrite ?Hu.
    all: replace (t0 + limit =? 0) with false by (symmetry; apply Z.eqb_neq; lia).
    all: cbn [negb]; clock_run.
    all: replace (t0 + limit <? t3) with true by (symmetry; apply Z.ltb_lt; lia).
    all: clock_run; rewrite ?Hu3.
    all: replace (t3 - t0 =? 0) with false by (symmetry; apply Z.eqb_neq; lia).
    all: cbn [negb]; clock_run; rewrite Hab; cbv iota.
    all: change (negb (1 =? 0)) with true; change (negb (2 =? 0)) with true; cbn [andb].
    all: match goal with |- context [_insideTransaction ?c && ?x] =>
           destruct (_insideTransaction c && x) end; clock_run.
    all: change (1 =? 1) with true; change (2 =? 1) with false;
         change (2 =? 2) with true; cbv iota.
    all: eexists; (split; [reflexivity|]); ssimpl; repeat split.
  - intros query s r more cbs Hmiss Hscript Hcbs Hlimit Hbusy Hen.
    unfold read, SQuery, next_response. clock_run.
    rewrite Hmiss. clock_run. rewrite run_bind. cbv beta iota. ssimpl. rewrite Hscript.
    clock_run. rewrite Hcbs. cbn [run_callbacks].
    unfold _progressHandlerCallback. clock_run. rewrite Hlimit.
    change (negb (0 =? 0)) with false. cbn [andb]. clock_run.
    replace (_checkpointThreadBusy (shared s) =? 0) with false
      by (symmetry; apply Z.eqb_neq; exact Hbusy).
    cbn [negb]. rewrite ?Hen. clock_run. change (2 =? 0) with false. cbv iota. clock_run.
    unfold when. destruct (r_autorollback r); clock_run.
    all: change (SQLITE_INTERRUPT =? SQLITE_OK) with false; rewrite andb_false_r; clock_run.
    all: unfold _checkInterruptErrors, resetTiming, when; clock_run; rewrite Hlimit.
    all: change (negb (0 =? 0)) with false; cbv iota; clock_run.
    all: change (negb (2 =? 0)) with true; cbn [andb].
    all: match goal with |- context [_insideTransaction ?c && ?x] =>
           destruct (_insideTransaction c && x) end; clock_run.
    all: change (2 =? 1) with false; change (2 =? 2) with true; cbv iota.
    all: eexists; (split; [reflexivity|]); ssimpl; repeat split.
Qed.

Lemma progress_handler_interrupts_read_witness :
  let s := new_state [slow_response] [0; 1; 20; 30] in
  ∃ s', (startTiming 10;; read "SELECT 1;") s =
          Throw (timeout_error "timeout in SQLite::read" 30) s' ∧
        _timeoutLimit (conn s') = 0 ∧ _queryCache (conn s') = ∅.
Proof.
  cbv zeta.
  destruct (proj1 progress_handler_interrupts_read "SELECT 1;" 10
              (new_state [slow_response] [0; 1; 20; 30]) 0 1 20 30 [] slow_response [] [])
    as (s' & Hthrow & _ & Hlimit & Hcache & _);
    [reflexivity | reflexivity | reflexivity | reflexivity | lia | lia | lia | lia | lia |].
  exists s'. split; [exact Hthrow|]. split; [exact Hlimit|]. rewrite Hcache. reflexivity.
Defined.

(** * What commit returns *)

(** X15.  [commit] returns SQLITE_OK or SQLITE_BUSY_SNAPSHOT and nothing
    else (any other answer of the engine aborts the process), and either
    way it leaves checkpoint interrupts enabled.  On SQLITE_OK the
    transaction is taken off [currentTransactionCount], [_queryCount],
    [_cacheHits] and [_dbCountAtStart] are 0, and [_journalSize] has grown
    by one unless the journal was trimmed (the new size would have
    exceeded [_maxJournalSize]).  On SQLITE_BUSY_SNAPSHOT these members
    and the shared data are as before. *)
Theorem commit_returns_ok_or_conflict (s s' : St) (rc : Z) :
  commit s = Ok rc s' →
  _enableCheckpointInterrupt (conn s') = true ∧
  ((rc = SQLITE_OK ∧
    currentTransactionCount (shared s') = i32 (currentTransactionCount (shared s) - 1) ∧
    _queryCount (conn s') = 0 ∧ _cacheHits (conn s') = 0 ∧ _dbCountAtStart (conn s') = 0 ∧
    (u64 (_journalSize (conn s) + 1) ≤ _maxJournalSize (conn s) →
     _journalSize (conn s') = u64 (_journalSize (conn s) + 1)))
   ∨ (rc = SQLITE_BUSY_SNAPSHOT ∧ commit_view s' = commit_view s ∧ shared s' = shared s)).
Proof.
  intros H.
  assert (Hcount : rc = SQLITE_OK →
            currentTransactionCount (shared s') = i32 (currentTransactionCount (shared s) - 1)).
  { intros ->. destruct (commit_post _ _ _ H) as (_ & _ & [Hok|[Hrc _]]); [|discriminate Hrc].
    destruct Hok as (_ & Hshared & _). rewrite Hshared. reflexivity. }
  assert (Hshared : rc = SQLITE_BUSY_SNAPSHOT → shared s' = shared s).
  { intros ->. destruct (commit_post _ _ _ H) as (_ & _ & [[Hrc _]|[_ Hsame]]);
      [discriminate Hrc|].
    unfold txn_view in Hsame. injection Hsame as Vshared _ _ _ _ _ _. exact Vshared. }
  unfold commit in H. mrun_in H.
  destruct (_insideTransaction (conn s)); [|discriminate H].
  destruct (negb (isEmpty (_uncommittedHash (conn s)))); [|discriminate H].
  msplit H as n s1 E1.
  assert (K1 : commit_view s1 = commit_view s ∧
               (u64 (_journalSize (conn s) + 1) ≤ _maxJournalSize (conn s) →
                n = u64 (_journalSize (conn s) + 1))).
  { match type of E1 with ?m ?s0 = _ =>
      assert (K : keeps commit_view m) by (unfold commit_view; keeps_auto);
      specialize (K s0 s1 ltac:(rewrite E1; reflexivity))
    end.
    split; [exact K|]. intros Hsmall. apply Z.ltb_ge in Hsmall. rewrite Hsmall in E1.
    injection E1 as <- _. reflexivity. }
  destruct K1 as [K1 Hn]. clear E1. mrun_in H.
  msplit H as [result rows] s2 E2.
  assert (K2 : commit_view s2 = commit_view s).
  { match type of E2 with ?m ?s0 = _ =>
      assert (K : keeps commit_view m) by (unfold commit_view; keeps_auto);
      specialize (K s0 s2 ltac:(rewrite E2; reflexivity))
    end.
    rewrite <- K1. exact K. }
  clear E2 K1. mrun_in H.
  destruct (result =? SQLITE_OK) eqn:Hok.
  - apply Z.eqb_eq in Hok. subst result. cbn [orb] in H. mrun_in H.
    unfold when, commitLock_unlock in H. mrun_in H.
    match type of H with context [if ?b then _ else _] => destruct b end; mrun_in H;
      injection H as <- <-; ssimpl; (split; [reflexivity|]); left;
      repeat (split; [first [reflexivity | apply Hcount; reflexivity]|]); exact Hn.
  - cbn [orb] in H.
    destruct (result =? SQLITE_BUSY_SNAPSHOT) eqn:Hbusy; [|discriminate H].
    apply Z.eqb_eq in Hbusy. subst result. mrun_in H. injection H as <- <-. ssimpl.
    split; [reflexivity|]. right. split; [reflexivity|].
    split; [exact K2 | apply Hshared; reflexivity].
Qed.

Lemma commit_returns_ok_or_conflict_witness :
  commit sample_prepared = Ok SQLITE_OK sample_committed ∧
  _enableCheckpointInterrupt (conn sample_committed) = true ∧
  currentTransactionCount (shared sample_committed) = 0 ∧
  _journalSize (conn sample_committed) = 1.
Proof.
  assert (H : commit sample_prepared = Ok SQLITE_OK sample_committed)
    by (vm_compute; reflexivity).
  split; [exact H|].
  destruct (commit_returns_ok_or_conflict _ _ _ H) as [Hen [Hok|[Hrc _]]];
    [|discriminate Hrc].
  destruct Hok as (_ & Hcount & _ & _ & _ & Hsize).
  split; [exact Hen|]. split; [rewrite Hcount; reflexivity|].
  rewrite Hsize; [reflexivity | vm_compute; discriminate].
Defined.

(** * The schema helpers *)





Section SchemaHelpers.

Context (SQ SCollapse : string → string) (SStrip : string → string → bool → string)
  (SIEquals : string → string → bool) (SReplace : string → string → string → string)
  (SContains : string → string → bool).


End SchemaHelpers.


(** * One checkpoint thread at a time *)

(** X17.  The WAL hook stores every page count it is given.  It starts a
    checkpoint thread only for a page count that has reached
    [fullCheckpointPageMin], and only when [_checkpointThreadBusy] was 0;
    it counts every such call in [_checkpointThreadBusy], which therefore
    stays non-zero until the thread resets it: of any series of calls
    (fewer than fit in an [int]) at most the first that reaches the
    threshold starts a thread, and none does when a thread was busy. *)
Theorem wal_hook_starts_one_thread (fullCheckpointPageMin : Z) (pages : list Z)
    (s s' : St) (started : list bool) :
  0 ≤ _checkpointThreadBusy (shared s) →
  _checkpointThreadBusy (shared s) + Z.of_nat (length pages) < 2 ^ 31 →
  wal_callbacks fullCheckpointPageMin pages s = Ok started s' →
  length started = length pages ∧
  _currentPageCount (shared s') = default (_currentPageCount (shared s)) (last pages) ∧
  _checkpointThreadBusy (shared s') =
    _checkpointThreadBusy (shared s) +
    Z.of_nat (length (filter (λ p, fullCheckpointPageMin ≤ p) pages)) ∧
  ∀ k, started !! k = Some true →
    _checkpointThreadBusy (shared s) = 0 ∧
    (∃ p, pages !! k = Some p ∧ fullCheckpointPageMin ≤ p) ∧
    ∀ j p, (j < k)%nat → pages !! j = Some p → p < fullCheckpointPageMin.
Proof.
  revert s s' started. induction pages as [|p rest IH]; intros s s' started Hbusy Hbound H.
  - injection H as <- <-. split; [reflexivity|]. split; [reflexivity|].
    split; [cbn; lia|]. intros k Hk. discriminate Hk.
  - cbn [wal_callbacks] in H. unfold _sqliteWALCallback in H. mrun_in H.
    cbn [length] in Hbound. rewrite Nat2Z.inj_succ in Hbound.
    destruct (fullCheckpointPageMin <=? p) eqn:Hp.
    + apply Z.leb_le in Hp. mrun_in H.
      assert (Hi32 : i32 (_checkpointThreadBusy (shared s) + 1) =
                     _checkpointThreadBusy (shared s) + 1)
        by (unfold i32; rewrite Z.mod_small; lia).
      rewrite Hi32 in H.
      assert (Hnext : ∀ b later s1,
                wal_callbacks fullCheckpointPageMin rest
                  (set_shared (set_checkpointThreadBusy (_checkpointThreadBusy (shared s) + 1)
                                 (set_currentPageCount p (shared s))) s) = Ok later s1 →
                b = (_checkpointThreadBusy (shared s) =? 0) →
                length (b :: later) = length (p :: rest) ∧
                _currentPageCount (shared s1) =
                  default (_currentPageCount (shared s)) (last (p :: rest)) ∧
                _checkpointThreadBusy (shared s1) =
                  _checkpointThreadBusy (shared s) +
                  Z.of_nat (length (filter (λ p, fullCheckpointPageMin ≤ p) (p :: rest))) ∧
                ∀ k, (b :: later) !! k = Some true →
                  _checkpointThreadBusy (shared s) = 0 ∧
                  (∃ p0, (p :: rest) !! k = Some p0 ∧ fullCheckpointPageMin ≤ p0) ∧
                  ∀ j p0, (j < k)%nat → (p :: rest) !! j = Some p0 →
                          p0 < fullCheckpointPageMin).
      { intros b later s1 E Hb.
        match type of E with _ ?s0 = _ =>
          destruct (IH s0 s1 later ltac:(ssimpl; lia) ltac:(ssimpl; lia) E)
            as (Hlen & Hpages & Hcount & Hstart)
        end.
        ssimpl_in Hpages. ssimpl_in Hcount.
        split; [cbn; lia|]. split.
        { rewrite Hpages, last_cons. destruct (last rest); reflexivity. }
        split.
        { rewrite Hcount, filter_cons_True by exact Hp. cbn [length]. lia. }
        intros [|k] Hk.
        - injection Hk as ->. symmetry in Hb. apply Z.eqb_eq in Hb.
          split; [exact Hb|]. split; [exists p; auto|]. intros j p0 Hj. lia.
        - destruct (Hstart k Hk) as (Hzero & _). ssimpl_in Hzero. lia. }
      destruct (_checkpointThreadBusy (shared s) =? 0) eqn:Hzero; cbn [negb] in H;
        mrun_in H; msplit H as later s1 E; mrun_in H; injection H as <- <-;
        apply (Hnext _ _ _ E); reflexivity.
    + apply Z.leb_gt in Hp. mrun_in H. msplit H as later s1 E. mrun_in H.
      injection H as <- <-.
      match type of E with _ ?s0 = _ =>
        destruct (IH s0 s1 later ltac:(ssimpl; lia) ltac:(ssimpl; lia) E)
          as (Hlen & Hpages & Hcount & Hstart)
      end.
      ssimpl_in Hpages. ssimpl_in Hcount. ssimpl_in Hstart.
      split; [cbn; lia|]. split.
      { rewrite Hpages, last_cons. destruct (last rest); reflexivity. }
      split.
      { rewrite Hcount, filter_cons_False by lia. reflexivity. }
      intros [|k] Hk; [discriminate Hk|].
      destruct (Hstart k Hk) as (Hzero & (p0 & Hp0 & Hle) & Hbefore).
      split; [exact Hzero|]. split; [exists p0; auto|].
      intros [|j] p1 Hj Hp1; [injection Hp1 as <-; exact Hp|].
      apply (Hbefore j p1); [lia | exact Hp1].
Qed.

Lemma wal_hook_starts_one_thread_witness :
  ∃ s', wal_callbacks 25000 [100; 25000; 30000] (new_state [] []) =
          Ok [false; true; false] s' ∧
        _currentPageCount (shared s') = 30000 ∧ _checkpointThreadBusy (shared s') = 2.
Proof.
  eexists. split; [reflexivity|].
  destruct (wal_hook_starts_one_thread 25000 [100; 25000; 30000] (new_state [] []) _
              [false; true; false] ltac:(cbn; lia) ltac:(cbn; lia) eq_refl)
    as (_ & Hpages & Hbusy & _).
  split; [exact Hpages | exact Hbusy].
Defined.

(** * Counting the open transactions *)

#[local] Transparent prepareTransactionInfo.

Lemma prepareTransactionInfo_count (id : Z) (q h : string) (n : Z) (d : SharedData) :
  currentTransactionCount (prepareTransactionInfo id q h n d) = currentTransactionCount d.
Proof. reflexivity. Qed.

#[local] Opaque prepareTransactionInfo.

Lemma rollback_counted (s s' : St) : post (rollback s) = Some s' → counted s s'.
Proof.
  intros H. destruct (rollback_post s s' H) as (_ & _ & Hin & Hpost).
  destruct (_insideTransaction (conn s)) eqn:Hinside.
  - right. destruct Hpost as (_ & _ & _ & Hshared & _). rewrite Hshared. ssimpl.
    destruct (_mutexLocked (conn s)); auto.
  - left. unfold txn_view in Hpost. injection Hpost as Vshared _ _ _ _ _ _.
    rewrite Vshared. split; congruence.
Qed.

Section Counted.

Context (SHashSHA1 SToHex : string → string).

(** [beginTransaction] counts the transaction it begins, also when it
    returns false; no other call adds to the count. *)
Lemma call_counted (c : Call) (s s' : St) :
  post (call SHashSHA1 SToHex c s) = Some s' →
  match c with
  | CallBeginTransaction type =>
      ∃ ok, beginTransaction type s = Ok ok s' ∧
            currentTransactionCount (shared s') =
              i32 (currentTransactionCount (shared s) + 1) ∧
            _insideTransaction (conn s) = false ∧ _insideTransaction (conn s') = ok
  | _ => counted s s'
  end.
Proof.
  assert (Hkeep : ∀ m : M Z, keeps count_view m → post (m s) = Some s' → counted s s').
  { intros m K H. specialize (K s s' H). unfold count_view in K.
    injection K as Kcount Kin. left. auto. }
  assert (Hthen : ∀ {A} (m : M A),
            (∀ s1, post (m s) = Some s1 → counted s s1) →
            post ((m;; mret 0) s) = Some s' → counted s s').
  { intros A m Hm H. rewrite run_bind in H. apply Hm.
    destruct (m s) as [a s1|e s1| |]; [rewrite run_ret in H|..]; exact H. }
  destruct c; cbn [call]; cbv iota.
  - intros H. rewrite run_bind in H.
    destruct (beginTransaction type s) as [ok s2|e s2| |] eqn:E; try discriminate H.
    + rewrite run_ret in H. injection H as ->. exists ok. split; [reflexivity|].
      destruct (beginTransaction_members _ _ _ _ E)
        as (Hin & _ & _ & Hok & _ & _ & _ & _ & _ & _ & _ & Hshared & _).
      rewrite Hshared. ssimpl. destruct type; auto.
    + exfalso. exact (quiet_beginTransaction type s ltac:(rewrite E; reflexivity)).
  - apply Hkeep. unfold count_view, read. keeps_auto.
  - apply Hkeep. unfold count_view, read_value, read. keeps_auto.
  - apply Hkeep. unfold count_view, write, _writeIdempotent. keeps_auto.
  - apply Hkeep. unfold count_view, writeIdempotent, _writeIdempotent. keeps_auto.
  - apply Hkeep. unfold count_view, writeUnmodified, _writeIdempotent. keeps_auto.
  - apply Hthen. intros s1 H.
    destruct (prepare SHashSHA1 SToHex s) as [ok s2|e s2| |] eqn:E; try discriminate H.
    + injection H as ->.
      pose proof (prepare_post _ _ _ _ _ E) as Hpost. cbv zeta in Hpost.
      destruct Hpost as (Hin & _ & Hpost). destruct ok.
      * destruct Hpost as (Hshared & _ & Hin' & _). left.
        rewrite Hshared, prepareTransactionInfo_count.
        split; [destruct (_mutexLocked (conn s)); reflexivity | congruence].
      * destruct Hpost as (Hshared & _ & Hin' & _). right.
        rewrite Hshared. ssimpl. rewrite prepareTransactionInfo_count.
        split; [destruct (_mutexLocked (conn s)); reflexivity | auto].
    + exfalso. exact (quiet_prepare _ _ s ltac:(rewrite E; reflexivity)).
  - intros H.
    destruct (commit s) as [rc s2|e s2| |] eqn:E; try discriminate H.
    + injection H as ->.
      destruct (commit_post _ _ _ E) as (Hin & _ & [Hok|[_ Hsame]]).
      * destruct Hok as (_ & Hshared & _ & Hin' & _). right.
        rewrite Hshared. ssimpl. auto.
      * unfold txn_view in Hsame. injection Hsame as Vshared _ Vin _ _ _ _.
        left. rewrite Vshared. auto.
    + exfalso. exact (quiet_commit s ltac:(rewrite E; reflexivity)).
  - apply Hthen. intros s1. apply rollback_counted.
  - apply Hkeep. unfold count_view, getCommit_this, getCommit. keeps_auto.
  - apply Hkeep. apply keeps_bind; [|intros; apply keeps_ret].
    intros s0 s1 [= <-]. reflexivity.
  - apply Hkeep. unfold count_view, setUpdateNoopMode. keeps_auto.
  - apply Hkeep. unfold count_view, getCommits. keeps_auto.
  - apply Hkeep. unfold count_view, enableRewrite. keeps_auto.
  - apply Hkeep. unfold count_view, setRewriteHandler. keeps_auto.
  - apply Hkeep. unfold count_view. keeps_auto.
  - apply Hkeep. unfold count_view. keeps_auto.
  - apply Hkeep. unfold count_view. keeps_auto.
  - apply Hthen. intros s1. unfold SQLite_destructor. rewrite bind_getConn. unfold when.
    destruct (negb (isEmpty (_uncommittedQuery (conn s)))).
    + apply rollback_counted.
    + intros [= <-]. left. auto.
Qed.

End Counted.

(** Replacing one connection changes the number of open transactions by
    the difference of its flags. *)
Lemma open_insert (l : list (SQLite * sqlite3)) (i : nat) (c c' : SQLite) (e e' : sqlite3) :
  l !! i = Some (c, e) →
  (length (filter (λ ce : SQLite * sqlite3, _insideTransaction ce.1 = true)
             (<[i := (c', e')]> l)) +
   (if _insideTransaction c then 1 else 0) =
   length (filter (λ ce : SQLite * sqlite3, _insideTransaction ce.1 = true) l) +
   (if _insideTransaction c' then 1 else 0))%nat.
Proof.
  revert i. induction l as [|[c0 e0] l IH]; intros [|i] Hi; try discriminate Hi.
  - injection Hi as -> ->. cbn [insert list_insert].
    rewrite !filter_cons. cbn [fst].
    destruct (_insideTransaction c), (_insideTransaction c');
      repeat case_decide; try congruence; cbn [length]; lia.
  - cbn [insert list_insert]. cbn in Hi. specialize (IH i Hi).
    change (list_insert i (c', e') l) with (<[i := (c', e')]> l).
    rewrite !filter_cons. case_decide; cbn [length];
      first [exact IH | cbn [Nat.add]; f_equal; exact IH].
Qed.

Lemma open_unfocus (w : World) (i : nat) (s s' : St) :
  focus w i = Some s →
  (open_transactions (unfocus w i s') + (if _insideTransaction (conn s) then 1 else 0) =
   open_transactions w + (if _insideTransaction (conn s') then 1 else 0))%nat.
Proof.
  intros Hfocus. destruct (focus_Some _ _ _ Hfocus) as [Hi _].
  unfold open_transactions. cbn [unfocus w_conns]. apply (open_insert _ _ _ _ _ _ Hi).
Qed.

Lemma open_positive (w : World) (i : nat) (s : St) :
  focus w i = Some s → _insideTransaction (conn s) = true → (0 < open_transactions w)%nat.
Proof.
  intros Hfocus Hin. destruct (focus_Some _ _ _ Hfocus) as [Hi _].
  unfold open_transactions.
  assert (Hel : (conn s, db s) ∈ filter (λ ce : SQLite * sqlite3,
                                           _insideTransaction ce.1 = true) (w_conns w)).
  { apply list_elem_of_filter. split; [exact Hin|]. eapply list_elem_of_lookup_2, Hi. }
  destruct (filter _ (w_conns w)); [inversion Hel | cbn; lia].
Qed.

Lemma i32_of_small (n : nat) : Z.of_nat n < 2 ^ 31 → i32 (Z.of_nat n) = Z.of_nat n.
Proof. intros H. apply i32_small. lia. Qed.

Section Counting.

Context (SHashSHA1 SToHex : string → string).

(** One action keeps the count at the open transactions plus the begun
    transactions that failed. *)
Lemma step_counted (w w1 : World) (a : Action) (rows : list JournalRow) (leaked n : nat) :
  currentTransactionCount (w_shared w) = Z.of_nat (open_transactions w + leaked) →
  (open_transactions w + leaked ≤ n)%nat → Z.of_nat (S n) < 2 ^ 31 →
  step SHashSHA1 SToHex w a = Some (w1, rows) →
  let leaked' := (leaked + if begin_fails w a then 1 else 0)%nat in
  currentTransactionCount (w_shared w1) = Z.of_nat (open_transactions w1 + leaked') ∧
  (open_transactions w1 + leaked' ≤ S n)%nat.
Proof.
  intros Hcount Hle Hbound H. cbv zeta.
  destruct a as [i c|from handle|busy pages]; cbn [step] in H.
  - unfold begin_fails.
    destruct (focus w i) as [s|] eqn:Hfocus; [|discriminate H].
    cbn [mbind option_bind] in H.
    destruct (focus_Some _ _ _ Hfocus) as [_ Hshared].
    rewrite <- Hshared in Hcount.
    assert (Hgoal : ∀ s', counted s s' →
              currentTransactionCount (shared s') =
                Z.of_nat (open_transactions (unfocus w i s') + (leaked + 0)) ∧
              (open_transactions (unfocus w i s') + (leaked + 0) ≤ S n)%nat).
    { intros s' Hc. pose proof (open_unfocus w i s s' Hfocus) as Hopen.
      destruct Hc as [[Hc Hin]|(Hc & Hin & Hin')]; rewrite Hc, Hcount.
      - rewrite Hin in Hopen.
        split; [f_equal|]; destruct (_insideTransaction (conn s')); lia.
      - rewrite Hin, Hin' in Hopen. pose proof (open_positive w i s Hfocus Hin) as Hpos.
        replace (Z.of_nat (open_transactions w + leaked) - 1)
          with (Z.of_nat (open_transactions w + leaked - 1)) by lia.
        rewrite i32_of_small by lia. split; lia. }
    pose proof (call_counted SHashSHA1 SToHex c s) as Hcall.
    destruct (call SHashSHA1 SToHex c s) as [rc s'|e s'| |]; try discriminate H;
      injection H as <- <-; specialize (Hcall s' eq_refl);
      (destruct c; [|exact (Hgoal s' Hcall)..]);
      destruct Hcall as (ok & -> & Hc & Hin & Hin');
      pose proof (open_unfocus w i s s' Hfocus) as Hopen;
      rewrite Hin, Hin' in Hopen;
      change (w_shared (unfocus w i s')) with (shared s'); rewrite Hc, Hcount;
      replace (Z.of_nat (open_transactions w + leaked) + 1)
        with (Z.of_nat (S (open_transactions w + leaked))) by lia;
      rewrite i32_of_small by lia;
      destruct ok; split; lia.
  - destruct (focus w from) as [s|] eqn:Hfocus; [|discriminate H].
    cbn [mbind option_bind] in H.
    destruct (focus_Some _ _ _ Hfocus) as [_ Hshared].
    destruct (SQLite_copy (conn s) s) as [c s'|e s'| |] eqn:Hcopy; try discriminate H.
    injection H as <- <-.
    destruct (SQLite_copy_post _ _ _ _ Hcopy) as (_ & _ & Hshared').
    assert (Hout : _insideTransaction c = false).
    { unfold SQLite_copy in Hcopy. mrun_in Hcopy.
      match type of Hcopy with context [match ?x with Some _ => _ | None => _ end] =>
        destruct x as [name|]; [|discriminate Hcopy]
      end.
      mrun_in Hcopy.
      repeat match type of Hcopy with
             | (if ?b then _ else _) = _ => destruct b; [|discriminate Hcopy]
             end.
      injection Hcopy as <- _. reflexivity. }
    unfold open_transactions in *. cbn [w_conns w_shared begin_fails].
    rewrite filter_app, length_app, filter_cons. cbn [fst].
    rewrite decide_False by congruence. rewrite filter_nil. cbn [length].
    rewrite Hshared', Hshared. ssimpl. rewrite !Nat.add_0_r. split; [exact Hcount | lia].
  - injection H as <- <-. unfold open_transactions in *.
    cbn [w_conns w_shared begin_fails]. ssimpl. rewrite Nat.add_0_r.
    split; [exact Hcount | lia].
Qed.

Lemma run_counted (actions : list Action) (w w' : World) (rows : list JournalRow)
    (leaked n : nat) :
  currentTransactionCount (w_shared w) = Z.of_nat (open_transactions w + leaked) →
  (open_transactions w + leaked ≤ n)%nat → Z.of_nat (n + length actions) < 2 ^ 31 →
  run SHashSHA1 SToHex w actions = Some (w', rows) →
  currentTransactionCount (w_shared w') =
    Z.of_nat (open_transactions w' + (leaked + failed_begins SHashSHA1 SToHex w actions)).
Proof.
  revert w rows leaked n. induction actions as [|a rest IH]; intros w rows leaked n
    Hcount Hle Hbound H.
  - injection H as <- <-. cbn [failed_begins]. rewrite Nat.add_0_r. exact Hcount.
  - cbn [run] in H. cbn [failed_begins].
    destruct (step SHashSHA1 SToHex w a) as [[w1 rows1]|] eqn:Hstep; [|discriminate H].
    cbn [mbind option_bind] in H.
    destruct (run SHashSHA1 SToHex w1 rest) as [[w2 more]|] eqn:Hrun; [|discriminate H].
    cbn [mbind option_bind] in H. injection H as <- <-.
    cbn [length] in Hbound.
    destruct (step_counted _ _ _ _ _ n Hcount Hle ltac:(lia) Hstep) as (Hc1 & Hle1).
    rewrite (IH w1 more _ (S n) Hc1 Hle1 ltac:(lia) Hrun). f_equal. lia.
Qed.

End Counting.

(** X18.  In a process where [currentTransactionCount] starts as the
    number of connections inside a transaction, after any actions (fewer
    than an [int] can count) it is the number of connections inside a
    transaction plus the number of [beginTransaction] calls of the run
    that returned false: those stay on the count.  So whenever the count
    is 0 no connection is inside a transaction; in particular a pass of
    the checkpoint thread decides for the restart checkpoint only then,
    and only while the page count is at least half of
    [fullCheckpointPageMin]. *)
Theorem count_zero_means_no_transaction (SHashSHA1 SToHex : string → string) (w w' : World)
    (actions : list Action) (rows : list JournalRow) :
  currentTransactionCount (w_shared w) = Z.of_nat (open_transactions w) →
  Z.of_nat (open_transactions w + length actions) < 2 ^ 31 →
  run SHashSHA1 SToHex w actions = Some (w', rows) →
  currentTransactionCount (w_shared w') =
    Z.of_nat (open_transactions w' + failed_begins SHashSHA1 SToHex w actions) ∧
  (currentTransactionCount (w_shared w') = 0 →
   ∀ i c e, w_conns w' !! i = Some (c, e) → _insideTransaction c = false) ∧
  (∀ fullCheckpointPageMin, checkpoint_pass fullCheckpointPageMin (w_shared w') = Restart →
     fullCheckpointPageMin ÷ 2 ≤ _currentPageCount (w_shared w') ∧
     ∀ i c e, w_conns w' !! i = Some (c, e) → _insideTransaction c = false).
Proof.
  intros Hcount Hbound Hrun.
  pose proof (run_counted SHashSHA1 SToHex actions w w' rows 0 (open_transactions w)
                ltac:(rewrite Nat.add_0_r; exact Hcount) ltac:(lia) Hbound Hrun) as Hc.
  cbn [Nat.add] in Hc. split; [exact Hc|].
  enough (Hnone : currentTransactionCount (w_shared w') = 0 →
            ∀ i c e, w_conns w' !! i = Some (c, e) → _insideTransaction c = false).
  { split; [exact Hnone|]. intros fullCheckpointPageMin. unfold checkpoint_pass.
    destruct (_ <? _) eqn:Hpages; [discriminate|]. apply Z.ltb_ge in Hpages.
    destruct (_ =? 0) eqn:Hzero; [|discriminate]. apply Z.eqb_eq in Hzero.
    intros _. split; [exact Hpages | exact (Hnone Hzero)]. }
  intros Hzero i c e Hi. rewrite Hc in Hzero.
  destruct (_insideTransaction c) eqn:Hin; [|reflexivity]. exfalso.
  assert (Hel : (c, e) ∈ filter (λ ce : SQLite * sqlite3, _insideTransaction ce.1 = true)
                           (w_conns w')).
  { apply list_elem_of_filter. split; [exact Hin|]. eapply list_elem_of_lookup_2, Hi. }
  unfold open_transactions in Hzero.
  destruct (filter _ (w_conns w')); [inversion Hel | cbn in Hzero; lia].
Qed.

Lemma count_zero_means_no_transaction_witness :
  ∃ w' rows,
    run sample_SHashSHA1 sample_SToHex refused_connection begin_twice = Some (w', rows) ∧
    failed_begins sample_SHashSHA1 sample_SToHex refused_connection begin_twice = 1%nat ∧
    open_transactions w' = 0%nat ∧
    currentTransactionCount (w_shared w') = 1.
Proof.
  destruct (run sample_SHashSHA1 sample_SToHex refused_connection begin_twice)
    as [[w' rows]|] eqn:Hrun; [|vm_compute in Hrun; discriminate Hrun].
  assert (Hfailed : failed_begins sample_SHashSHA1 sample_SToHex refused_connection
                      begin_twice = 1%nat) by (vm_compute; reflexivity).
  assert (Hopen : open_transactions w' = 0%nat)
    by (vm_compute in Hrun; injection Hrun as <- _; reflexivity).
  destruct (count_zero_means_no_transaction sample_SHashSHA1 sample_SToHex
              refused_connection w' begin_twice rows eq_refl
              ltac:(vm_compute; reflexivity) Hrun)
    as (Hcount & _).
  rewrite Hfailed, Hopen in Hcount.
  exists w', rows. split; [reflexivity|]. split; [exact Hfailed|].
  split; [exact Hopen | exact Hcount].
Defined.

(** * Transactions under a whitelist *)

Lemma bind_authorizer {B} (a : AuthAction) (f : Z → M B) (s : St) :
  (_sqliteAuthorizerCallback a ≫= f) s =
    match _authorize a (conn s) with
    | Some (rc, c) => f rc (set_conn c s)
    | None => Abort
    end.
Proof.
  rewrite run_bind. unfold _sqliteAuthorizerCallback.
  destruct (_authorize a (conn s)) as [[rc c]|]; reflexivity.
Qed.

(** Under a whitelist, and without rewriting, the authorizer denies every
    action of the first case group. *)
Lemma authorize_denies (a : AuthAction) (c : SQLite) (allowed : gmap string (gset string)) :
  whitelist c = Some allowed → _enableRewrite c = false →
  actionCode a ∈ disallowed_actions →
  ∃ d, _authorize a c = Some (SQLITE_DENY, set_isDeterministicQuery d c).
Proof.
  intros Hwhite Hrewrite Hcode. unfold _authorize. rewrite Hrewrite. cbn [andb]. cbn.
  destruct (detail2 a) as [name|].
  - match goal with |- context [if ?b then set_isDeterministicQuery false c else c] =>
      destruct b
    end.
    + exists false. ssimpl. rewrite Hwhite, bool_decide_eq_true_2 by exact Hcode. reflexivity.
    + exists (_isDeterministicQuery c).
      rewrite Hwhite, bool_decide_eq_true_2 by exact Hcode. reflexivity.
  - exists (_isDeterministicQuery c).
    rewrite Hwhite, bool_decide_eq_true_2 by exact Hcode. reflexivity.
Qed.

(** A statement whose first report to the authorizer is an action of the
    first case group is denied under a whitelist, before it has touched
    the database. *)
Lemma SQuery_denied (q : Stmt) (s : St) (r : Response) (more : list Response)
    (a : AuthAction) (rest : list Callback) (allowed : gmap string (gset string)) :
  whitelist (conn s) = Some allowed → _enableRewrite (conn s) = false →
  script (db s) = r :: more → r_callbacks r = CbAuthorize a :: rest →
  actionCode a ∈ disallowed_actions →
  ∃ d, SQuery q s =
         Ok (SQLITE_AUTH, [])
            (set_conn (set_isDeterministicQuery d (conn s))
               (set_trace (trace s ++ [EvQuery q]) (set_db (set_script more (db s)) s))).
Proof.
  intros Hwhite Hrewrite Hscript Hcbs Hcode.
  destruct (authorize_denies a (conn s) allowed Hwhite Hrewrite Hcode) as [d Hd].
  exists d. unfold SQuery, next_response. rewrite run_bind. cbv beta iota. rewrite Hscript.
  cbn [head tail default from_option id]. mrun. rewrite Hcbs. cbn [run_callbacks].
  rewrite bind_assoc, bind_authorizer. ssimpl. rewrite Hd.
  change (SQLITE_DENY =? SQLITE_OK) with false.
  change (SQLITE_DENY =? SQLITE_IGNORE) with false. cbv iota. mrun. reflexivity.
Qed.

(** X19.  Under a whitelist (and without rewriting) a statement for which
    the engine first reports an action of the authorizer's first case
    group, TRANSACTION and INSERT among them, is denied.  So when the
    engine reports BEGIN, COMMIT and ROLLBACK as TRANSACTION actions and
    the journal INSERT as an INSERT action, a connection with a whitelist
    set cannot run a transaction: [beginTransaction] and [prepare] return
    false whenever they return, [commit] aborts the process, and so does
    a [rollback] that has to send ROLLBACK. *)
Theorem whitelist_denies_transaction_control (SHashSHA1 SToHex : string → string) (s : St)
    (r : Response) (more : list Response) (a : AuthAction) (rest : list Callback)
    (allowed : gmap string (gset string)) :
  whitelist (conn s) = Some allowed → _enableRewrite (conn s) = false →
  script (db s) = r :: more → r_callbacks r = CbAuthorize a :: rest →
  actionCode a ∈ disallowed_actions →
  (∀ type ok s', beginTransaction type s = Ok ok s' → ok = false) ∧
  (∀ ok s', prepare SHashSHA1 SToHex s = Ok ok s' → ok = false) ∧
  commit s = Abort ∧
  (_insideTransaction (conn s) = true → _autoRolledBack (conn s) = false →
   rollback s = Abort).
Proof.
  intros Hwhite Hrewrite Hscript Hcbs Hcode.
  assert (Hdenied : ∀ {B} q (k : Z * SQResult → M B) s0,
            whitelist (conn s0) = whitelist (conn s) →
            _enableRewrite (conn s0) = _enableRewrite (conn s) →
            script (db s0) = script (db s) →
            ∃ s1, (SQuery q ≫= k) s0 = k (SQLITE_AUTH, []) s1).
  { intros B q k s0 Hw He Hs.
    destruct (SQuery_denied q s0 r more a rest allowed) as [d Hd]; try congruence.
    eexists. rewrite run_bind, Hd. reflexivity. }
  refine (conj _ (conj _ (conj _ _))).
  - intros type ok s' H. unfold beginTransaction, getCommitCount in H. destruct type.
    + mrun_in H.
      destruct (negb (_insideTransaction (conn s))); [|discriminate H].
      destruct (isEmpty (_uncommittedHash (conn s))); [|discriminate H].
      destruct (isEmpty (_uncommittedQuery (conn s))); [|discriminate H].
      mrun_in H.
      match type of H with (SQuery ?q ≫= ?k) ?s0 = _ =>
        destruct (Hdenied _ q k s0 eq_refl eq_refl eq_refl) as [s1 Hd]; rewrite Hd in H; cbv beta iota in H; clear Hd
      end.
      mrun_in H. injection H as <- _. reflexivity.
    + rewrite !bind_assoc, bind_commitLock_lock in H.
      destruct (commitLock (shared s)); [discriminate H|]. mrun_in H.
      destruct (negb (_insideTransaction (conn s))); [|discriminate H].
      destruct (isEmpty (_uncommittedHash (conn s))); [|discriminate H].
      destruct (isEmpty (_uncommittedQuery (conn s))); [|discriminate H].
      mrun_in H.
      match type of H with (SQuery ?q ≫= ?k) ?s0 = _ =>
        destruct (Hdenied _ q k s0 eq_refl eq_refl eq_refl) as [s1 Hd]; rewrite Hd in H; cbv beta iota in H; clear Hd
      end.
      mrun_in H. injection H as <- _. reflexivity.
  - intros ok s' H. unfold prepare, getCommitCount, getCommittedHash, when in H.
    mrun_in H. destruct (_insideTransaction (conn s)); [|discriminate H].
    destruct (_mutexLocked (conn s)); cbn [negb] in H.
    + mrun_in H.
      match type of H with (SQuery ?q ≫= ?k) ?s0 = _ =>
        destruct (Hdenied _ q k s0 eq_refl eq_refl eq_refl) as [s1 Hd]; rewrite Hd in H; cbv beta iota in H; clear Hd
      end.
      mrun_in H. change (negb (SQLITE_AUTH =? SQLITE_OK)) with true in H. cbv iota in H.
      msplit H as [] s2 E. mrun_in H. injection H as <- _. reflexivity.
    + rewrite bind_assoc, bind_commitLock_lock in H.
      destruct (commitLock (shared s)); [discriminate H|]. mrun_in H.
      match type of H with (SQuery ?q ≫= ?k) ?s0 = _ =>
        destruct (Hdenied _ q k s0 eq_refl eq_refl eq_refl) as [s1 Hd]; rewrite Hd in H; cbv beta iota in H; clear Hd
      end.
      mrun_in H. change (negb (SQLITE_AUTH =? SQLITE_OK)) with true in H. cbv iota in H.
      msplit H as [] s2 E. mrun_in H. injection H as <- _. reflexivity.
  - unfold commit. mrun.
    destruct (_insideTransaction (conn s)); [|reflexivity].
    destruct (negb (isEmpty (_uncommittedHash (conn s)))); [|reflexivity].
    destruct (_maxJournalSize (conn s) <? u64 (_journalSize (conn s) + 1)).
    + mrun.
      match goal with |- (SQuery ?q ≫= ?k) ?s0 = _ =>
        destruct (Hdenied _ q k s0 eq_refl eq_refl eq_refl) as [s1 Hd]; rewrite Hd; cbv beta iota; clear Hd
      end.
      reflexivity.
    + mrun. destruct (_pageLoggingEnabled (conn s)); mrun;
        match goal with |- (SQuery ?q ≫= ?k) ?s0 = _ =>
          destruct (Hdenied _ q k s0 eq_refl eq_refl eq_refl) as [s1 Hd]; rewrite Hd; cbv beta iota; clear Hd
        end; reflexivity.
  - intros Hin Hauto. unfold rollback. mrun. rewrite Hin, Hauto. mrun.
    match goal with |- (SQuery ?q ≫= ?k) ?s0 = _ =>
      destruct (Hdenied _ q k s0 eq_refl eq_refl eq_refl) as [s1 Hd]; rewrite Hd; cbv beta iota; clear Hd
    end.
    reflexivity.
Qed.

Lemma whitelist_denies_transaction_control_witness :
  _insideTransaction (conn whitelisted_transaction) = true ∧
  rollback whitelisted_transaction = Abort ∧ commit whitelisted_transaction = Abort.
Proof.
  destruct (whitelist_denies_transaction_control sample_SHashSHA1 sample_SToHex
              whitelisted_transaction rollback_response []
              (transaction_statement "ROLLBACK") []
              {[ "accounts" := {[ "name"; "email" ]} ]})
    as (_ & _ & Hcommit & Hrollback);
    [reflexivity | reflexivity | reflexivity | reflexivity | |].
  - unfold disallowed_actions. cbn [transaction_statement actionCode].
    repeat first [apply list_elem_of_here | apply list_elem_of_further].
  - split; [reflexivity|]. split; [apply Hrollback; reflexivity | exact Hcommit].
Defined.
